(** * Monte-Carlo front end: the controller of [frontend/app.js]

    A shallow embedding of the browser-side controller: the current
    portfolio, the four button handlers, the two fetch round trips and the
    rendering of a simulation response.  The JavaScript built-ins the
    controller calls (Number, toFixed, Math.round, toLocaleString,
    JSON.parse, JSON.stringify, Object.entries, String.prototype.trim)
    are embedded after ECMA-262; the page and the network are explicit
    state, and every handler is cut at its [await]s. *)

From Stdlib Require Import ZArith QArith Qround List Bool Lia String Ascii SpecFloat.
Import ListNotations.
Local Open Scope list_scope.
Local Open Scope Z_scope.

(** ** Strings

    A JavaScript string is a sequence of UTF-16 code units; a code unit is
    kept as its number.  [str] turns an ASCII literal into such a string,
    characters outside ASCII are written by their code unit. *)

Definition jsstring := list Z.

Definition str (s : string) : jsstring :=
  map (fun a => Z.of_N (N_of_ascii a)) (list_ascii_of_string s).

Fixpoint jsstring_eqb (a b : jsstring) : bool :=
  match a, b with
  | [], [] => true
  | x :: a', y :: b' => (x =? y) && jsstring_eqb a' b'
  | _, _ => false
  end.

(** [Array.prototype.join] on strings. *)
Fixpoint join (sep : jsstring) (l : list jsstring) : jsstring :=
  match l with
  | [] => []
  | [s] => s
  | s :: rest => s ++ sep ++ join sep rest
  end.

(** WhiteSpace and LineTerminator of ECMA-262: what [trim] strips and what
    the numeric coercion of a string skips. *)
Definition is_js_space (c : Z) : bool :=
  (c =? 9) || (c =? 10) || (c =? 11) || (c =? 12) || (c =? 13) || (c =? 32)
  || (c =? 160) || (c =? 5760) || ((8192 <=? c) && (c <=? 8202))
  || (c =? 8232) || (c =? 8233) || (c =? 8239) || (c =? 8287)
  || (c =? 12288) || (c =? 65279).

Fixpoint trimStart (s : jsstring) : jsstring :=
  match s with
  | c :: s' => if is_js_space c then trimStart s' else s
  | [] => []
  end.

Definition trimEnd (s : jsstring) : jsstring := rev (trimStart (rev s)).

Definition trim (s : jsstring) : jsstring := trimEnd (trimStart s).

(** ** Numbers

    A JavaScript number is an IEEE 754 binary64 value with one NaN:
    [spec_float] at precision 53 and maximal exponent 1024. *)

Definition number := spec_float.
Definition prec : Z := 53.
Definition emax : Z := 1024.

Definition num_mul : number -> number -> number := SFmul prec emax.
Definition num_div : number -> number -> number := SFdiv prec emax.

(** The number nearest to an integer (ties to even). *)
Definition of_Z (z : Z) : number := binary_normalize prec emax z 0 false.

(** The number nearest to [m * 10^e10], with the sign [neg]: the rounding
    of a decimal literal. *)
Definition of_decimal (neg : bool) (m : Z) (e10 : Z) : number :=
  match m with
  | Zpos p =>
      if 0 <=? e10
      then binary_normalize prec emax
             (if neg then - (m * 10 ^ e10) else m * 10 ^ e10) 0 false
      else SFdiv prec emax (S754_finite neg p 0)
             (S754_finite false (Z.to_pos (10 ^ (- e10))) 0)
  | _ => S754_zero neg
  end.

Definition number_eqb (x y : number) : bool :=
  match x, y with
  | S754_zero a, S754_zero b => Bool.eqb a b
  | S754_infinity a, S754_infinity b => Bool.eqb a b
  | S754_nan, S754_nan => true
  | S754_finite a m e, S754_finite b m' e' =>
      Bool.eqb a b && (Zpos m =? Zpos m') && (e =? e')
  | _, _ => false
  end.

(** The integer a number is, when it is one. *)
Definition integer_value (x : number) : option Z :=
  match x with
  | S754_zero _ => Some 0
  | S754_finite s m e =>
      let sg := fun z => if s then - z else z in
      if 0 <=? e then Some (sg (Zpos m * 2 ^ e))
      else if Zpos m mod 2 ^ (- e) =? 0 then Some (sg (Zpos m / 2 ^ (- e)))
      else None
  | _ => None
  end.

Definition is_nan (x : number) : bool :=
  match x with S754_nan => true | _ => false end.

(** ** Decimal digits *)

Fixpoint digits_fuel (fuel : nat) (n : Z) (acc : jsstring) : jsstring :=
  match fuel with
  | O => acc
  | S f =>
      let acc' := (48 + n mod 10) :: acc in
      if n <? 10 then acc' else digits_fuel f (n / 10) acc'
  end.

(** The decimal digits of a natural number, most significant first. *)
Definition decimal_digits (n : Z) : jsstring :=
  digits_fuel (S (Z.to_nat (Z.log2 n))) n [].

Definition zeros (k : nat) : jsstring := repeat 48 k.

Definition sign_str (neg : bool) : jsstring := if neg then str "-" else [].

(** [floor (m * 2^e * scale + 1/2)]: the magnitude [m * 2^e] times
    [scale], rounded to the nearest integer, a tie to the larger one. *)
Definition round_half_up_scaled (m : positive) (e : Z) (scale : Z) : Z :=
  if 0 <=? e then Zpos m * 2 ^ e * scale
  else (2 * Zpos m * scale + 2 ^ (- e)) / 2 ^ (1 - e).

(** [m * 2^e >= z], exactly. *)
Definition mag_geb (m : positive) (e : Z) (z : Z) : bool :=
  if 0 <=? e then z <=? Zpos m * 2 ^ e else z * 2 ^ (- e) <=? Zpos m.

(** ** Number::toString (radix 10)

    The shortest digit string [s] of [k] digits and the exponent [n] with
    [s * 10^(n-k)] rounding back to the number; of two candidates of one
    length the closer one, then the even one. *)

Section ShortestDigits.
(** The magnitude is [num / den]. *)
Variables num den : Z.

Definition ge_pow10 (g : Z) : bool :=
  if 0 <=? g then den * 10 ^ g <=? num else den <=? num * 10 ^ (- g).

Fixpoint log10_down (fuel : nat) (g : Z) : Z :=
  match fuel with
  | O => g
  | S f => if ge_pow10 g then g else log10_down f (g - 1)
  end.

Fixpoint log10_up (fuel : nat) (g : Z) : Z :=
  match fuel with
  | O => g
  | S f => if ge_pow10 (g + 1) then log10_up f (g + 1) else g
  end.

(** The largest [g] with [10^g <= num / den]. *)
Definition floor_log10 : Z :=
  let guess := (Z.log2 num - Z.log2 den) * 30103 / 100000 in
  log10_up 8 (log10_down 8 guess).

(** [num / den / 10^q] as quotient and remainder of two integers. *)
Definition scaled_div (q : Z) : Z * Z * Z :=
  let n' := if 0 <=? q then num else num * 10 ^ (- q) in
  let d' := if 0 <=? q then den * 10 ^ q else den in
  (n' / d', n' mod d', d').

Variable x : number.

Definition round_trips (s q : Z) : bool := number_eqb (of_decimal false s q) x.

(** The candidate of [k] digits, when one rounds back to [x]. *)
Definition candidate (g : Z) (k : Z) : option (Z * Z) :=
  let q := g - (k - 1) in
  let '(s1, r, d) := scaled_div q in
  let s2 := s1 + 1 in
  let ok1 := round_trips s1 q in
  let ok2 := round_trips s2 q in
  let pick2 := if s2 =? 10 ^ k then (10 ^ (k - 1), q + 1) else (s2, q) in
  match ok1, ok2 with
  | true, false => Some (s1, q)
  | false, true => Some pick2
  | true, true =>
      match 2 * r ?= d with
      | Lt => Some (s1, q)
      | Gt => Some pick2
      | Eq => if Z.even s1 then Some (s1, q) else Some pick2
      end
  | false, false => None
  end.

Fixpoint shortest (fuel : nat) (g : Z) (k : Z) : Z * Z :=
  match fuel with
  | O => (fst (fst (scaled_div (g - (k - 1)))), g - (k - 1))
  | S f =>
      match candidate g k with
      | Some sq => sq
      | None => shortest f g (k + 1)
      end
  end.
End ShortestDigits.

(** The digits [s] and the decimal exponent [q] ([s * 10^q]) of a finite
    non-zero magnitude. *)
Definition shortest_decimal (m : positive) (e : Z) : Z * Z :=
  let num := if 0 <=? e then Zpos m * 2 ^ e else Zpos m in
  let den := if 0 <=? e then 1 else 2 ^ (- e) in
  shortest num den (S754_finite false m e) 17 (floor_log10 num den) 1.

Definition exponent_str (e : Z) : jsstring :=
  (if 0 <=? e then str "+" else str "-") ++ decimal_digits (Z.abs e).

Definition Number_toString (x : number) : jsstring :=
  match x with
  | S754_nan => str "NaN"
  | S754_zero _ => str "0"
  | S754_infinity s => sign_str s ++ str "Infinity"
  | S754_finite s m e =>
      let '(d, q) := shortest_decimal m e in
      let ds := decimal_digits d in
      let k := Z.of_nat (List.length ds) in
      let n := q + k in
      sign_str s ++
      (if (-5 <=? n) && (n <=? 21) then
         if k <=? n then ds ++ zeros (Z.to_nat (n - k))
         else if 0 <? n then
           firstn (Z.to_nat n) ds ++ str "." ++ skipn (Z.to_nat n) ds
         else str "0." ++ zeros (Z.to_nat (- n)) ++ ds
       else
         match ds with
         | [c] => [c] ++ str "e" ++ exponent_str (n - 1)
         | c :: rest => [c] ++ str "." ++ rest ++ str "e" ++ exponent_str (n - 1)
         | [] => []
         end)
  end.

(** ** Number.prototype.toFixed *)

(** The digits of [n] with a point before the last [f] of them. *)
Definition fixed_digits (n : Z) (f : nat) : jsstring :=
  let m := decimal_digits n in
  match f with
  | O => m
  | _ =>
      let m' := zeros (S f - List.length m) ++ m in
      let k := List.length m' in
      firstn (k - f) m' ++ str "." ++ skipn (k - f) m'
  end.

Definition toFixed (x : number) (f : nat) : jsstring :=
  match x with
  | S754_nan => str "NaN"
  | S754_infinity s => sign_str s ++ str "Infinity"
  | S754_zero _ => fixed_digits 0 f
  | S754_finite s m e =>
      if mag_geb m e (10 ^ 21) then Number_toString x
      else sign_str s ++ fixed_digits (round_half_up_scaled m e (10 ^ Z.of_nat f)) f
  end.

(** ** Math.round

    An integral number is returned as it is; otherwise the result is the
    nearest integer, a tie going toward +Infinity, and a result of zero
    keeps the sign of the argument. *)
Definition Math_round (x : number) : number :=
  match x with
  | S754_finite s m e =>
      if 0 <=? e then x
      else
        let r := ((if s then - (2 * Zpos m) else 2 * Zpos m) + 2 ^ (- e)) / 2 ^ (1 - e) in
        if r =? 0 then S754_zero s else of_Z r
  | _ => x
  end.

(** ** Number.prototype.toLocaleString

    The host locale is en-US, as in the examples of the specification: the
    integer part in groups of three separated by commas, at most three
    fraction digits.  The digits are those of the shortest decimal that
    reads back as the number, the ones [Number::toString] shows, as the
    formatter of the engines (ICU) takes them; they are rounded to three
    fraction digits, a half going away from zero.  From [2^53] on the
    integers so shown end in zeros where the number itself does not.  The
    renderer applies it to results of [Math.round] only, which have no
    fraction. *)

Fixpoint group_rev (ds : jsstring) : jsstring :=
  match ds with
  | a :: b :: c :: ((_ :: _) as rest) => a :: b :: c :: 44 :: group_rev rest
  | _ => ds
  end.

(** Commas between groups of three digits, counted from the right. *)
Definition group3 (ds : jsstring) : jsstring := rev (group_rev (rev ds)).

Fixpoint strip_zeros_rev (ds : jsstring) : jsstring :=
  match ds with
  | c :: ds' => if c =? 48 then strip_zeros_rev ds' else ds
  | [] => []
  end.

Definition fraction_str (r : Z) : jsstring :=
  if r =? 0 then []
  else
    let ds := decimal_digits r in
    str "." ++ rev (strip_zeros_rev (rev (zeros (3 - List.length ds) ++ ds))).

(** The decimal [d * 10^q] in thousandths, rounded to the nearest integer,
    a half going up. *)
Definition thousandths (d q : Z) : Z :=
  if 0 <=? q + 3 then d * 10 ^ (q + 3)
  else (2 * d + 10 ^ (- (q + 3))) / (2 * 10 ^ (- (q + 3))).

Definition toLocaleString (x : number) : jsstring :=
  match x with
  | S754_nan => str "NaN"
  | S754_infinity s => sign_str s ++ [8734]
  | S754_zero s => sign_str s ++ str "0"
  | S754_finite s m e =>
      let '(d, q) := shortest_decimal m e in
      let n := thousandths d q in
      sign_str s ++ group3 (decimal_digits (n / 1000)) ++ fraction_str (n mod 1000)
  end.

(** ** StringToNumber: the numeric coercion of a string *)

Definition is_digit (c : Z) : bool := (48 <=? c) && (c <=? 57).

(** The value of a digit in a radix up to 16, when it is one. *)
Definition digit_in (radix : Z) (c : Z) : option Z :=
  let v :=
    if is_digit c then c - 48
    else if (97 <=? c) && (c <=? 102) then c - 87
    else if (65 <=? c) && (c <=? 70) then c - 55
    else 16 in
  if v <? radix then Some v else None.

(** The longest prefix of decimal digits, and what follows it. *)
Fixpoint span_digits (s : jsstring) : jsstring * jsstring :=
  match s with
  | c :: s' =>
      if is_digit c then let '(ds, rest) := span_digits s' in (c :: ds, rest)
      else ([], s)
  | [] => ([], [])
  end.

Definition digits_value (ds : jsstring) : Z :=
  fold_left (fun a c => 10 * a + (c - 48)) ds 0.

(** A whole string of digits of the radix, at least one. *)
Fixpoint radix_value (radix : Z) (s : jsstring) (acc : Z) : option Z :=
  match s with
  | [] => Some acc
  | c :: s' =>
      match digit_in radix c with
      | Some v => radix_value radix s' (radix * acc + v)
      | None => None
      end
  end.

(** ExponentPart, optional: [e] or [E], a sign, digits; then the end of
    the string. *)
Definition exponent_part (s : jsstring) : option Z :=
  match s with
  | [] => Some 0
  | c :: s' =>
      if (c =? 101) || (c =? 69) then
        let '(neg, s'') :=
          match s' with
          | 43 :: t => (false, t)
          | 45 :: t => (true, t)
          | _ => (false, s')
          end in
        match span_digits s'' with
        | ((_ :: _) as ds, []) => Some (if neg then - digits_value ds else digits_value ds)
        | _ => None
        end
      else None
  end.

(** StrUnsignedDecimalLiteral without [Infinity]: digits, a point, digits,
    an exponent, with a digit before or after the point. *)
Definition unsigned_decimal (neg : bool) (s : jsstring) : option number :=
  let '(int_ds, rest) := span_digits s in
  let '(frac_ds, rest') :=
    match rest with
    | 46 :: t => span_digits t
    | _ => ([], rest)
    end in
  match int_ds ++ frac_ds with
  | [] => None
  | ds =>
      match exponent_part rest' with
      | Some ex => Some (of_decimal neg (digits_value ds) (ex - Z.of_nat (List.length frac_ds)))
      | None => None
      end
  end.

Definition str_decimal (s : jsstring) : option number :=
  let '(neg, s') :=
    match s with
    | 43 :: t => (false, t)
    | 45 :: t => (true, t)
    | _ => (false, s)
    end in
  if jsstring_eqb s' (str "Infinity") then Some (S754_infinity neg)
  else unsigned_decimal neg s'.

Definition non_decimal (s : jsstring) : option number :=
  match s with
  | 48 :: c :: ((_ :: _) as ds) =>
      let radix :=
        if (c =? 120) || (c =? 88) then 16
        else if (c =? 111) || (c =? 79) then 8
        else if (c =? 98) || (c =? 66) then 2
        else 0 in
      match radix_value radix ds 0 with
      | Some v => Some (of_Z v)
      | None => None
      end
  | _ => None
  end.

Definition StringToNumber (s : jsstring) : number :=
  match trim s with
  | [] => S754_zero false
  | t =>
      match non_decimal t with
      | Some n => n
      | None =>
          match str_decimal t with
          | Some n => n
          | None => S754_nan
          end
      end
  end.

(** ** Values

    What the controller stores and passes around: [undefined] and the
    values of JSON.  An object is the list of its own properties in
    property order (array indices ascending, then the other keys in the
    order of creation), which is the order [Object.entries] reports. *)

#[warnings="-register-all"]
Inductive value :=
| VUndefined
| VNull
| VBool (b : bool)
| VNum (n : number)
| VStr (s : jsstring)
| VArr (l : list value)
| VObj (l : list (jsstring * value)).

Inductive exn :=
| TypeError
| RangeError
| SyntaxError
| Error (msg : jsstring).

(** The outcome of an expression that may throw. *)
Inductive result (A : Type) :=
| Ok (a : A)
| Throw (e : exn).
Arguments Ok {A} a.
Arguments Throw {A} e.

(** ToBoolean: what [!v] and [v || d] test. *)
Definition ToBoolean (v : value) : bool :=
  match v with
  | VUndefined | VNull => false
  | VBool b => b
  | VNum (S754_zero _) | VNum S754_nan => false
  | VNum _ => true
  | VStr [] => false
  | VStr _ => true
  | VArr _ | VObj _ => true
  end.

(** ToString; an array joins its elements with commas, [undefined] and
    [null] elements as the empty string. *)
Fixpoint ToString (v : value) : jsstring :=
  match v with
  | VUndefined => str "undefined"
  | VNull => str "null"
  | VBool b => if b then str "true" else str "false"
  | VNum n => Number_toString n
  | VStr s => s
  | VArr l =>
      join (str ",")
        (map (fun e => match e with
                       | VUndefined | VNull => []
                       | _ => ToString e
                       end) l)
  | VObj _ => str "[object Object]"
  end.

(** ToNumber; arrays and objects go through their string. *)
Definition ToNumber (v : value) : number :=
  match v with
  | VUndefined => S754_nan
  | VNull => S754_zero false
  | VBool b => if b then of_Z 1 else S754_zero false
  | VNum n => n
  | VStr s => StringToNumber s
  | VArr _ | VObj _ => StringToNumber (ToString v)
  end.

(** An array index: the canonical decimal string of an integer below
    [2^32 - 1]. *)
Definition array_index (k : jsstring) : option Z :=
  match k with
  | [] => None
  | c :: rest =>
      if forallb is_digit k && negb ((c =? 48) && negb (Nat.eqb (List.length rest) 0))
      then let n := digits_value k in if n <? 4294967295 then Some n else None
      else None
  end.

Fixpoint lookup (k : jsstring) (l : list (jsstring * value)) : option value :=
  match l with
  | [] => None
  | (k', v) :: l' => if jsstring_eqb k k' then Some v else lookup k l'
  end.

(** Reading a property, for the names the controller reads ([portfolio],
    [prob_by_goal], [summary], [median_terminal], [p5_terminal],
    [p95_terminal], [ptiles_over_time], [p10], [p50], [p90], [length]):
    none of them is inherited, so only own properties answer. *)
Definition get (v : value) (k : jsstring) : result value :=
  match v with
  | VUndefined | VNull => Throw TypeError
  | VObj l => Ok (match lookup k l with Some x => x | None => VUndefined end)
  | VArr l =>
      if jsstring_eqb k (str "length") then Ok (VNum (of_Z (Z.of_nat (List.length l))))
      else match array_index k with
           | Some i => Ok (nth (Z.to_nat i) l VUndefined)
           | None => Ok VUndefined
           end
  | VStr s =>
      if jsstring_eqb k (str "length") then Ok (VNum (of_Z (Z.of_nat (List.length s))))
      else match array_index k with
           | Some i => Ok (match nth_error s (Z.to_nat i) with
                           | Some c => VStr [c]
                           | None => VUndefined
                           end)
           | None => Ok VUndefined
           end
  | VBool _ | VNum _ => Ok VUndefined
  end.

(** Pairs an element list with its indices as property keys. *)
Fixpoint indexed {A : Type} (i : Z) (l : list A) : list (jsstring * A) :=
  match l with
  | [] => []
  | a :: l' => (decimal_digits i, a) :: indexed (i + 1) l'
  end.

Definition Object_entries (v : value) : result (list (jsstring * value)) :=
  match v with
  | VUndefined | VNull => Throw TypeError
  | VObj l => Ok l
  | VArr l => Ok (indexed 0 l)
  | VStr s => Ok (indexed 0 (map (fun c => VStr [c]) s))
  | VBool _ | VNum _ => Ok []
  end.

(** Defining a property as JSON.parse and object literals do: an existing
    key keeps its place and takes the new value; a new array index goes
    among the indices in ascending order, any other new key last. *)
Fixpoint replace_key (k : jsstring) (v : value) (l : list (jsstring * value))
  : list (jsstring * value) :=
  match l with
  | [] => []
  | (k', v') :: l' =>
      if jsstring_eqb k k' then (k', v) :: l' else (k', v') :: replace_key k v l'
  end.

Fixpoint insert_index (i : Z) (k : jsstring) (v : value)
  (l : list (jsstring * value)) : list (jsstring * value) :=
  match l with
  | [] => [(k, v)]
  | (k', v') :: l' =>
      match array_index k' with
      | Some j => if j <? i then (k', v') :: insert_index i k v l'
                  else (k, v) :: l
      | None => (k, v) :: l
      end
  end.

Definition define (l : list (jsstring * value)) (k : jsstring) (v : value)
  : list (jsstring * value) :=
  match lookup k l with
  | Some _ => replace_key k v l
  | None =>
      match array_index k with
      | Some i => insert_index i k v l
      | None => l ++ [(k, v)]
      end
  end.

(** An object literal [{k1: v1, k2: v2, ...}]. *)
Definition obj (props : list (string * value)) : value :=
  VObj (fold_left (fun l kv => define l (str (fst kv)) (snd kv)) props []).

(** [[...Array(len).keys()]]: a number must be an integer below [2^32]
    and gives that many indices; any other value gives the one index of
    the array holding it. *)
Definition Array_keys (len : value) : result (list Z) :=
  match len with
  | VNum n =>
      match integer_value n with
      | Some z =>
          if (0 <=? z) && (z <? 4294967296)
          then Ok (map Z.of_nat (seq 0 (Z.to_nat z)))
          else Throw RangeError
      | None => Throw RangeError
      end
  | _ => Ok [0]
  end.

(** ** JSON.parse

    The text is cut into tokens by a machine that reads one code unit at a
    time; insignificant whitespace may surround any token.  A run of
    letters, digits, signs and points is one word, which must be [true],
    [false], [null] or a number of the JSON grammar. *)

Inductive token :=
| TLBrace | TRBrace | TLBracket | TRBracket | TColon | TComma
| TTrue | TFalse | TNull
| TNum (n : number)
| TStr (s : jsstring).

Definition is_json_space (c : Z) : bool :=
  (c =? 9) || (c =? 10) || (c =? 13) || (c =? 32).

Definition is_word_char (c : Z) : bool :=
  is_digit c || ((97 <=? c) && (c <=? 122)) || ((65 <=? c) && (c <=? 90))
  || (c =? 43) || (c =? 45) || (c =? 46).

(** A JSON number: an optional minus; zero, or digits that do not start
    with zero; an optional point with digits; an optional exponent. *)
Definition json_number (s : jsstring) : option number :=
  let '(neg, s1) :=
    match s with
    | 45 :: t => (true, t)
    | _ => (false, s)
    end in
  let '(int_ds, rest) := span_digits s1 in
  match int_ds with
  | [] => None
  | 48 :: _ :: _ => None
  | _ =>
      let frac :=
        match rest with
        | 46 :: t =>
            match span_digits t with
            | ((_ :: _) as f, r) => Some (f, r)
            | _ => None
            end
        | _ => Some ([], rest)
        end in
      match frac with
      | Some (frac_ds, rest') =>
          match exponent_part rest' with
          | Some ex =>
              Some (of_decimal neg (digits_value (int_ds ++ frac_ds))
                      (ex - Z.of_nat (List.length frac_ds)))
          | None => None
          end
      | None => None
      end
  end.

Definition word_token (w : jsstring) : option token :=
  if jsstring_eqb w (str "true") then Some TTrue
  else if jsstring_eqb w (str "false") then Some TFalse
  else if jsstring_eqb w (str "null") then Some TNull
  else option_map TNum (json_number w).

(** The states of the token machine; the characters read so far are kept
    newest first. *)
Inductive lex_state :=
| Between
| InWord (acc : jsstring)
| InString (acc : jsstring)
| InEscape (acc : jsstring)
| InUnicode (acc : jsstring) (count : nat) (code : Z).

Definition step_between (c : Z) : option (list token * lex_state) :=
  if is_json_space c then Some ([], Between)
  else if c =? 123 then Some ([TLBrace], Between)
  else if c =? 125 then Some ([TRBrace], Between)
  else if c =? 91 then Some ([TLBracket], Between)
  else if c =? 93 then Some ([TRBracket], Between)
  else if c =? 58 then Some ([TColon], Between)
  else if c =? 44 then Some ([TComma], Between)
  else if c =? 34 then Some ([], InString [])
  else if is_word_char c then Some ([], InWord [c])
  else None.

Definition escape_char (c : Z) : option Z :=
  if c =? 34 then Some 34
  else if c =? 92 then Some 92
  else if c =? 47 then Some 47
  else if c =? 98 then Some 8
  else if c =? 102 then Some 12
  else if c =? 110 then Some 10
  else if c =? 114 then Some 13
  else if c =? 116 then Some 9
  else None.

Definition lex_step (st : lex_state) (c : Z) : option (list token * lex_state) :=
  match st with
  | Between => step_between c
  | InWord acc =>
      if is_word_char c then Some ([], InWord (c :: acc))
      else
        match word_token (rev acc), step_between c with
        | Some t, Some (ts, st') => Some (t :: ts, st')
        | _, _ => None
        end
  | InString acc =>
      if c =? 34 then Some ([TStr (rev acc)], Between)
      else if c =? 92 then Some ([], InEscape acc)
      else if c <? 32 then None
      else Some ([], InString (c :: acc))
  | InEscape acc =>
      if c =? 117 then Some ([], InUnicode acc 0 0)
      else
        match escape_char c with
        | Some c' => Some ([], InString (c' :: acc))
        | None => None
        end
  | InUnicode acc count code =>
      match digit_in 16 c with
      | Some v =>
          if Nat.eqb count 3 then Some ([], InString ((16 * code + v) :: acc))
          else Some ([], InUnicode acc (S count) (16 * code + v))
      | None => None
      end
  end.

Definition lex_end (st : lex_state) : option (list token) :=
  match st with
  | Between => Some []
  | InWord acc => option_map (fun t => [t]) (word_token (rev acc))
  | _ => None
  end.

Fixpoint lex_from (st : lex_state) (s : jsstring) : option (list token) :=
  match s with
  | [] => lex_end st
  | c :: s' =>
      match lex_step st c with
      | Some (ts, st') => option_map (app ts) (lex_from st' s')
      | None => None
      end
  end.

(** The grammar of values over tokens.  Every second call at least
    consumes a token, so twice the number of tokens is fuel enough. *)
Fixpoint parse_value (fuel : nat) (ts : list token) : option (value * list token) :=
  match fuel with
  | O => None
  | S f =>
      match ts with
      | TNull :: r => Some (VNull, r)
      | TTrue :: r => Some (VBool true, r)
      | TFalse :: r => Some (VBool false, r)
      | TNum n :: r => Some (VNum n, r)
      | TStr s :: r => Some (VStr s, r)
      | TLBracket :: TRBracket :: r => Some (VArr [], r)
      | TLBracket :: r => parse_elements f r []
      | TLBrace :: TRBrace :: r => Some (VObj [], r)
      | TLBrace :: r => parse_members f r []
      | _ => None
      end
  end
with parse_elements (fuel : nat) (ts : list token) (acc : list value)
  : option (value * list token) :=
  match fuel with
  | O => None
  | S f =>
      match parse_value f ts with
      | Some (v, TComma :: r) => parse_elements f r (v :: acc)
      | Some (v, TRBracket :: r) => Some (VArr (rev (v :: acc)), r)
      | _ => None
      end
  end
with parse_members (fuel : nat) (ts : list token) (acc : list (jsstring * value))
  : option (value * list token) :=
  match fuel with
  | O => None
  | S f =>
      match ts with
      | TStr k :: TColon :: r =>
          match parse_value f r with
          | Some (v, TComma :: r') => parse_members f r' (define acc k v)
          | Some (v, TRBrace :: r') => Some (VObj (define acc k v), r')
          | _ => None
          end
      | _ => None
      end
  end.

Definition JSON_parse (text : jsstring) : result value :=
  match lex_from Between text with
  | Some ts =>
      match parse_value (2 * List.length ts + 2) ts with
      | Some (v, []) => Ok v
      | _ => Throw SyntaxError
      end
  | None => Throw SyntaxError
  end.

(** ** JSON.stringify *)

Definition hex_digit (v : Z) : Z := if v <? 10 then 48 + v else 87 + v.

Definition unicode_escape (c : Z) : jsstring :=
  str "\u" ++ [hex_digit (c / 4096 mod 16); hex_digit (c / 256 mod 16);
               hex_digit (c / 16 mod 16); hex_digit (c mod 16)].

Definition is_high_surrogate (c : Z) : bool := (55296 <=? c) && (c <=? 56319).
Definition is_low_surrogate (c : Z) : bool := (56320 <=? c) && (c <=? 57343).

(** The body of QuoteJSONString: escapes for the quote, the backslash, the
    control characters and the surrogates that stand alone. *)
Fixpoint quote_body (s : jsstring) : jsstring :=
  match s with
  | [] => []
  | c :: s' =>
      if c =? 8 then str "\b" ++ quote_body s'
      else if c =? 9 then str "\t" ++ quote_body s'
      else if c =? 10 then str "\n" ++ quote_body s'
      else if c =? 12 then str "\f" ++ quote_body s'
      else if c =? 13 then str "\r" ++ quote_body s'
      else if c =? 34 then [92; 34] ++ quote_body s'
      else if c =? 92 then [92; 92] ++ quote_body s'
      else if c <? 32 then unicode_escape c ++ quote_body s'
      else if is_high_surrogate c then
        match s' with
        | d :: s'' =>
            if is_low_surrogate d then c :: d :: quote_body s''
            else unicode_escape c ++ quote_body s'
        | [] => unicode_escape c
        end
      else if is_low_surrogate c then unicode_escape c ++ quote_body s'
      else c :: quote_body s'
  end.

Definition QuoteJSONString (s : jsstring) : jsstring := [34] ++ quote_body s ++ [34].

Definition is_finite (x : number) : bool :=
  match x with
  | S754_zero _ | S754_finite _ _ _ => true
  | _ => false
  end.

(** SerializeJSONProperty with the indentation unit [gap] at the current
    indentation [indent]; [None] is the result [undefined]. *)
Fixpoint serialize (gap indent : jsstring) (v : value) {struct v} : option jsstring :=
  let inner := indent ++ gap in
  let wrap (opening closing : jsstring) (items : list jsstring) : jsstring :=
    match items, gap with
    | [], _ => opening ++ closing
    | _, [] => opening ++ join (str ",") items ++ closing
    | _, _ =>
        opening ++ [10] ++ inner ++ join ([44; 10] ++ inner) items
        ++ [10] ++ indent ++ closing
    end in
  match v with
  | VUndefined => None
  | VNull => Some (str "null")
  | VBool b => Some (if b then str "true" else str "false")
  | VNum n => Some (if is_finite n then Number_toString n else str "null")
  | VStr s => Some (QuoteJSONString s)
  | VArr l =>
      Some (wrap (str "[") (str "]")
              (map (fun e => match serialize gap inner e with
                             | Some t => t
                             | None => str "null"
                             end) l))
  | VObj l =>
      Some (wrap (str "{") (str "}")
              (flat_map (fun kv =>
                           match serialize gap inner (snd kv) with
                           | Some t =>
                               [QuoteJSONString (fst kv) ++ str ":"
                                ++ (match gap with [] => [] | _ => str " " end) ++ t]
                           | None => []
                           end) l))
  end.

(** [JSON.stringify(v)] and [JSON.stringify(v, null, 2)]. *)
Definition JSON_stringify (v : value) : option jsstring := serialize [] [] v.
Definition JSON_stringify_2 (v : value) : option jsstring := serialize (str "  ") [] v.

(** ** The page, the network and the controller's state *)

Definition API_BASE : jsstring := str "http://localhost:8000".

Record file := { file_name : jsstring; file_bytes : list Z }.

(** A text element of the page. *)
Record element := { textContent : jsstring; className : jsstring }.

(** A call of [Plotly.newPlot] on a chart element: traces, layout, options. *)
Record plot := { plot_data : value; plot_layout : value; plot_config : value }.

(** The elements the controller reads and writes, by their ids. *)
Record page := {
  docxFile : option file;       (* #docxFile.files[0] *)
  jsonInput : jsstring;         (* #jsonInput.value *)
  nPaths : jsstring;            (* #nPaths.value *)
  seed : jsstring;              (* #seed.value *)
  parseStatus : element;
  simSummary : element;
  probGoals : jsstring;         (* #probGoals.innerHTML *)
  fanChart : option plot;
  histChart : option plot
}.

Inductive body :=
| NoBody
| FormData (fields : list (jsstring * file))
| TextBody (text : jsstring).

Record request := {
  req_url : jsstring;
  req_method : jsstring;
  req_headers : list (jsstring * jsstring);
  req_body : body
}.

(** What [fetch] resolves to: the status of the response.  Its [ok]
    attribute is read off the status: true for 200 to 299. *)
Record response := { status : Z }.

Definition ok (r : response) : bool :=
  (200 <=? status r) && (status r <=? 299).

(** How a promise settles. *)
Inductive settled (A : Type) :=
| Fulfilled (a : A)
| Rejected (e : exn).
Arguments Fulfilled {A} a.
Arguments Rejected {A} e.

(** A handler suspended at an [await]: which handler, and whether it
    waits for [fetch] or for [r.json()]. *)
Inductive handler := ParseHandler | SimulateHandler.
Inductive stage := AwaitFetch | AwaitJson.
Record task := { task_id : nat; task_handler : handler; task_stage : stage }.

Record state := {
  currentPortfolioJSON : value;
  dom : page;
  alerts : list jsstring;       (* the alerts shown, oldest first *)
  console : list exn;           (* what console.error logged, oldest first *)
  requests : list request;      (* the fetches issued, oldest first *)
  tasks : list task;            (* the handlers in flight *)
  next_id : nat
}.

(** [let currentPortfolioJSON = null], on a page [p] with nothing in flight. *)
Definition initial (p : page) : state :=
  {| currentPortfolioJSON := VNull; dom := p; alerts := []; console := [];
     requests := []; tasks := []; next_id := 0 |}.

Definition set_currentPortfolioJSON (v : value) (st : state) : state :=
  {| currentPortfolioJSON := v; dom := dom st; alerts := alerts st;
     console := console st; requests := requests st; tasks := tasks st;
     next_id := next_id st |}.

Definition set_dom (p : page) (st : state) : state :=
  {| currentPortfolioJSON := currentPortfolioJSON st; dom := p; alerts := alerts st;
     console := console st; requests := requests st; tasks := tasks st;
     next_id := next_id st |}.

Definition alert (msg : jsstring) (st : state) : state :=
  {| currentPortfolioJSON := currentPortfolioJSON st; dom := dom st;
     alerts := alerts st ++ [msg];
     console := console st; requests := requests st; tasks := tasks st;
     next_id := next_id st |}.

Definition console_error (e : exn) (st : state) : state :=
  {| currentPortfolioJSON := currentPortfolioJSON st; dom := dom st;
     alerts := alerts st; console := console st ++ [e];
     requests := requests st; tasks := tasks st; next_id := next_id st |}.

Definition set_tasks (ts : list task) (st : state) : state :=
  {| currentPortfolioJSON := currentPortfolioJSON st; dom := dom st;
     alerts := alerts st; console := console st;
     requests := requests st; tasks := ts; next_id := next_id st |}.

(** [fetch(...)] followed by [await]: the request leaves and the handler
    is suspended under a fresh id. *)
Definition fetch (r : request) (h : handler) (st : state) : state :=
  {| currentPortfolioJSON := currentPortfolioJSON st; dom := dom st;
     alerts := alerts st; console := console st;
     requests := requests st ++ [r];
     tasks := tasks st ++ [{| task_id := next_id st; task_handler := h;
                             task_stage := AwaitFetch |}];
     next_id := S (next_id st) |}.

(** [await r.json()]: the handler is suspended again under its id. *)
Definition await_json (id : nat) (h : handler) (st : state) : state :=
  set_tasks (tasks st ++ [{| task_id := id; task_handler := h;
                             task_stage := AwaitJson |}]) st.

Definition set_jsonInput (s : jsstring) (p : page) : page :=
  {| docxFile := docxFile p; jsonInput := s; nPaths := nPaths p; seed := seed p;
     parseStatus := parseStatus p; simSummary := simSummary p;
     probGoals := probGoals p; fanChart := fanChart p; histChart := histChart p |}.

Definition set_parseStatus (e : element) (p : page) : page :=
  {| docxFile := docxFile p; jsonInput := jsonInput p; nPaths := nPaths p;
     seed := seed p; parseStatus := e; simSummary := simSummary p;
     probGoals := probGoals p; fanChart := fanChart p; histChart := histChart p |}.

Definition set_simSummary (e : element) (p : page) : page :=
  {| docxFile := docxFile p; jsonInput := jsonInput p; nPaths := nPaths p;
     seed := seed p; parseStatus := parseStatus p; simSummary := e;
     probGoals := probGoals p; fanChart := fanChart p; histChart := histChart p |}.

Definition set_probGoals (html : jsstring) (p : page) : page :=
  {| docxFile := docxFile p; jsonInput := jsonInput p; nPaths := nPaths p;
     seed := seed p; parseStatus := parseStatus p; simSummary := simSummary p;
     probGoals := html; fanChart := fanChart p; histChart := histChart p |}.

Definition set_fanChart (c : plot) (p : page) : page :=
  {| docxFile := docxFile p; jsonInput := jsonInput p; nPaths := nPaths p;
     seed := seed p; parseStatus := parseStatus p; simSummary := simSummary p;
     probGoals := probGoals p; fanChart := Some c; histChart := histChart p |}.

Definition set_histChart (c : plot) (p : page) : page :=
  {| docxFile := docxFile p; jsonInput := jsonInput p; nPaths := nPaths p;
     seed := seed p; parseStatus := parseStatus p; simSummary := simSummary p;
     probGoals := probGoals p; fanChart := fanChart p; histChart := Some c |}.

Definition set_inputs (f : option file) (n s : jsstring) (p : page) : page :=
  {| docxFile := f; jsonInput := jsonInput p; nPaths := n; seed := s;
     parseStatus := parseStatus p; simSummary := simSummary p;
     probGoals := probGoals p; fanChart := fanChart p; histChart := histChart p |}.

(** The text elements [setStatus] and the handlers address by id. *)
Inductive text_id := id_parseStatus | id_simSummary.

Definition getElementById (id : text_id) (p : page) : element :=
  match id with
  | id_parseStatus => parseStatus p
  | id_simSummary => simSummary p
  end.

Definition set_element (id : text_id) (e : element) (p : page) : page :=
  match id with
  | id_parseStatus => set_parseStatus e p
  | id_simSummary => set_simSummary e p
  end.

(** [document.getElementById(id).textContent = msg] *)
Definition set_textContent (id : text_id) (msg : jsstring) (st : state) : state :=
  set_dom (set_element id {| textContent := msg;
                             className := className (getElementById id (dom st)) |}
             (dom st)) st.

(** [function setStatus(id, msg, isErr=false)] *)
Definition setStatus (id : text_id) (msg : jsstring) (isErr : bool) (st : state) : state :=
  set_dom (set_element id {| textContent := msg;
                             className := if isErr then str "status error"
                                          else str "status" |}
             (dom st)) st.

(** ** Statements that may throw

    A block of statements acts on the state and either completes or
    throws; what it did before throwing stays done. *)

Definition M (A : Type) : Type := state -> state * result A.

Definition ret {A : Type} (a : A) : M A := fun st => (st, Ok a).

Definition bind {A B : Type} (c : M A) (k : A -> M B) : M B :=
  fun st =>
    match c st with
    | (st', Ok a) => k a st'
    | (st', Throw e) => (st', Throw e)
    end.

(** An expression: no effect on the state. *)
Definition eval {A : Type} (r : result A) : M A := fun st => (st, r).

(** A statement that cannot throw. *)
Definition exec (f : state -> state) : M unit := fun st => (f st, Ok tt).

(** [try { c } catch (e) { h e }] *)
Definition try_catch (c : M unit) (h : exn -> state -> state) (st : state) : state :=
  match c st with
  | (st', Ok _) => st'
  | (st', Throw e) => h e st'
  end.

Declare Scope js_scope.
Delimit Scope js_scope with js.
Notation "x <- c ;; k" := (bind c (fun x => k))
  (at level 61, c at next level, right associativity) : js_scope.
Notation "c ;; k" := (bind c (fun _ => k))
  (at level 61, right associativity) : js_scope.

(** ** renderResults *)

(** [Plotly.newPlot(chart, data, layout, config)]: the chart element takes
    the plot; the library is taken not to throw. *)
Definition Plotly_newPlot (chart : plot -> page -> page)
  (data layout config : value) : M unit :=
  exec (fun st =>
    set_dom (chart {| plot_data := data; plot_layout := layout;
                      plot_config := config |} (dom st)) st).

Definition num (z : Z) : value := VNum (of_Z z).

(** [(v*100).toFixed(1)] *)
Definition percent (v : value) : jsstring :=
  toFixed (num_mul (ToNumber v) (of_Z 100)) 1.

(** [Math.round(v).toLocaleString()] *)
Definition dollars (v : value) : jsstring :=
  toLocaleString (Math_round (ToNumber v)).

Definition en_dash : Z := 8211.

Definition prob_line (kv : jsstring * value) : jsstring :=
  fst kv ++ str ": " ++ percent (snd kv) ++ str "%".

Definition pill (kv : jsstring * value) : jsstring :=
  str "<div class=" ++ [34] ++ str "pill" ++ [34] ++ str "><b>" ++ fst kv
  ++ str "</b> " ++ percent (snd kv) ++ str "%</div>".

Definition summary_text (probLines : jsstring) (median p5 p95 : value) : jsstring :=
  join [10]
    [ str "Goal Probabilities";
      probLines;
      [];
      str "Median terminal: $" ++ dollars median;
      str "5th" ++ [en_dash] ++ str "95th: $" ++ dollars p5
        ++ str " " ++ [en_dash] ++ str " $" ++ dollars p95 ].

Definition traceBand (years : list jsstring) (p90 : value) : value :=
  obj [ ("x", VArr (map VStr years)); ("y", p90); ("mode", VStr (str "lines"));
        ("line", obj [("width", num 0)]);
        ("showlegend", VBool false); ("name", VStr (str "90th"));
        ("hoverinfo", VStr (str "skip")) ]%string.

Definition traceBand2 (years : list jsstring) (p10 : value) : value :=
  obj [ ("x", VArr (map VStr years)); ("y", p10); ("mode", VStr (str "lines"));
        ("fill", VStr (str "tonexty"));
        ("fillcolor", VStr (str "rgba(33,150,243,0.15)"));
        ("line", obj [("width", num 0)]);
        ("showlegend", VBool false); ("name", VStr (str "10th"));
        ("hoverinfo", VStr (str "skip")) ]%string.

Definition traceMedian (years : list jsstring) (p50 : value) : value :=
  obj [ ("x", VArr (map VStr years)); ("y", p50); ("mode", VStr (str "lines"));
        ("line", obj [("color", VStr (str "#2196F3")); ("width", num 2)]);
        ("name", VStr (str "Median")) ]%string.

Definition fan_layout : value :=
  obj [ ("title", VStr (str "Projected Wealth (Percentiles)"));
        ("xaxis", obj [("title", VStr (str "Years")); ("zeroline", VBool false)]);
        ("yaxis", obj [("title", VStr (str "Portfolio Value ($)"));
                       ("tickformat", VStr (str ",.0f"))]);
        ("margin", obj [("t", num 40); ("r", num 10); ("b", num 50); ("l", num 60)])
      ]%string.

Definition plot_options : value := obj [("displayModeBar", VBool false)]%string.

Definition terminalMarkers (p5 median p95 : value) : list value :=
  [ obj [("name", VStr (str "P5")); ("y", VArr [p5]);
         ("marker", obj [("color", VStr (str "#aaa"))])];
    obj [("name", VStr (str "Median")); ("y", VArr [median]);
         ("marker", obj [("color", VStr (str "#2196F3"))])];
    obj [("name", VStr (str "P95")); ("y", VArr [p95]);
         ("marker", obj [("color", VStr (str "#aaa"))])] ]%string.

(** [(m,i) => ({x:[i], y:m.y, type:'bar', name:m.name, marker:m.marker})] *)
Definition bar_trace (m : value) (i : Z) : result value :=
  match get m (str "y"), get m (str "name"), get m (str "marker") with
  | Ok y, Ok name, Ok marker =>
      Ok (obj [ ("x", VArr [num i]); ("y", y); ("type", VStr (str "bar"));
                ("name", name); ("marker", marker) ]%string)
  | Throw e, _, _ | _, Throw e, _ | _, _, Throw e => Throw e
  end.

(** [Array.prototype.map] with a callback that may throw. *)
Fixpoint map_from {A B : Type} (f : A -> Z -> result B) (i : Z) (l : list A)
  : result (list B) :=
  match l with
  | [] => Ok []
  | a :: l' =>
      match f a i with
      | Ok b =>
          match map_from f (i + 1) l' with
          | Ok bs => Ok (b :: bs)
          | Throw e => Throw e
          end
      | Throw e => Throw e
      end
  end.

Definition hist_layout : value :=
  obj [ ("title", VStr (str "Terminal Wealth Markers"));
        ("xaxis", obj [("showticklabels", VBool false)]);
        ("yaxis", obj [("title", VStr (str "$"))]);
        ("barmode", VStr (str "group"));
        ("margin", obj [("t", num 40); ("r", num 10); ("b", num 30); ("l", num 60)])
      ]%string.

Local Open Scope js_scope.

Definition renderResults (data : value) : M unit :=
  (* Summary text *)
  prob_by_goal <- eval (get data (str "prob_by_goal")) ;;
  entries <- eval (Object_entries prob_by_goal) ;;
  let probLines := join [10] (map prob_line entries) in
  s <- eval (get data (str "summary")) ;;
  median <- eval (get s (str "median_terminal")) ;;
  p5 <- eval (get s (str "p5_terminal")) ;;
  p95 <- eval (get s (str "p95_terminal")) ;;
  exec (set_textContent id_simSummary (summary_text probLines median p5 p95)) ;;
  (* Probability block *)
  prob_by_goal' <- eval (get data (str "prob_by_goal")) ;;
  entries' <- eval (Object_entries prob_by_goal') ;;
  exec (fun st => set_dom (set_probGoals (join [] (map pill entries')) (dom st)) st) ;;
  (* Fan chart *)
  ptiles <- eval (get data (str "ptiles_over_time")) ;;
  p10 <- eval (get ptiles (str "p10")) ;;
  ptiles' <- eval (get data (str "ptiles_over_time")) ;;
  p50 <- eval (get ptiles' (str "p50")) ;;
  ptiles'' <- eval (get data (str "ptiles_over_time")) ;;
  p90 <- eval (get ptiles'' (str "p90")) ;;
  len <- eval (get p50 (str "length")) ;;
  months <- eval (Array_keys len) ;;
  let years := map (fun m => toFixed (num_div (of_Z m) (of_Z 12)) 1) months in
  Plotly_newPlot set_fanChart
    (VArr [traceBand years p90; traceBand2 years p10; traceMedian years p50])
    fan_layout plot_options ;;
  (* Terminal markers *)
  p5' <- eval (get s (str "p5_terminal")) ;;
  median' <- eval (get s (str "median_terminal")) ;;
  p95' <- eval (get s (str "p95_terminal")) ;;
  bars <- eval (map_from bar_trace 0 (terminalMarkers p5' median' p95')) ;;
  Plotly_newPlot set_histChart (VArr bars) hist_layout plot_options.

(** ** The handlers

    Each [async] handler is cut at its two [await]s: the part run by the
    click, the part run when [fetch] settles and the part run when
    [r.json()] settles. *)

Definition ellipsis : Z := 8230.
Definition check_mark : Z := 10003.

(** The [catch] block of the parse handler. *)
Definition parse_catch (e : exn) (st : state) : state :=
  setStatus id_parseStatus (str "Failed to parse document") true (console_error e st).

Definition parseBtn_click (st : state) : state :=
  match docxFile (dom st) with
  | None => setStatus id_parseStatus (str "Please choose a .docx file") true st
  | Some file =>
      let st := setStatus id_parseStatus (str "Parsing" ++ [ellipsis]) false st in
      fetch {| req_url := API_BASE ++ str "/parse-docx";
               req_method := str "POST";
               req_headers := [];
               req_body := FormData [(str "file", file)] |}
        ParseHandler st
  end.

Definition parse_fetch_settled (id : nat) (r : settled response) (st : state) : state :=
  match r with
  | Rejected e => parse_catch e st
  | Fulfilled r =>
      if negb (ok r)
      then parse_catch (Error (str "Parse failed: " ++ Number_toString (of_Z (status r)))) st
      else await_json id ParseHandler st
  end.

(** What a [value] attribute holds after the assignment of a string or of
    [undefined]. *)
Definition DOMString (s : option jsstring) : jsstring :=
  match s with
  | Some t => t
  | None => str "undefined"
  end.

Definition parse_json_settled (r : settled value) (st : state) : state :=
  match r with
  | Rejected e => parse_catch e st
  | Fulfilled data =>
      try_catch
        (portfolio <- eval (get data (str "portfolio")) ;;
         exec (set_currentPortfolioJSON portfolio) ;;
         exec (fun st =>
                 set_dom (set_jsonInput
                            (DOMString (JSON_stringify_2 (currentPortfolioJSON st)))
                            (dom st)) st) ;;
         exec (setStatus id_parseStatus (str "Parsed successfully " ++ [check_mark]) false))
        parse_catch st
  end.

Definition useJsonBtn_click (st : state) : state :=
  let txt := trim (jsonInput (dom st)) in
  match JSON_parse txt with
  | Ok v => alert (str "Portfolio JSON loaded.") (set_currentPortfolioJSON v st)
  | Throw _ => alert (str "Invalid JSON.") st
  end.

Definition clearJsonBtn_click (st : state) : state :=
  set_currentPortfolioJSON VNull (set_dom (set_jsonInput [] (dom st)) st).

(** [Number(text || fallback)] on the text of an input. *)
Definition Number_or (text : jsstring) (fallback : Z) : number :=
  ToNumber (if ToBoolean (VStr text) then VStr text else num fallback).

(** [{ portfolio: currentPortfolioJSON, n_paths: nPaths, seed }] *)
Definition simulate_payload (st : state) : value :=
  obj [ ("portfolio", currentPortfolioJSON st);
        ("n_paths", VNum (Number_or (nPaths (dom st)) 10000));
        ("seed", VNum (Number_or (seed (dom st)) 42)) ]%string.

(** The [catch] block of the simulate handler. *)
Definition simulate_catch (e : exn) (st : state) : state :=
  set_textContent id_simSummary (str "Simulation failed.") (console_error e st).

Definition simulateBtn_click (st : state) : state :=
  if negb (ToBoolean (currentPortfolioJSON st))
  then alert (str "Load a portfolio first (parse or paste JSON).") st
  else
    let payload := simulate_payload st in
    let st := set_textContent id_simSummary (str "Simulating" ++ [ellipsis]) st in
    fetch {| req_url := API_BASE ++ str "/simulate";
             req_method := str "POST";
             req_headers := [(str "Content-Type", str "application/json")];
             req_body := match JSON_stringify payload with
                         | Some text => TextBody text
                         | None => NoBody
                         end |}
      SimulateHandler st.

Definition simulate_fetch_settled (id : nat) (r : settled response) (st : state) : state :=
  match r with
  | Rejected e => simulate_catch e st
  | Fulfilled r =>
      if negb (ok r)
      then simulate_catch (Error (str "Sim failed: " ++ Number_toString (of_Z (status r)))) st
      else await_json id SimulateHandler st
  end.

Definition simulate_json_settled (r : settled value) (st : state) : state :=
  match r with
  | Rejected e => simulate_catch e st
  | Fulfilled data => try_catch (renderResults data) simulate_catch st
  end.

(** ** The event loop

    One event at a time: a click, an edit of the inputs, or the settling
    of a promise some suspended handler awaits. *)

Inductive button := parseBtn | useJsonBtn | clearJsonBtn | simulateBtn.

Inductive event :=
| Click (b : button)
| EditJson (text : jsstring)
| EditInputs (f : option file) (n_paths seed : jsstring)
| FetchSettled (id : nat) (r : settled response)
| JsonSettled (id : nat) (r : settled value).

Definition stage_eqb (a b : stage) : bool :=
  match a, b with
  | AwaitFetch, AwaitFetch | AwaitJson, AwaitJson => true
  | _, _ => false
  end.

(** The handler suspended under [id] at stage [sg], taken out of the
    tasks in flight. *)
Fixpoint take_task (id : nat) (sg : stage) (ts : list task)
  : option (handler * list task) :=
  match ts with
  | [] => None
  | t :: ts' =>
      if Nat.eqb (task_id t) id && stage_eqb (task_stage t) sg
      then Some (task_handler t, ts')
      else
        match take_task id sg ts' with
        | Some (h, rest) => Some (h, t :: rest)
        | None => None
        end
  end.

(** One turn of the event loop; [None] when nothing awaits the promise. *)
Definition step (st : state) (ev : event) : option state :=
  match ev with
  | Click parseBtn => Some (parseBtn_click st)
  | Click useJsonBtn => Some (useJsonBtn_click st)
  | Click clearJsonBtn => Some (clearJsonBtn_click st)
  | Click simulateBtn => Some (simulateBtn_click st)
  | EditJson text => Some (set_dom (set_jsonInput text (dom st)) st)
  | EditInputs f n s => Some (set_dom (set_inputs f n s (dom st)) st)
  | FetchSettled id r =>
      match take_task id AwaitFetch (tasks st) with
      | Some (ParseHandler, rest) => Some (parse_fetch_settled id r (set_tasks rest st))
      | Some (SimulateHandler, rest) => Some (simulate_fetch_settled id r (set_tasks rest st))
      | None => None
      end
  | JsonSettled id r =>
      match take_task id AwaitJson (tasks st) with
      | Some (ParseHandler, rest) => Some (parse_json_settled r (set_tasks rest st))
      | Some (SimulateHandler, rest) => Some (simulate_json_settled r (set_tasks rest st))
      | None => None
      end
  end.

Fixpoint run (st : state) (evs : list event) : option state :=
  match evs with
  | [] => Some st
  | ev :: evs' =>
      match step st ev with
      | Some st' => run st' evs'
      | None => None
      end
  end.

(** * The vocabulary of the properties *)

(** ** What is observed *)

(** What the page shows of a simulation: the summary, the probability
    indicators and the two charts. *)
Definition rendered (st : state) : element * jsstring * option plot * option plot :=
  (simSummary (dom st), probGoals (dom st), fanChart (dom st), histChart (dom st)).

Definition blank : element := {| textContent := []; className := [] |}.

(** A page with nothing chosen, typed or rendered. *)
Definition empty_page : page :=
  {| docxFile := None; jsonInput := []; nPaths := []; seed := [];
     parseStatus := blank; simSummary := blank; probGoals := [];
     fanChart := None; histChart := None |}.

Definition no_file_message : jsstring := str "Please choose a .docx file".
Definition no_portfolio_message : jsstring :=
  str "Load a portfolio first (parse or paste JSON).".

Definition json_loaded : jsstring := str "Portfolio JSON loaded.".
Definition json_rejected : jsstring := str "Invalid JSON.".

Definition parse_failed_status : element :=
  {| textContent := str "Failed to parse document"; className := str "status error" |}.

Definition parse_succeeded_status : element :=
  {| textContent := str "Parsed successfully " ++ [check_mark];
     className := str "status" |}.


(** The request the simulate handler sends for a given payload. *)
Definition simulate_request (payload_text : jsstring) : request :=
  {| req_url := str "http://localhost:8000/simulate";
     req_method := str "POST";
     req_headers := [(str "Content-Type", str "application/json")];
     req_body := TextBody payload_text |}.

(** ** One round trip *)

(** How the round trip of a request ends: the request is rejected, the
    response has this status and its body is not read, the body does not
    parse as JSON, or the body parses to this value. *)
Inductive outcome :=
| NetworkError (e : exn)
| HttpError (code : Z)
| BodyError (code : Z) (e : exn)
| BodyJson (code : Z) (data : value).

(** The events by which the round trip of the handler suspended under
    [id] ends in [o]. *)
Definition outcome_events (id : nat) (o : outcome) : list event :=
  match o with
  | NetworkError e => [FetchSettled id (Rejected e)]
  | HttpError code => [FetchSettled id (Fulfilled {| status := code |})]
  | BodyError code e =>
      [FetchSettled id (Fulfilled {| status := code |});
       JsonSettled id (Rejected e)]
  | BodyJson code data =>
      [FetchSettled id (Fulfilled {| status := code |});
       JsonSettled id (Fulfilled data)]
  end.

(** The statuses on which a response is [ok]. *)
Definition is_success (code : Z) : bool := ok {| status := code |}.

(** Every handler in flight has an id below the next one to be given. *)
Definition ids_fresh (st : state) : Prop :=
  Forall (fun t => (task_id t < next_id st)%nat) (tasks st).

(** An object that has the property as its own. *)
Definition has_own_property (v : value) (k : jsstring) : bool :=
  match v with
  | VObj l => match lookup k l with Some _ => true | None => false end
  | _ => false
  end.

(** A failing parse attempt in the words of C1: the network fails, the
    status is not a success, or the body is not JSON with a [portfolio]
    field. *)
Definition parse_fails_as_claimed (o : outcome) : Prop :=
  match o with
  | NetworkError _ => True
  | HttpError code => is_success code = false
  | BodyError code _ => is_success code = true
  | BodyJson code data =>
      is_success code = true /\ has_own_property data (str "portfolio") = false
  end.

(** A failing parse attempt as the handler has it: the [try] block throws,
    which for a body that is JSON means that reading [portfolio] off it
    throws. *)
Definition parse_fails (o : outcome) : Prop :=
  match o with
  | NetworkError _ => True
  | HttpError code => is_success code = false
  | BodyError code _ => is_success code = true
  | BodyJson code data =>
      is_success code = true /\ exists e, get data (str "portfolio") = Throw e
  end.



(** Rendering this response completes. *)
Definition renders (data : value) : Prop :=
  snd (renderResults data (initial empty_page)) = Ok tt.

(** ** Two simulate requests in flight *)

Definition ok200 : settled response := Fulfilled {| status := 200 |}.

(** Two clicks on simulate, both requests answered with status 200 and
    both handlers waiting for the body. *)
Definition both_in_flight (a b : nat) : list event :=
  [ Click simulateBtn; Click simulateBtn; FetchSettled a ok200; FetchSettled b ok200 ].

(** The body of the response to request [fst r] arrives and is [snd r]. *)
Definition body_arrives (r : nat * value) : event :=
  JsonSettled (fst r) (Fulfilled (snd r)).

(** The two clicks followed by the two bodies in the order [first],
    [second]. *)
Definition two_simulations (a b : nat) (first second : nat * value) : list event :=
  both_in_flight a b ++ [body_arrives first; body_arrives second].

Definition suspended (id : nat) (sg : stage) : task :=
  {| task_id := id; task_handler := SimulateHandler; task_stage := sg |}.

Definition most_recent_wins (st : state) (d1 d2 : value) : Prop :=
  forall first second : nat * value,
    (first, second) = ((next_id st, d1), (S (next_id st), d2))
    \/ (first, second) = ((S (next_id st), d2), (next_id st, d1)) ->
    exists st' : state,
      run st (two_simulations (next_id st) (S (next_id st)) first second) = Some st'
      /\ rendered st' = rendered (fst (renderResults d2 st)).

(** ** The run parameters *)

(** The number an input contributes in the words of C2: the default when
    the text is empty or does not coerce to a number, its numeric value
    otherwise. *)
Definition default_on_unparseable (text : jsstring) (default : Z) : number :=
  match text with
  | [] => of_Z default
  | _ => if is_nan (StringToNumber text) then of_Z default else StringToNumber text
  end.

(** The number an input contributes in the handler: the default when the
    text is empty, the numeric coercion of the text otherwise. *)
Definition default_on_empty (text : jsstring) (default : Z) : number :=
  match text with
  | [] => of_Z default
  | _ => StringToNumber text
  end.

(** ** Simulation responses *)

Record Summary := {
  median_terminal : number;
  p5_terminal : number;
  p95_terminal : number
}.

Record SimulationResponse := {
  prob_by_goal : list (jsstring * number);
  summary : Summary;
  p10 : list number;
  p50 : list number;
  p90 : list number
}.

(** The value [r.json()] fulfils with for such a response. *)
Definition response_value (r : SimulationResponse) : value :=
  VObj [ (str "prob_by_goal",
          VObj (map (fun kp => (fst kp, VNum (snd kp))) (prob_by_goal r)));
         (str "summary",
          VObj [ (str "median_terminal", VNum (median_terminal (summary r)));
                 (str "p5_terminal", VNum (p5_terminal (summary r)));
                 (str "p95_terminal", VNum (p95_terminal (summary r))) ]);
         (str "ptiles_over_time",
          VObj [ (str "p10", VArr (map VNum (p10 r)));
                 (str "p50", VArr (map VNum (p50 r)));
                 (str "p90", VArr (map VNum (p90 r))) ]) ].

(** A field of an object that is there and passes the test. *)
Definition has_field (v : value) (k : jsstring) (test : value -> bool) : bool :=
  match v with
  | VObj l => match lookup k l with Some x => test x | None => false end
  | _ => false
  end.

Definition is_number_value (v : value) : bool :=
  match v with VNum _ => true | _ => false end.

(** An array of numbers. *)
Definition is_series (v : value) : bool :=
  match v with VArr l => forallb is_number_value l | _ => false end.

(** An object whose properties are numbers. *)
Definition is_number_map (v : value) : bool :=
  match v with
  | VObj l => forallb (fun kv => is_number_value (snd kv)) l
  | _ => false
  end.

(** A body of the shape of a [SimulationResponse] of the data model: the
    goal probabilities, the three amounts of the summary and the three
    series of percentiles, all of them numbers. *)
Definition has_response_shape (data : value) : bool :=
  has_field data (str "prob_by_goal") is_number_map
  && has_field data (str "summary")
       (fun s => has_field s (str "median_terminal") is_number_value
                 && has_field s (str "p5_terminal") is_number_value
                 && has_field s (str "p95_terminal") is_number_value)
  && has_field data (str "ptiles_over_time")
       (fun t => has_field t (str "p10") is_series
                 && has_field t (str "p50") is_series
                 && has_field t (str "p90") is_series).


(** The entries [Object.entries] reports for the goal probabilities. *)
Definition goal_entries (r : SimulationResponse) : list (jsstring * value) :=
  map (fun kp => (fst kp, VNum (snd kp))) (prob_by_goal r).

(** The labels of the x-axis for [n] months: month over twelve, to one
    decimal place. *)
Definition years_of (n : nat) : list jsstring :=
  map (fun i => toFixed (num_div (of_Z (Z.of_nat i)) (of_Z 12)) 1) (seq 0 n).

(** The three bars of the terminal-wealth chart. *)
Definition hist_bars (p5 median p95 : value) : list value :=
  [ obj [ ("x", VArr [num 0]); ("y", VArr [p5]); ("type", VStr (str "bar"));
          ("name", VStr (str "P5")); ("marker", obj [("color", VStr (str "#aaa"))]) ];
    obj [ ("x", VArr [num 1]); ("y", VArr [median]); ("type", VStr (str "bar"));
          ("name", VStr (str "Median"));
          ("marker", obj [("color", VStr (str "#2196F3"))]) ];
    obj [ ("x", VArr [num 2]); ("y", VArr [p95]); ("type", VStr (str "bar"));
          ("name", VStr (str "P95")); ("marker", obj [("color", VStr (str "#aaa"))]) ]
  ]%string.

(** The page after a response is rendered on it. *)
Definition rendered_page (r : SimulationResponse) (p : page) : page :=
  let s := summary r in
  let years := years_of (List.length (p50 r)) in
  {| docxFile := docxFile p; jsonInput := jsonInput p; nPaths := nPaths p;
     seed := seed p; parseStatus := parseStatus p;
     simSummary :=
       {| textContent :=
            summary_text (join [10] (map prob_line (goal_entries r)))
              (VNum (median_terminal s)) (VNum (p5_terminal s)) (VNum (p95_terminal s));
          className := className (simSummary p) |};
     probGoals := join [] (map pill (goal_entries r));
     fanChart :=
       Some {| plot_data :=
                 VArr [ traceBand years (VArr (map VNum (p90 r)));
                        traceBand2 years (VArr (map VNum (p10 r)));
                        traceMedian years (VArr (map VNum (p50 r))) ];
               plot_layout := fan_layout; plot_config := plot_options |};
     histChart :=
       Some {| plot_data :=
                 VArr (hist_bars (VNum (p5_terminal s)) (VNum (median_terminal s))
                         (VNum (p95_terminal s)));
               plot_layout := hist_layout; plot_config := plot_options |} |}.

(** ** Number formats in the words of the specification *)

(** The value of a finite number, as a fraction. *)
Definition exact_value (x : number) : Q :=
  match x with
  | S754_finite s m e =>
      let v := if 0 <=? e then inject_Z (Zpos m * 2 ^ e)
               else Zpos m # Z.to_pos (2 ^ (- e)) in
      if s then Qopp v else v
  | _ => 0%Q
  end.

(** The nearest integer, a half going up. *)
Definition round_half_up (q : Q) : Z := Qfloor (q + (1 # 2)).

(** In the words of C6: rounded half-up to one decimal. *)
Definition one_decimal (q : Q) : jsstring :=
  let n := round_half_up (q * inject_Z 10) in
  decimal_digits (n / 10) ++ str "." ++ decimal_digits (n mod 10).

(** In the words of C6: probability times 100, rounded half-up to one
    decimal. *)
Definition claimed_percent (p : number) : jsstring :=
  one_decimal (exact_value p * inject_Z 100).

(** As amended: the product is the product of numbers, that is the number
    nearest to probability times 100 (a tie going to the even one), and
    it is this number that is rounded half-up to one decimal. *)
Definition spec_percent (p : number) : jsstring :=
  one_decimal (exact_value (num_mul p (of_Z 100))).

(** The three digits of a number below 1000. *)
Definition three_digits (n : Z) : jsstring :=
  [48 + n / 100; 48 + n / 10 mod 10; 48 + n mod 10].

(** In the words of C6: the digits with thousands separators. *)
Fixpoint thousands_fuel (fuel : nat) (n : Z) : jsstring :=
  match fuel with
  | O => decimal_digits n
  | S f =>
      if n <? 1000 then decimal_digits n
      else thousands_fuel f (n / 1000) ++ str "," ++ three_digits (n mod 1000)
  end.

Definition thousands (n : Z) : jsstring := thousands_fuel (Z.to_nat (Z.log2 n)) n.

(** In the words of C6: an amount rounded to the nearest integer, with
    thousands separators. *)
Definition spec_dollars (a : number) : jsstring :=
  thousands (round_half_up (exact_value a)).

(** A finite number that is not negative and lies below [bound]. *)
Definition below (x : number) (bound : Z) : Prop :=
  match x with
  | S754_zero _ => True
  | S754_finite false m e => mag_geb m e bound = false
  | _ => False
  end.

(** The product by 100 is a finite number that is not negative and lies
    below [10^21], where [toFixed] changes to the exponent notation. *)
Definition percent_in_range (p : number) : Prop :=
  below (num_mul p (of_Z 100)) (10 ^ 21).

(** A probability of the data model: a finite number between 0 and 1. *)
Definition is_probability (p : number) : Prop :=
  is_finite p = true /\ (0 <= exact_value p)%Q /\ (exact_value p <= 1)%Q.

(** The sign bit of a number. *)
Definition sign_bit (x : number) : bool :=
  match x with
  | S754_zero s | S754_infinity s | S754_finite s _ _ => s
  | S754_nan => false
  end.

(** An amount of the data model, as amended: a binary64 number that is
    not negative and lies below [10^15]. *)
Definition is_amount (a : number) : Prop :=
  sign_bit a = false /\ valid_binary prec emax a = true /\ below a (10 ^ 15).

(** A response of the data model: probabilities, amounts that are not
    negative and lie below [10^15], and a [p50] an array can hold. *)
Definition well_formed (r : SimulationResponse) : Prop :=
  Forall (fun kp => is_probability (snd kp)) (prob_by_goal r)
  /\ is_amount (median_terminal (summary r))
  /\ is_amount (p5_terminal (summary r))
  /\ is_amount (p95_terminal (summary r))
  /\ Z.of_nat (List.length (p50 r)) < 4294967296.

Definition spec_line (kp : jsstring * number) : jsstring :=
  fst kp ++ str ": " ++ spec_percent (snd kp) ++ str "%".

Definition spec_indicator (kp : jsstring * number) : jsstring :=
  str "<div class=" ++ [34] ++ str "pill" ++ [34] ++ str "><b>" ++ fst kp
  ++ str "</b> " ++ spec_percent (snd kp) ++ str "%</div>".

Definition median_line (r : SimulationResponse) : jsstring :=
  str "Median terminal: $" ++ spec_dollars (median_terminal (summary r)).

Definition range_line (r : SimulationResponse) : jsstring :=
  str "5th" ++ [en_dash] ++ str "95th: $" ++ spec_dollars (p5_terminal (summary r))
  ++ str " " ++ [en_dash] ++ str " $" ++ spec_dollars (p95_terminal (summary r)).

(** The line of a goal in the words of C6, which is also the text of its
    indicator. *)
Definition claimed_line (kp : jsstring * number) : jsstring :=
  fst kp ++ str ": " ++ claimed_percent (snd kp) ++ str "%".

(** The summary in the words of C6: the goal lines, a blank line, the
    median line, the range line. *)
Definition claimed_summary (r : SimulationResponse) : jsstring :=
  join [10] (map claimed_line (prob_by_goal r) ++ [[]; median_line r; range_line r]).

(** The summary as the renderer writes it: a heading, the goal lines
    joined into one entry, a blank line, the median line, the range line. *)
Definition written_summary (r : SimulationResponse) : jsstring :=
  join [10] [ str "Goal Probabilities"; join [10] (map spec_line (prob_by_goal r));
              []; median_line r; range_line r ].

(** ** Requests and statuses of the parse action *)

(** The request the parse handler sends for a chosen document. *)
Definition parse_request (f : file) : request :=
  {| req_url := str "http://localhost:8000/parse-docx";
     req_method := str "POST";
     req_headers := [];
     req_body := FormData [(str "file", f)] |}.

Definition no_file_status : element :=
  {| textContent := no_file_message; className := str "status error" |}.

Definition parsing_status : element :=
  {| textContent := str "Parsing" ++ [ellipsis]; className := str "status" |}.

(** The four texts the parse status takes, each with its style class. *)
Definition parse_statuses : list element :=
  [ no_file_status; parsing_status; parse_succeeded_status; parse_failed_status ].

(** The state after the parse handler stored the portfolio [v]. *)
Definition parsed (v : value) (st : state) : state :=
  setStatus id_parseStatus (str "Parsed successfully " ++ [check_mark]) false
    (set_dom (set_jsonInput (DOMString (JSON_stringify_2 v)) (dom st))
       (set_currentPortfolioJSON v st)).

(** Two clicks on parse, both requests answered with status 200 and both
    handlers waiting for the body. *)
Definition both_parses_in_flight (a b : nat) : list event :=
  [ Click parseBtn; Click parseBtn; FetchSettled a ok200; FetchSettled b ok200 ].

(** ** What a failed round trip throws *)

(** The [try] block of the parse handler throws [e] when the round trip
    ends in [o]. *)
Definition parse_throws (o : outcome) (e : exn) : Prop :=
  match o with
  | NetworkError e0 | BodyError _ e0 => e = e0
  | HttpError code => e = Error (str "Parse failed: " ++ decimal_digits code)
  | BodyJson _ data => get data (str "portfolio") = Throw e
  end.


(** The status of a response, when there is one. *)
Definition status_of (o : outcome) : option Z :=
  match o with
  | NetworkError _ => None
  | HttpError code | BodyError code _ | BodyJson code _ => Some code
  end.

(** A status of at most three digits, as HTTP has them. *)
Definition three_digit_status (o : outcome) : Prop :=
  match status_of o with
  | Some code => 0 <= code < 1000
  | None => True
  end.

(** ** Typed run parameters *)

(** White space in the sense of [trim] and of the numeric coercion. *)
Definition white (ws : jsstring) : Prop := Forall (fun c => is_js_space c = true) ws.

(** The text of an input that writes the natural number [n]: its decimal
    digits, with white space around them or not. *)
Definition writes (text : jsstring) (n : Z) : Prop :=
  0 <= n < 10 ^ 15
  /\ exists ws1 ws2 : jsstring,
       white ws1 /\ white ws2 /\ text = ws1 ++ decimal_digits n ++ ws2.

(** The body of a simulate request, from the text of the portfolio and
    the texts of the two run parameters. *)
Definition simulate_body (portfolio n_paths seed : jsstring) : jsstring :=
  str "{" ++ [34] ++ str "portfolio" ++ [34] ++ str ":" ++ portfolio
  ++ str "," ++ [34] ++ str "n_paths" ++ [34] ++ str ":" ++ n_paths
  ++ str "," ++ [34] ++ str "seed" ++ [34] ++ str ":" ++ seed ++ str "}".

(** ** JSON values

    The values a JSON text denotes and [JSON.stringify] writes back as
    they are. *)

(** A code unit of UTF-16. *)
Definition code_unit (c : Z) : Prop := 0 <= c < 65536.

(** A finite number whose text, as [Number::toString] prints it, reads
    back as the number.  ECMA-262 defines the text of a finite number by
    this property, negative zero apart; for a given number it is decided
    by evaluation. *)
Definition prints_back (n : number) : Prop :=
  is_finite n = true /\ json_number (Number_toString n) = Some n.

(** Entries in the order an object keeps its own properties: building the
    object entry by entry gives the entries back. *)
Definition in_property_order (l : list (jsstring * value)) : Prop :=
  fold_left (fun acc kv => define acc (fst kv) (snd kv)) l [] = l.

Fixpoint json_value (v : value) : Prop :=
  match v with
  | VUndefined => False
  | VNull | VBool _ => True
  | VNum n => prints_back n
  | VStr s => Forall code_unit s
  | VArr l => fold_right (fun e rest => json_value e /\ rest) True l
  | VObj l =>
      fold_right (fun kv rest => (Forall code_unit (fst kv) /\ json_value (snd kv)) /\ rest)
        True l
      /\ in_property_order l
  end.

(** ** The tokens of a value *)

(** Token lists with a comma between one and the next. *)
Fixpoint between_commas (items : list (list token)) : list token :=
  match items with
  | [] => []
  | [x] => x
  | x :: rest => x ++ TComma :: between_commas rest
  end.

(** The tokens of the JSON text of a value. *)
Fixpoint tokens (v : value) : list token :=
  match v with
  | VUndefined => []
  | VNull => [TNull]
  | VBool b => [if b then TTrue else TFalse]
  | VNum n => [TNum n]
  | VStr s => [TStr s]
  | VArr l => TLBracket :: between_commas (map tokens l) ++ [TRBracket]
  | VObj l =>
      TLBrace
        :: between_commas (map (fun kv => TStr (fst kv) :: TColon :: tokens (snd kv)) l)
        ++ [TRBrace]
  end.

Definition member_tokens (kv : jsstring * value) : list token :=
  TStr (fst kv) :: TColon :: tokens (snd kv).

(** Fuel that is enough for [parse_value] on the tokens of a value. *)
Fixpoint fuel_of (v : value) : nat :=
  match v with
  | VUndefined => 0
  | VArr l => S (fold_right (fun e a => S (fuel_of e + a)) 0%nat l)
  | VObj l => S (fold_right (fun kv a => S (fuel_of (snd kv) + a)) 0%nat l)
  | _ => 1
  end.

Definition elements_fuel (l : list value) : nat :=
  fold_right (fun e a => S (fuel_of e + a)) 0%nat l.

Definition members_fuel (l : list (jsstring * value)) : nat :=
  fold_right (fun kv a => S (fuel_of (snd kv) + a)) 0%nat l.

(** The tokens of [e], followed by anything, parse to [e] with fuel
    enough. *)
Definition parses (e : value) : Prop :=
  forall (fuel : nat) (r : list token),
    (fuel_of e <= fuel)%nat -> parse_value fuel (tokens e ++ r) = Some (e, r).

(** How [serialize] wraps the items of an array or of an object. *)
Definition wrap (gap indent opening closing : jsstring) (items : list jsstring) : jsstring :=
  match items, gap with
  | [], _ => opening ++ closing
  | _, [] => opening ++ join (str ",") items ++ closing
  | _, _ =>
      opening ++ [10] ++ (indent ++ gap) ++ join ([44; 10] ++ (indent ++ gap)) items
      ++ [10] ++ indent ++ closing
  end.

(** Insignificant white space of JSON. *)
Definition json_white (ws : jsstring) : Prop := Forall (fun c => is_json_space c = true) ws.

(** A text of word characters. *)
Definition word (w : jsstring) : Prop := Forall (fun c => is_word_char c = true) w.

(** A rest of the text before which a word ends. *)
Definition delimited (rest : jsstring) : Prop :=
  match rest with
  | [] => True
  | c :: _ => is_word_char c = false
  end.

(** The six structural characters and their tokens. *)
Definition punctuation (c : Z) (t : token) : Prop :=
  In (c, t) [ (123, TLBrace); (125, TRBrace); (91, TLBracket); (93, TRBracket);
              (58, TColon); (44, TComma) ].

(** The text [item] is read as the tokens [tk], whatever follows it. *)
Definition reads_as (item : jsstring) (tk : list token) : Prop :=
  forall rest : jsstring,
    delimited rest ->
    lex_from Between (item ++ rest) = option_map (app tk) (lex_from Between rest).

(** ** Examples *)

Definition sample_file : file := {| file_name := str "plan.docx"; file_bytes := [80; 75] |}.

(** A page on which a portfolio was loaded from the JSON text [{}] and a
    document is chosen. *)
Definition loaded_state : state :=
  {| currentPortfolioJSON := VObj [];
     dom := {| docxFile := Some sample_file; jsonInput := str "{}"; nPaths := [];
               seed := []; parseStatus := blank; simSummary := blank;
               probGoals := []; fanChart := None; histChart := None |};
     alerts := [str "Portfolio JSON loaded."]; console := []; requests := [];
     tasks := []; next_id := 0 |}.

(** A state with a portfolio loaded and the given texts in the two
    numeric inputs. *)
Definition with_inputs (n s : jsstring) : state :=
  set_dom (set_inputs None n s (dom loaded_state)) loaded_state.

(** The state [loaded_state] with the given text in the JSON editor. *)
Definition with_text (text : jsstring) : state :=
  set_dom (set_jsonInput text (dom loaded_state)) loaded_state.

(** The text [ {"a": [1, 2]} ] with a line feed after it. *)
Definition sample_text : jsstring :=
  str " {" ++ [34] ++ str "a" ++ [34] ++ str ": [1, 2]} " ++ [10].

Definition decimal (m e10 : Z) : number := of_decimal false m e10.

(** Twenty-five months of a series that starts at [start] and grows by
    [by_month] a month. *)
Definition series (start by_month : Z) : list number :=
  map (fun i => of_Z (start + by_month * Z.of_nat i)) (seq 0 25).

(** The response of the examples of the specification: one goal reached
    with probability 0.823, a median terminal wealth of 1234567.4. *)
Definition sample_response : SimulationResponse :=
  {| prob_by_goal := [(str "retirement", decimal 823 (-3))];
     summary := {| median_terminal := decimal 12345674 (-1);
                   p5_terminal := of_Z 500000;
                   p95_terminal := of_Z 3000000 |};
     p10 := series 90000 1000;
     p50 := series 100000 5000;
     p90 := series 110000 9000 |}.

(** Another response, for a later request. *)
Definition other_response : SimulationResponse :=
  {| prob_by_goal := [(str "retirement", decimal 5 (-1)); (str "house", decimal 25 (-2))];
     summary := {| median_terminal := of_Z 800000;
                   p5_terminal := of_Z 300000;
                   p95_terminal := of_Z 2000000 |};
     p10 := series 80000 500;
     p50 := series 90000 3000;
     p90 := series 100000 6000 |}.

(** The page of [loaded_state] after the sample response was rendered on
    it: both charts are drawn. *)
Definition showing_sample : state :=
  set_dom (rendered_page sample_response (dom loaded_state)) loaded_state.

(** The labels of the example: a [p50] of twenty-five months. *)
Definition years_of_25 : list jsstring :=
  map str [ "0.0"; "0.1"; "0.2"; "0.3"; "0.3"; "0.4"; "0.5"; "0.6"; "0.7"; "0.8";
            "0.8"; "0.9"; "1.0"; "1.1"; "1.2"; "1.3"; "1.3"; "1.4"; "1.5"; "1.6";
            "1.7"; "1.8"; "1.8"; "1.9"; "2.0" ]%string.

(** The summary of the example of the specification. *)
Definition sample_summary : jsstring :=
  join [10] [ str "Goal Probabilities"; str "retirement: 82.3%"; [];
              str "Median terminal: $1,234,567";
              str "5th" ++ [en_dash] ++ str "95th: $500,000 " ++ [en_dash]
              ++ str " $3,000,000" ].

Definition sample_indicator : jsstring :=
  str "<div class=" ++ [34] ++ str "pill" ++ [34]
  ++ str "><b>retirement</b> 82.3%</div>".


(** A portfolio: nested objects and an array, a string with a quote, a
    line feed and a letter outside ASCII, a number with a fraction. *)
Definition sample_portfolio : value :=
  obj [ ("name", VStr (str "Plan " ++ [34] ++ str "A" ++ [34; 10; 233])%list);
        ("balance", VNum (decimal 12345674 (-1)));
        ("goals", VArr [ obj [ ("goal", VStr (str "retirement"));
                               ("target", num 2000000) ] ]);
        ("joint", VBool false);
        ("note", VNull) ]%string.

(** The body of a parse response that carries it. *)
Definition parse_response_body : value := obj [("portfolio", sample_portfolio)]%string.

(** The portfolio of the example is loaded and 5000 paths are asked for. *)
Definition sample_loaded : state :=
  set_currentPortfolioJSON sample_portfolio (with_inputs (str "5000") []).


(** * Properties *)

(** ** Integers as numbers *)

Lemma digits2_iter :
  forall (d p : positive), digits2_pos (Pos.iter xO p d) = (digits2_pos p + d)%positive.
Proof.
  intros d p. induction d as [|d IH] using Pos.peano_ind.
  - cbn. lia.
  - rewrite Pos.iter_succ. cbn [digits2_pos]. rewrite IH. lia.
Qed.

Lemma Zpos_iter :
  forall (d p : positive), Zpos (Pos.iter xO p d) = Zpos p * 2 ^ Zpos d.
Proof.
  intros d p. induction d as [|d IH] using Pos.peano_ind.
  - cbn. lia.
  - rewrite Pos.iter_succ, Pos2Z.inj_succ, Z.pow_succ_r by lia.
    rewrite Pos2Z.inj_xO, IH. lia.
Qed.

Lemma digits2_bounds :
  forall p : positive,
    2 ^ (Zpos (digits2_pos p) - 1) <= Zpos p < 2 ^ Zpos (digits2_pos p).
Proof.
  induction p as [p IH|p IH|]; cbn [digits2_pos].
  - rewrite Pos2Z.inj_succ, Z.pow_succ_r by lia.
    replace (Z.succ (Zpos (digits2_pos p)) - 1) with (Z.succ (Zpos (digits2_pos p) - 1)) by lia.
    rewrite Z.pow_succ_r by lia. lia.
  - rewrite Pos2Z.inj_succ, Z.pow_succ_r by lia.
    replace (Z.succ (Zpos (digits2_pos p)) - 1) with (Z.succ (Zpos (digits2_pos p) - 1)) by lia.
    rewrite Z.pow_succ_r by lia. lia.
  - cbn. lia.
Qed.

Lemma digits2_le :
  forall (p : positive) (k : Z), 0 <= k -> Zpos p < 2 ^ k -> Zpos (digits2_pos p) <= k.
Proof.
  intros p k K H. destruct (digits2_bounds p) as [L _].
  destruct (Z_le_gt_dec (Zpos (digits2_pos p)) k) as [|G]; [assumption|exfalso].
  assert (2 ^ k <= 2 ^ (Zpos (digits2_pos p) - 1)) by (apply Z.pow_le_mono_r; lia).
  lia.
Qed.

(** A mantissa of 53 bits with an exponent in range is left as it is by
    the rounding. *)
Lemma binary_round_aux_canonical :
  forall (s : bool) (m : positive) (e : Z),
    Zpos (digits2_pos m) = 53 -> -1074 <= e <= 971 ->
    binary_round_aux prec emax s (Zpos m) e loc_Exact = S754_finite s m e.
Proof.
  intros s m e D B.
  unfold binary_round_aux, shr_fexp, shr_record_of_loc.
  cbn [Zdigits2]. rewrite D.
  assert (F : fexp prec emax (53 + e) - e = 0).
  { unfold fexp, emin, prec, emax. lia. }
  rewrite F. cbn [shr shr_m loc_of_shr_record round_nearest_even Zdigits2].
  rewrite D, F. cbn [shr shr_m].
  assert (L : (e <=? emax - prec) = true) by (apply Z.leb_le; unfold emax, prec; lia).
  rewrite L. reflexivity.
Qed.

(** An integer of at most 53 bits is a number, exactly. *)
Lemma of_Z_pos :
  forall p : positive,
    Zpos (digits2_pos p) <= 53 ->
    exists (mz : positive) (d : Z),
      of_Z (Zpos p) = S754_finite false mz (- d)
      /\ 0 <= d <= 52 /\ Zpos mz = Zpos p * 2 ^ d.
Proof.
  intros p D.
  unfold of_Z, binary_normalize, binary_round.
  assert (F : fexp prec emax (Zpos (digits2_pos p) + 0) = Zpos (digits2_pos p) - 53).
  { unfold fexp, emin, prec, emax. lia. }
  rewrite F. unfold shl_align.
  destruct (Zpos (digits2_pos p) - 53 - 0) as [|k|k] eqn:K.
  - exists p, 0. rewrite binary_round_aux_canonical by lia.
    repeat split; lia.
  - lia.
  - exists (Pos.iter xO p k), (Zpos k).
    replace (Zpos (digits2_pos p) - 53) with (- Zpos k) by lia.
    rewrite binary_round_aux_canonical.
    + repeat split; try lia. apply Zpos_iter.
    + rewrite digits2_iter. lia.
    + lia.
Qed.

Lemma integer_value_of_Z :
  forall z : Z, 0 <= z < 2 ^ 53 -> integer_value (of_Z z) = Some z.
Proof.
  intros [|p|p] B; [reflexivity| |lia].
  destruct (of_Z_pos p (digits2_le p 53 ltac:(lia) (proj2 B))) as (mz & d & E & Bd & V).
  rewrite E. cbn [integer_value].
  destruct (Z.eq_dec d 0) as [->|N].
  - change (0 <=? - 0) with true. cbv beta iota.
    change (- 0) with 0. rewrite V, Z.pow_0_r, !Z.mul_1_r. reflexivity.
  - assert (L : (0 <=? - d) = false) by (apply Z.leb_gt; lia).
    rewrite L, Z.opp_involutive, V.
    rewrite Z.mod_mul by (apply Z.pow_nonzero; lia).
    rewrite Z.eqb_refl, Z.div_mul by (apply Z.pow_nonzero; lia). reflexivity.
Qed.

(** [[...Array(p.length).keys()]] for an array of [n] elements. *)
Lemma Array_keys_length :
  forall n : nat,
    Z.of_nat n < 4294967296 ->
    Array_keys (VNum (of_Z (Z.of_nat n))) = Ok (map Z.of_nat (seq 0 n)).
Proof.
  intros n B. unfold Array_keys.
  rewrite integer_value_of_Z by lia.
  assert (L : ((0 <=? Z.of_nat n) && (Z.of_nat n <? 4294967296)) = true).
  { apply andb_true_iff; split; [apply Z.leb_le|apply Z.ltb_lt]; lia. }
  rewrite L, Nat2Z.id. reflexivity.
Qed.

(** ** A bound on rounded products *)

Lemma shr_1_m :
  forall mrs : shr_record, 0 <= shr_m mrs -> shr_m (shr_1 mrs) = shr_m mrs / 2.
Proof.
  intros [m r s] H. cbn [shr_m] in *.
  destruct m as [|[p|p|]|p]; cbn [shr_1 shr_m].
  - reflexivity.
  - rewrite Pos2Z.inj_xI. apply Z.div_unique with (r := 1); lia.
  - rewrite Pos2Z.inj_xO. apply Z.div_unique with (r := 0); lia.
  - reflexivity.
  - lia.
Qed.

Lemma shr_m_iter :
  forall (p : positive) (mrs : shr_record),
    0 <= shr_m mrs ->
    shr_m (iter_pos shr_1 p mrs) = shr_m mrs / 2 ^ Zpos p.
Proof.
  induction p as [p IH|p IH|]; intros mrs H; cbn [iter_pos].
  - assert (H1 : 0 <= shr_m (shr_1 mrs)) by (rewrite shr_1_m by lia; apply Z.div_pos; lia).
    assert (H2 : 0 <= shr_m (iter_pos shr_1 p (shr_1 mrs)))
      by (rewrite IH by lia; apply Z.div_pos; [lia|apply Z.pow_pos_nonneg; lia]).
    rewrite IH, IH, shr_1_m by lia.
    rewrite !Z.div_div by (try apply Z.pow_pos_nonneg; lia).
    replace (2 ^ Zpos p~1) with (2 * (2 ^ Zpos p * 2 ^ Zpos p)); [reflexivity|].
    rewrite <- Z.pow_add_r by lia. rewrite <- Z.pow_succ_r by lia. f_equal. lia.
  - assert (H2 : 0 <= shr_m (iter_pos shr_1 p mrs))
      by (rewrite IH by lia; apply Z.div_pos; [lia|apply Z.pow_pos_nonneg; lia]).
    rewrite IH, IH by lia.
    rewrite !Z.div_div by (try apply Z.pow_pos_nonneg; lia).
    replace (2 ^ Zpos p~0) with (2 ^ Zpos p * 2 ^ Zpos p); [reflexivity|].
    rewrite <- Z.pow_add_r by lia. f_equal. lia.
  - apply shr_1_m. exact H.
Qed.

(** Shifting a mantissa below [2^(k - e)] to a larger exponent keeps it
    below the corresponding power. *)
Lemma shr_bound :
  forall (mrs : shr_record) (e n k : Z),
    0 <= shr_m mrs < 2 ^ (k - e) -> e + n <= k -> e <= k ->
    let '(mrs', e') := shr mrs e n in
    0 <= shr_m mrs' < 2 ^ (k - e') /\ e' = Z.max e (e + n).
Proof.
  intros mrs e n k H Hn He. unfold shr.
  destruct n as [|p|p].
  - split; [exact H|lia].
  - rewrite shr_m_iter by lia.
    assert (P : 0 < 2 ^ Zpos p) by (apply Z.pow_pos_nonneg; lia).
    split; [|lia]. split; [apply Z.div_pos; lia|].
    apply Z.div_lt_upper_bound; [lia|].
    rewrite <- Z.pow_add_r by lia.
    replace (Zpos p + (k - (e + Zpos p))) with (k - e) by lia. lia.
  - split; [exact H|lia].
Qed.

Lemma Zdigits2_le :
  forall (m k : Z), 0 <= k -> 0 <= m < 2 ^ k -> Zdigits2 m <= k.
Proof.
  intros [|p|p] k K H; cbn [Zdigits2]; try lia.
  apply digits2_le; lia.
Qed.

Lemma round_nearest_even_bound :
  forall (m : Z) (l : location), m <= round_nearest_even m l <= m + 1.
Proof.
  intros m [|[| |]]; cbn [round_nearest_even]; try lia.
  destruct (Z.even m); lia.
Qed.

(** The rounding of a magnitude below [2^k], for a small [k], is a finite
    number below [2^(k+1)]. *)
Lemma binary_round_aux_below :
  forall (mx : positive) (ex : Z),
    ex <= 0 -> Zpos mx < 2 ^ (7 - ex) ->
    below (binary_round_aux prec emax false (Zpos mx) ex loc_Exact) (10 ^ 21).
Proof.
  intros mx ex E H.
  unfold binary_round_aux, shr_fexp.
  assert (D1 : Zdigits2 (Zpos mx) <= 7 - ex) by (apply Zdigits2_le; lia).
  set (n1 := fexp prec emax (Zdigits2 (Zpos mx) + ex) - ex).
  assert (N1 : ex + n1 <= 0) by (unfold n1, fexp, emin, prec, emax; lia).
  pose proof (shr_bound (shr_record_of_loc (Zpos mx) loc_Exact) ex n1 7) as B1.
  destruct (shr (shr_record_of_loc (Zpos mx) loc_Exact) ex n1) as [mrs1 e1].
  destruct B1 as [B1 E1]; [cbn [shr_m shr_record_of_loc]; lia|lia|lia|].
  pose proof (round_nearest_even_bound (shr_m mrs1) (loc_of_shr_record mrs1)) as R.
  set (m2 := round_nearest_even (shr_m mrs1) (loc_of_shr_record mrs1)) in *.
  assert (M2 : 0 <= m2 < 2 ^ (8 - e1)).
  { split; [lia|]. replace (8 - e1) with (Z.succ (7 - e1)) by lia.
    rewrite Z.pow_succ_r by lia. lia. }
  assert (D2 : Zdigits2 m2 <= 8 - e1) by (apply Zdigits2_le; lia).
  set (n2 := fexp prec emax (Zdigits2 m2 + e1) - e1).
  assert (N2 : e1 + n2 <= 0) by (unfold n2, fexp, emin, prec, emax; lia).
  pose proof (shr_bound (shr_record_of_loc m2 loc_Exact) e1 n2 8) as B2.
  destruct (shr (shr_record_of_loc m2 loc_Exact) e1 n2) as [mrs2 e2].
  destruct B2 as [B2 E2]; [cbn [shr_m shr_record_of_loc]; lia|lia|lia|].
  destruct (shr_m mrs2) as [|m3|m3] eqn:M3; [exact I| |lia].
  assert (L : (e2 <=? emax - prec) = true) by (apply Z.leb_le; unfold emax, prec; lia).
  rewrite L. cbn [below]. unfold mag_geb.
  destruct (Z.eq_dec e2 0) as [Z0|NZ].
  - rewrite Z0 in *. cbn [Z.leb Z.compare]. apply Z.leb_gt.
    rewrite Z.pow_0_r. change (8 - 0) with 8 in B2. 
    assert (2 ^ 8 < 10 ^ 21) by (vm_compute; reflexivity). lia.
  - assert (L0 : (0 <=? e2) = false) by (apply Z.leb_gt; lia).
    rewrite L0. apply Z.leb_gt.
    assert (P : 0 < 2 ^ (- e2)) by (apply Z.pow_pos_nonneg; lia).
    replace (8 - e2) with (8 + - e2) in B2 by lia.
    rewrite Z.pow_add_r in B2 by lia.
    assert (2 ^ 8 < 10 ^ 21) by (vm_compute; reflexivity). nia.
Qed.

Lemma probability_in_range :
  forall p : number, is_probability p -> percent_in_range p.
Proof.
  intros p (F & L & U). unfold percent_in_range, num_mul.
  change (of_Z 100) with (S754_finite false 7036874417766400 (-46)).
  destruct p as [s|s| |s m e]; try discriminate.
  - exact I.
  - cbn [SFmul]. destruct s.
    + exfalso. unfold exact_value, Qle in L.
      destruct (0 <=? e) eqn:E; cbn [Qopp Qnum Qden inject_Z] in L.
      * apply Z.leb_le in E.
        assert (P : 0 < 2 ^ e) by (apply Z.pow_pos_nonneg; lia). nia.
      * lia.
    + cbn [xorb].
      assert (B : e <= 0 /\ Zpos m <= 2 ^ (- e)).
      { unfold exact_value, Qle in U. destruct (0 <=? e) eqn:E.
        - apply Z.leb_le in E. cbn [Qnum Qden inject_Z] in U.
          assert (P : 0 < 2 ^ e) by (apply Z.pow_pos_nonneg; lia).
          assert (e = 0).
          { destruct (Z.eq_dec e 0); [assumption|exfalso].
            assert (2 ^ 1 <= 2 ^ e) by (apply Z.pow_le_mono_r; lia).
            change (2 ^ 1) with 2 in *. nia. }
          subst e. change (2 ^ (- 0)) with 1. change (2 ^ 0) with 1 in U. lia.
        - apply Z.leb_gt in E. cbn [Qnum Qden] in U.
          assert (P : 0 < 2 ^ (- e)) by (apply Z.pow_pos_nonneg; lia).
          rewrite Z2Pos.id in U by lia. lia. }
      destruct B as [E M].
      apply binary_round_aux_below; [lia|].
      rewrite Pos2Z.inj_mul.
      replace (7 - (e + -46)) with (- e + 53) by lia.
      rewrite Z.pow_add_r by lia.
      assert (P : 0 < 2 ^ (- e)) by (apply Z.pow_pos_nonneg; lia).
      assert (7036874417766400 < 2 ^ 53) by (vm_compute; reflexivity).
      nia.
Qed.

(** ** Decimal digits and the number formats *)

Lemma digits_fuel_acc :
  forall (fuel : nat) (n : Z) (acc : jsstring),
    digits_fuel fuel n acc = digits_fuel fuel n [] ++ acc.
Proof.
  induction fuel as [|f IH]; intros n acc; cbn [digits_fuel]; [reflexivity|].
  destruct (n <? 10); [reflexivity|].
  rewrite (IH (n / 10) ((48 + n mod 10) :: acc)), (IH (n / 10) [48 + n mod 10]).
  rewrite <- app_assoc. reflexivity.
Qed.

Lemma log2_div10 :
  forall n : Z, 10 <= n -> Z.log2 (n / 10) < Z.log2 n.
Proof.
  intros n H.
  assert (n / 10 <= n / 2) by (apply Z.div_le_compat_l; lia).
  assert (Z.log2 (n / 10) <= Z.log2 (n / 2)) by (apply Z.log2_le_mono; assumption).
  rewrite <- Z.div2_div, Z.div2_spec, Z.log2_shiftr in H1 by lia.
  assert (0 < Z.log2 n) by (apply Z.log2_pos; lia).
  lia.
Qed.

Lemma digits_fuel_enough :
  forall (f1 f2 : nat) (n : Z),
    0 <= n -> Z.log2 n < Z.of_nat f1 -> Z.log2 n < Z.of_nat f2 ->
    digits_fuel f1 n [] = digits_fuel f2 n [].
Proof.
  induction f1 as [|f1 IH]; intros f2 n N H1 H2.
  - pose proof (Z.log2_nonneg n). lia.
  - destruct f2 as [|f2]; [pose proof (Z.log2_nonneg n); lia|].
    cbn [digits_fuel]. destruct (n <? 10) eqn:E; [reflexivity|].
    apply Z.ltb_ge in E. pose proof (log2_div10 n E).
    rewrite (digits_fuel_acc f1), (digits_fuel_acc f2).
    f_equal. apply IH; try lia. apply Z.div_pos; lia.
Qed.

Lemma decimal_digits_small :
  forall n : Z, 0 <= n < 10 -> decimal_digits n = [48 + n].
Proof.
  intros n H. unfold decimal_digits. cbn [digits_fuel].
  assert (E : (n <? 10) = true) by (apply Z.ltb_lt; lia).
  rewrite E, Z.mod_small by lia. reflexivity.
Qed.

Lemma decimal_digits_step :
  forall n : Z, 10 <= n -> decimal_digits n = decimal_digits (n / 10) ++ [48 + n mod 10].
Proof.
  intros n H. unfold decimal_digits at 1. cbn [digits_fuel].
  assert (E : (n <? 10) = false) by (apply Z.ltb_ge; lia).
  rewrite E, digits_fuel_acc. f_equal.
  pose proof (log2_div10 n H). pose proof (Z.log2_nonneg (n / 10)).
  apply digits_fuel_enough; try lia. apply Z.div_pos; lia.
Qed.

Lemma decimal_digits_nonempty :
  forall n : Z, 0 <= n -> decimal_digits n <> [].
Proof.
  intros n H. destruct (Z_lt_ge_dec n 10).
  - rewrite decimal_digits_small by lia. discriminate.
  - rewrite decimal_digits_step by lia. intros E. apply app_eq_nil in E. destruct E; discriminate.
Qed.

Lemma fixed_digits_one :
  forall n : Z,
    0 <= n ->
    fixed_digits n 1 = decimal_digits (n / 10) ++ str "." ++ decimal_digits (n mod 10).
Proof.
  intros n H. unfold fixed_digits.
  rewrite (decimal_digits_small (n mod 10)) by (apply Z.mod_pos_bound; lia).
  destruct (Z_lt_ge_dec n 10) as [L|G].
  - rewrite (decimal_digits_small n) by lia.
    rewrite Z.div_small, Z.mod_small by lia. reflexivity.
  - rewrite decimal_digits_step by lia.
    pose proof (decimal_digits_nonempty (n / 10) ltac:(apply Z.div_pos; lia)) as NE.
    set (ds := decimal_digits (n / 10)) in *. clearbody ds.
    assert (Z0 : Nat.sub 2 (List.length (ds ++ [48 + n mod 10])) = 0%nat).
    { rewrite length_app. destruct ds; [contradiction|cbn [List.length]; lia]. }
    rewrite Z0. cbn [zeros repeat app List.length].
    rewrite length_app. cbn [List.length].
    replace (List.length ds + 1 - 1)%nat with (List.length ds + 0)%nat by lia.
    rewrite firstn_app_2, skipn_app, skipn_all2 by lia.
    replace (List.length ds + 0 - List.length ds)%nat with 0%nat by lia.
    cbn. rewrite app_nil_r. reflexivity.
Qed.

Lemma round_half_up_scaled_spec :
  forall (m : positive) (e : Z) (k : Z),
    round_half_up_scaled m e k
    = round_half_up (exact_value (S754_finite false m e) * inject_Z k).
Proof.
  intros m e k. unfold round_half_up_scaled, round_half_up, exact_value.
  destruct (0 <=? e) eqn:E.
  - unfold Qfloor, Qplus, Qmult, inject_Z. cbn [Qnum Qden].
    change (Zpos (1 * 1 * 2)) with 2. change (Zpos (1 * 1)) with 1.
    replace (Zpos m * 2 ^ e * k * 2 + 1 * 1) with (1 + (Zpos m * 2 ^ e * k) * 2) by lia.
    rewrite Z.div_add by lia. reflexivity.
  - apply Z.leb_gt in E.
    assert (P : 0 < 2 ^ (- e)) by (apply Z.pow_pos_nonneg; lia).
    unfold Qfloor, Qplus, Qmult, inject_Z. cbn [Qnum Qden].
    rewrite !Pos2Z.inj_mul, Z2Pos.id by lia.
    replace (2 ^ (1 - e)) with (2 ^ (- e) * 1 * 2)
      by (replace (1 - e) with (Z.succ (- e)) by lia; rewrite Z.pow_succ_r by lia; lia).
    f_equal. lia.
Qed.

Lemma round_half_up_scaled_nonneg :
  forall (m : positive) (e : Z) (k : Z), 0 <= k -> 0 <= round_half_up_scaled m e k.
Proof.
  intros m e k K. unfold round_half_up_scaled.
  destruct (0 <=? e) eqn:E.
  - apply Z.leb_le in E. assert (0 <= 2 ^ e) by (apply Z.pow_nonneg; lia). nia.
  - apply Z.leb_gt in E.
    assert (0 < 2 ^ (- e)) by (apply Z.pow_pos_nonneg; lia).
    assert (0 < 2 ^ (1 - e)) by (apply Z.pow_pos_nonneg; lia).
    apply Z.div_pos; nia.
Qed.

Lemma toFixed_one_decimal :
  forall x : number, below x (10 ^ 21) -> toFixed x 1 = one_decimal (exact_value x).
Proof.
  intros [s| | |[|] m e] H; try contradiction.
  - reflexivity.
  - cbn [below] in H. unfold toFixed. rewrite H. cbn [sign_str app].
    rewrite fixed_digits_one by (apply round_half_up_scaled_nonneg; cbn; lia).
    unfold one_decimal. rewrite <- round_half_up_scaled_spec. reflexivity.
Qed.

Lemma group3_short :
  forall n : Z, 0 <= n < 1000 -> group3 (decimal_digits n) = decimal_digits n.
Proof.
  intros n H.
  destruct (Z_lt_ge_dec n 10) as [A|A].
  - rewrite decimal_digits_small by lia. reflexivity.
  - rewrite decimal_digits_step by lia.
    destruct (Z_lt_ge_dec (n / 10) 10) as [B|B].
    + rewrite decimal_digits_small by (split; [apply Z.div_pos; lia|lia]). reflexivity.
    + rewrite (decimal_digits_step (n / 10)) by lia.
      rewrite (decimal_digits_small (n / 10 / 10)).
      * reflexivity.
      * split; [apply Z.div_pos; [apply Z.div_pos|]; lia|].
        apply Z.div_lt_upper_bound; [lia|]. apply Z.div_lt_upper_bound; lia.
Qed.

Lemma decimal_digits_thousand :
  forall n : Z,
    1000 <= n ->
    decimal_digits n = decimal_digits (n / 1000) ++ three_digits (n mod 1000).
Proof.
  intros n H.
  assert (A : 100 <= n / 10) by (apply Z.div_le_lower_bound; lia).
  assert (B : 10 <= n / 10 / 10) by (apply Z.div_le_lower_bound; lia).
  rewrite (decimal_digits_step n), (decimal_digits_step (n / 10)),
    (decimal_digits_step (n / 10 / 10)) by lia.
  rewrite <- !app_assoc. cbn [app]. unfold three_digits.
  replace (n / 10 / 10 / 10) with (n / 1000) by (Z.div_mod_to_equations; lia).
  replace (n / 10 / 10 mod 10) with (n mod 1000 / 100) by (Z.div_mod_to_equations; lia).
  replace (n / 10 mod 10) with (n mod 1000 / 10 mod 10) by (Z.div_mod_to_equations; lia).
  replace (n mod 1000 mod 10) with (n mod 10) by (Z.div_mod_to_equations; lia).
  reflexivity.
Qed.

Lemma group3_snoc3 :
  forall (ds : jsstring) (a b c : Z),
    ds <> [] -> group3 (ds ++ [a; b; c]) = group3 ds ++ [44; a; b; c].
Proof.
  intros ds a b c NE. unfold group3.
  rewrite rev_app_distr. cbn [rev app].
  destruct (rev ds) as [|x rest] eqn:E.
  - apply (f_equal (@rev Z)) in E. rewrite rev_involutive in E. contradiction.
  - cbn [group_rev rev]. rewrite <- !app_assoc. reflexivity.
Qed.

Lemma log2_div1000 :
  forall n : Z, 1000 <= n -> Z.log2 (n / 1000) < Z.log2 n.
Proof.
  intros n H.
  assert (n / 1000 <= n / 2) by (apply Z.div_le_compat_l; lia).
  assert (Z.log2 (n / 1000) <= Z.log2 (n / 2)) by (apply Z.log2_le_mono; assumption).
  rewrite <- Z.div2_div, Z.div2_spec, Z.log2_shiftr in H1 by lia.
  assert (0 < Z.log2 n) by (apply Z.log2_pos; lia).
  lia.
Qed.

Lemma group3_thousands_fuel :
  forall (f : nat) (n : Z),
    0 <= n -> Z.log2 n <= Z.of_nat f ->
    group3 (decimal_digits n) = thousands_fuel f n.
Proof.
  induction f as [|f IH]; intros n N L.
  - cbn [thousands_fuel]. apply group3_short.
    assert (Z.log2 n = 0) by (pose proof (Z.log2_nonneg n); lia).
    destruct (Z_lt_ge_dec n 2); [lia|].
    assert (0 < Z.log2 n) by (apply Z.log2_pos; lia). lia.
  - cbn [thousands_fuel]. destruct (n <? 1000) eqn:E.
    + apply Z.ltb_lt in E. apply group3_short. lia.
    + apply Z.ltb_ge in E. pose proof (log2_div1000 n E).
      rewrite decimal_digits_thousand by lia. unfold three_digits at 1.
      rewrite group3_snoc3
        by (apply decimal_digits_nonempty; apply Z.div_pos; lia).
      rewrite IH by (try apply Z.div_pos; lia). reflexivity.
Qed.

Lemma group3_thousands :
  forall n : Z, 0 <= n -> group3 (decimal_digits n) = thousands n.
Proof.
  intros n N. apply group3_thousands_fuel; [assumption|].
  pose proof (Z.log2_nonneg n). lia.
Qed.

(** ** Digit strings *)

Lemma digits_value_snoc :
  forall (ds : jsstring) (c : Z), digits_value (ds ++ [c]) = 10 * digits_value ds + (c - 48).
Proof. intros. unfold digits_value. rewrite fold_left_app. reflexivity. Qed.

Lemma digits_value_decimal_digits :
  forall n : Z, 0 <= n -> digits_value (decimal_digits n) = n.
Proof.
  intros n H. revert H. pattern n. apply (well_founded_induction (Z.lt_wf 0)).
  clear n. intros n IH H.
  destruct (Z_lt_le_dec n 10) as [L|L].
  - rewrite decimal_digits_small by lia.
    change (digits_value [48 + n]) with (10 * 0 + (48 + n - 48)). lia.
  - rewrite decimal_digits_step by lia. rewrite digits_value_snoc.
    rewrite IH; [| split; [apply Z.div_pos; lia | apply Z.div_lt; lia] | apply Z.div_pos; lia].
    pose proof (Z.div_mod n 10 ltac:(lia)). lia.
Qed.

Lemma decimal_digits_are_digits :
  forall n : Z, 0 <= n -> Forall (fun c => is_digit c = true) (decimal_digits n).
Proof.
  intros n H. revert H. pattern n. apply (well_founded_induction (Z.lt_wf 0)).
  clear n. intros n IH H.
  assert (D : forall k, 0 <= k < 10 -> is_digit (48 + k) = true).
  { intros k K. unfold is_digit. apply andb_true_iff; split; apply Z.leb_le; lia. }
  destruct (Z_lt_le_dec n 10) as [L|L].
  - rewrite decimal_digits_small by lia. constructor; [apply D; lia|constructor].
  - rewrite decimal_digits_step by lia. apply Forall_app; split.
    + apply IH; [split; [apply Z.div_pos; lia | apply Z.div_lt; lia] | apply Z.div_pos; lia].
    + constructor; [apply D; apply Z.mod_pos_bound; lia|constructor].
Qed.

Lemma span_digits_all :
  forall ds : jsstring,
    Forall (fun c => is_digit c = true) ds -> span_digits ds = (ds, []).
Proof.
  induction 1 as [|c ds C F IH]; [reflexivity|].
  cbn [span_digits]. rewrite C, IH. reflexivity.
Qed.

Lemma decimal_digits_pow10 :
  forall (d : Z) (q : nat),
    0 < d -> decimal_digits (d * 10 ^ Z.of_nat q) = decimal_digits d ++ zeros q.
Proof.
  intros d q D. induction q as [|q IH].
  - cbn. rewrite Z.mul_1_r, app_nil_r. reflexivity.
  - rewrite Nat2Z.inj_succ, Z.pow_succ_r by lia.
    assert (P : 0 < 10 ^ Z.of_nat q) by (apply Z.pow_pos_nonneg; lia).
    rewrite decimal_digits_step by nia.
    replace (d * (10 * 10 ^ Z.of_nat q)) with (d * 10 ^ Z.of_nat q * 10) by lia.
    rewrite Z.div_mul, Z.mod_mul by lia. rewrite IH.
    rewrite <- app_assoc. f_equal.
    unfold zeros. change [48 + 0] with (repeat 48 1).
    rewrite <- repeat_app. f_equal. lia.
Qed.

Lemma decimal_digits_length :
  forall (j : nat) (n : Z),
    0 <= n < 10 ^ Z.of_nat j -> (List.length (decimal_digits n) <= Nat.max 1 j)%nat.
Proof.
  induction j as [|j IH]; intros n B.
  - cbn in B. rewrite decimal_digits_small by lia. cbn. lia.
  - destruct (Z_lt_le_dec n 10) as [L|L].
    + rewrite decimal_digits_small by lia. cbn [List.length]. lia.
    + rewrite decimal_digits_step by lia. rewrite length_app. cbn [List.length].
      rewrite Nat2Z.inj_succ, Z.pow_succ_r in B by lia.
      assert (B' : 0 <= n / 10 < 10 ^ Z.of_nat j).
      { split; [apply Z.div_pos; lia|apply Z.div_lt_upper_bound; lia]. }
      specialize (IH _ B').
      destruct j; [cbn in B'; pose proof (Z.div_le_lower_bound n 10 1 ltac:(lia) ltac:(lia)); lia|].
      lia.
Qed.

Lemma decimal_digits_head :
  forall n : Z,
    0 < n -> exists (c : Z) (t : jsstring), decimal_digits n = c :: t /\ c <> 48.
Proof.
  intros n H. revert H. pattern n. apply (well_founded_induction (Z.lt_wf 0)).
  clear n. intros n IH H.
  destruct (Z_lt_le_dec n 10) as [L|L].
  - rewrite decimal_digits_small by lia. exists (48 + n), []. split; [reflexivity|lia].
  - rewrite decimal_digits_step by lia.
    assert (D : 0 < n / 10) by (apply Z.div_str_pos; lia).
    destruct (IH (n / 10)) as (c & t & E & C); [split; [lia|apply Z.div_lt; lia]|exact D|].
    rewrite E. exists c, (t ++ [48 + n mod 10]). split; [reflexivity|exact C].
Qed.

Lemma is_digit_bounds :
  forall c : Z, is_digit c = true -> 48 <= c <= 57.
Proof.
  intros c H. unfold is_digit in H. apply andb_true_iff in H. destruct H as [A B].
  apply Z.leb_le in A, B. lia.
Qed.

Lemma digits_value_nonneg :
  forall ds : jsstring, Forall (fun c => is_digit c = true) ds -> 0 <= digits_value ds.
Proof.
  intros ds. induction ds as [|c ds IH] using rev_ind; intro F; [cbn; lia|].
  apply Forall_app in F. destruct F as [F C].
  pose proof (is_digit_bounds _ (Forall_inv C)).
  rewrite digits_value_snoc. specialize (IH F). lia.
Qed.

(** ** Number::toString on integers *)

Lemma number_eqb_eq :
  forall x y : number, number_eqb x y = true -> x = y.
Proof.
  intros [a| a| |a m e] [b| b| |b m' e']; cbn; intro H; try discriminate; try reflexivity.
  - apply Bool.eqb_prop in H. congruence.
  - apply Bool.eqb_prop in H. congruence.
  - apply andb_true_iff in H. destruct H as [H He].
    apply andb_true_iff in H. destruct H as [Hs Hm].
    apply Bool.eqb_prop in Hs. apply Pos.eqb_eq in Hm. apply Z.eqb_eq in He. congruence.
Qed.

Lemma number_eqb_refl :
  forall x : number, number_eqb x x = true.
Proof.
  intros [a| a| |a m e]; cbn; try apply Bool.eqb_reflx; try reflexivity.
  rewrite Bool.eqb_reflx, Pos.eqb_refl, Z.eqb_refl. reflexivity.
Qed.

Lemma of_Z_eqb :
  forall a b : Z,
    0 <= a < 2 ^ 53 -> 0 <= b < 2 ^ 53 -> number_eqb (of_Z a) (of_Z b) = (a =? b).
Proof.
  intros a b A B. destruct (Z.eqb_spec a b) as [->|N].
  - apply number_eqb_refl.
  - destruct (number_eqb (of_Z a) (of_Z b)) eqn:E; [|reflexivity].
    apply number_eqb_eq in E. apply (f_equal integer_value) in E.
    rewrite !integer_value_of_Z in E by assumption. congruence.
Qed.

Lemma ge_pow10_integer :
  forall (z den g : Z),
    0 < den -> 0 <= g -> ge_pow10 (z * den) den g = (10 ^ g <=? z).
Proof.
  intros z den g D G. unfold ge_pow10.
  assert (L : (0 <=? g) = true) by (apply Z.leb_le; lia). rewrite L.
  destruct (Z.leb_spec (10 ^ g) z); [apply Z.leb_le|apply Z.leb_gt]; nia.
Qed.

Lemma log10_up_ge :
  forall (num den : Z) (f : nat) (g : Z),
    ge_pow10 num den g = true ->
    ge_pow10 num den (log10_up num den f g) = true /\ g <= log10_up num den f g.
Proof.
  intros num den f. induction f as [|f IH]; intros g H; cbn [log10_up].
  - split; [assumption|lia].
  - destruct (ge_pow10 num den (g + 1)) eqn:E.
    + destruct (IH _ E). split; [assumption|lia].
    + split; [assumption|lia].
Qed.

Lemma log10_guess :
  forall L : Z, 0 <= L <= 49 -> 10 ^ (L * 30103 / 100000) <= 2 ^ L.
Proof.
  intros L B.
  assert (A : forallb (fun L => 10 ^ (L * 30103 / 100000) <=? 2 ^ L)
                (map Z.of_nat (seq 0 50)) = true) by (vm_compute; reflexivity).
  rewrite forallb_forall in A. apply Z.leb_le, A.
  rewrite <- (Z2Nat.id L) by lia. apply in_map, in_seq. lia.
Qed.

Lemma floor_log10_integer :
  forall z d : Z,
    0 < z < 10 ^ 15 -> 0 <= d ->
    0 <= floor_log10 (z * 2 ^ d) (2 ^ d) /\ 10 ^ floor_log10 (z * 2 ^ d) (2 ^ d) <= z.
Proof.
  intros z d Z D. unfold floor_log10.
  assert (P : 0 < 2 ^ d) by (apply Z.pow_pos_nonneg; lia).
  rewrite Z.log2_mul_pow2, Z.log2_pow2 by lia.
  replace (d + Z.log2 z - d) with (Z.log2 z) by lia.
  set (L := Z.log2 z).
  assert (BL : 0 <= L <= 49).
  { split; [apply Z.log2_nonneg|].
    assert (L < 50); [|lia]. apply Z.log2_lt_pow2; [lia|]. 
    change (2 ^ 50) with 1125899906842624. change (10 ^ 15) with 1000000000000000 in Z. lia. }
  set (guess := L * 30103 / 100000).
  assert (G0 : 0 <= guess) by (apply Z.div_pos; lia).
  assert (Gz : 10 ^ guess <= z).
  { pose proof (log10_guess L BL). pose proof (Z.log2_spec z ltac:(lia)). fold L in H0. fold guess in H. lia. }
  assert (E : ge_pow10 (z * 2 ^ d) (2 ^ d) guess = true).
  { rewrite ge_pow10_integer by lia. apply Z.leb_le. exact Gz. }
  change (log10_down (z * 2 ^ d) (2 ^ d) 8 guess) with
    (if ge_pow10 (z * 2 ^ d) (2 ^ d) guess then guess
     else log10_down (z * 2 ^ d) (2 ^ d) 7 (guess - 1)).
  rewrite E.
  destruct (log10_up_ge _ _ 8 _ E) as [U1 U2].
  split; [lia|].
  rewrite ge_pow10_integer in U1 by lia. apply Z.leb_le in U1. exact U1.
Qed.

Lemma of_decimal_integer :
  forall s q : Z, 0 < s -> 0 <= q -> of_decimal false s q = of_Z (s * 10 ^ q).
Proof.
  intros s q S Q. destruct s as [|p|p]; try lia.
  unfold of_decimal. assert (L : (0 <=? q) = true) by (apply Z.leb_le; lia).
  rewrite L. reflexivity.
Qed.

Lemma candidate_integer :
  forall (z den g k : Z),
    0 < z < 10 ^ 15 -> 0 < den -> 0 <= g -> 10 ^ g <= z -> 1 <= k <= g + 1 ->
    candidate (z * den) den (of_Z z) g k
    = if z mod 10 ^ (g - (k - 1)) =? 0
      then Some (z / 10 ^ (g - (k - 1)), g - (k - 1)) else None.
Proof.
  intros z den g k Z D G Gz K.
  unfold candidate, scaled_div. set (q := g - (k - 1)).
  assert (Q : 0 <= q <= g) by (unfold q; lia).
  assert (L : (0 <=? q) = true) by (apply Z.leb_le; lia). rewrite L.
  assert (P : 0 < 10 ^ q) by (apply Z.pow_pos_nonneg; lia).
  assert (Pq : 10 ^ q <= z).
  { pose proof (Z.pow_le_mono_r 10 q g ltac:(lia) ltac:(lia)). lia. }
  replace (z * den) with (den * z) by lia.
  rewrite Z.div_mul_cancel_l, Z.mul_mod_distr_l by lia.
  cbv beta iota zeta.
  pose proof (Z.div_mod z (10 ^ q) ltac:(lia)) as DM.
  pose proof (Z.mod_pos_bound z (10 ^ q) P) as MB.
  set (s1 := z / 10 ^ q) in *. set (r := z mod 10 ^ q) in *.
  assert (S1 : 1 <= s1) by (apply Z.div_le_lower_bound; lia).
  assert (B53 : 2 * 10 ^ 15 < 2 ^ 53) by (vm_compute; reflexivity).
  unfold round_trips.
  rewrite !of_decimal_integer by lia.
  rewrite !of_Z_eqb by nia.
  assert (E2 : ((s1 + 1) * 10 ^ q =? z) = false) by (apply Z.eqb_neq; nia).
  rewrite E2.
  destruct (Z.eqb_spec r 0) as [R|R].
  - assert (E1 : (s1 * 10 ^ q =? z) = true) by (apply Z.eqb_eq; nia).
    rewrite E1. reflexivity.
  - assert (E1 : (s1 * 10 ^ q =? z) = false) by (apply Z.eqb_neq; nia).
    rewrite E1. reflexivity.
Qed.

Lemma shortest_integer :
  forall (z den g : Z) (fuel : nat) (k : Z),
    0 < z < 10 ^ 15 -> 0 < den -> 0 <= g -> 10 ^ g <= z -> 1 <= k <= g + 1 ->
    g + 1 - k < Z.of_nat fuel ->
    exists s q : Z,
      shortest (z * den) den (of_Z z) fuel g k = (s, q)
      /\ 0 < s /\ 0 <= q /\ s * 10 ^ q = z.
Proof.
  intros z den g fuel. induction fuel as [|f IH]; intros k Z D G Gz K F; [lia|].
  cbn [shortest]. rewrite candidate_integer by assumption.
  set (q := g - (k - 1)).
  assert (Q : 0 <= q <= g) by (unfold q; lia).
  assert (P : 0 < 10 ^ q) by (apply Z.pow_pos_nonneg; lia).
  assert (Pq : 10 ^ q <= z).
  { pose proof (Z.pow_le_mono_r 10 q g ltac:(lia) ltac:(lia)). lia. }
  pose proof (Z.div_mod z (10 ^ q) ltac:(lia)) as DM.
  destruct (Z.eqb_spec (z mod 10 ^ q) 0) as [R|R].
  - exists (z / 10 ^ q), q. repeat split; try lia; try (apply Z.div_str_pos; lia).
  - assert (k <= g).
    { destruct (Z.eq_dec k (g + 1)) as [->|]; [|lia].
      exfalso. apply R. unfold q. replace (g - (g + 1 - 1)) with 0 by lia.
      apply Z.mod_1_r. }
    apply IH; try assumption; lia.
Qed.

(** The shortest digits of a natural number below [10^15] are its own
    digits, up to the zeros at their end. *)
Lemma shortest_decimal_of_Z :
  forall p : positive,
    Zpos p < 10 ^ 15 ->
    exists (mz : positive) (e s q : Z),
      of_Z (Zpos p) = S754_finite false mz e
      /\ shortest_decimal mz e = (s, q)
      /\ 0 < s /\ 0 <= q /\ s * 10 ^ q = Zpos p.
Proof.
  intros p B.
  assert (B53 : 10 ^ 15 < 2 ^ 53) by (vm_compute; reflexivity).
  destruct (of_Z_pos p (digits2_le p 53 ltac:(lia) ltac:(lia))) as (mz & d & E & Bd & V).
  assert (Pd : 0 < 2 ^ d) by (apply Z.pow_pos_nonneg; lia).
  assert (S : shortest_decimal mz (- d)
              = shortest (Zpos p * 2 ^ d) (2 ^ d) (of_Z (Zpos p)) 17
                  (floor_log10 (Zpos p * 2 ^ d) (2 ^ d)) 1).
  { unfold shortest_decimal. rewrite <- E.
    destruct (Z.eq_dec d 0) as [->|N].
    - change (0 <=? - 0) with true. cbv beta iota.
      change (- 0) with 0. change (2 ^ 0) with 1. rewrite V.
      change (2 ^ 0) with 1. rewrite !Z.mul_1_r. reflexivity.
    - assert (L : (0 <=? - d) = false) by (apply Z.leb_gt; lia).
      rewrite L, Z.opp_involutive, V. reflexivity. }
  destruct (floor_log10_integer (Zpos p) d ltac:(lia) ltac:(lia)) as [G Gz].
  assert (G15 : floor_log10 (Zpos p * 2 ^ d) (2 ^ d) < 15)
    by (apply (Z.pow_lt_mono_r_iff 10); lia).
  destruct (shortest_integer (Zpos p) (2 ^ d) _ 17 1 ltac:(lia) Pd G Gz ltac:(lia)
              ltac:(change (Z.of_nat 17) with 17; lia))
    as (s & q & Sh & S0 & Q0 & Sq).
  exists mz, (- d), s, q. rewrite S. repeat split; assumption.
Qed.

(** A natural number below [10^15] prints as its decimal digits. *)
Lemma Number_toString_of_Z :
  forall z : Z, 0 <= z < 10 ^ 15 -> Number_toString (of_Z z) = decimal_digits z.
Proof.
  intros [|p|p] B; [reflexivity| |lia].
  destruct (shortest_decimal_of_Z p ltac:(lia)) as (mz & e & s & q & E & Sh & S0 & Q0 & Sq).
  rewrite E. cbn [Number_toString]. rewrite Sh.
  assert (Q15 : q < 15).
  { apply (Z.pow_lt_mono_r_iff 10); try lia;
      pose proof (Z.pow_pos_nonneg 10 q); nia. }
  pose proof (decimal_digits_pow10 s (Z.to_nat q) S0) as DP.
  rewrite Z2Nat.id, Sq in DP by lia.
  pose proof (decimal_digits_length 15 (Zpos p) ltac:(change (Z.of_nat 15) with 15; lia)) as Len.
  rewrite DP, length_app in Len. unfold zeros in Len. rewrite repeat_length in Len.
  set (ds := decimal_digits s) in *.
  set (k := Z.of_nat (List.length ds)).
  assert (K : 1 <= k).
  { unfold k, ds. pose proof (decimal_digits_nonempty s ltac:(lia)).
    destruct (decimal_digits s); [congruence|cbn [List.length]; lia]. }
  assert (C1 : ((-5 <=? q + k) && (q + k <=? 21)) = true).
  { change (Nat.max 1 15) with 15%nat in Len.
    apply andb_true_iff; split; apply Z.leb_le; unfold k in *; lia. }
  assert (C2 : (k <=? q + k) = true) by (apply Z.leb_le; lia).
  rewrite C1, C2. replace (q + k - k) with q by lia.
  rewrite DP. reflexivity.
Qed.

Lemma of_Z_finite :
  forall z : Z, 0 <= z < 10 ^ 15 -> is_finite (of_Z z) = true.
Proof.
  intros [|p|p] B; [reflexivity| |lia].
  assert (B53 : 10 ^ 15 < 2 ^ 53) by (vm_compute; reflexivity).
  destruct (of_Z_pos p (digits2_le p 53 ltac:(lia) ltac:(lia))) as (mz & d & E & _).
  rewrite E. reflexivity.
Qed.

(** ** Amounts in the host locale *)

(** A natural number up to [10^15] is shown by its digits in groups of
    three. *)
Lemma toLocaleString_of_Z :
  forall z : Z, 0 <= z <= 10 ^ 15 -> toLocaleString (of_Z z) = group3 (decimal_digits z).
Proof.
  intros z B. destruct (Z.eq_dec z (10 ^ 15)) as [->|N]; [vm_compute; reflexivity|].
  destruct z as [|p|p]; [reflexivity| |lia].
  destruct (shortest_decimal_of_Z p ltac:(lia)) as (mz & e & s & q & E & Sh & S0 & Q0 & Sq).
  rewrite E. cbn [toLocaleString]. rewrite Sh. cbv beta iota zeta.
  unfold thousandths.
  assert (L : (0 <=? q + 3) = true) by (apply Z.leb_le; lia).
  rewrite L, Z.pow_add_r by lia.
  replace (s * (10 ^ q * 10 ^ 3)) with (Zpos p * 1000) by (rewrite <- Sq; lia).
  rewrite Z.div_mul, Z.mod_mul by lia.
  cbn [fraction_str Z.eqb sign_str app]. rewrite app_nil_r. reflexivity.
Qed.

Lemma dollars_spec :
  forall a : number, is_amount a -> dollars (VNum a) = spec_dollars a.
Proof.
  intros [[|]| | |[|] m e] (S0 & V & B); try discriminate; try contradiction.
  - reflexivity.
  - cbn [below] in B. unfold mag_geb in B.
    unfold dollars, spec_dollars. cbn [ToNumber Math_round].
    pose proof (round_half_up_scaled_spec m e 1) as S.
    assert (Q1 : round_half_up (exact_value (S754_finite false m e))
                 = round_half_up_scaled m e 1).
    { rewrite S. unfold round_half_up. apply Qfloor_comp.
      rewrite Qmult_1_r. reflexivity. }
    rewrite Q1. unfold round_half_up_scaled.
    destruct (0 <=? e) eqn:E.
    + exfalso. apply Z.leb_le in E. apply Z.leb_gt in B.
      cbn [valid_binary] in V. unfold bounded, canonical_mantissa in V.
      apply andb_true_iff in V. destruct V as [V _]. apply Z.eqb_eq in V.
      unfold fexp, emin, prec, emax in V.
      assert (D : Zpos (digits2_pos m) = 53) by lia.
      destruct (digits2_bounds m) as [L _]. rewrite D in L.
      assert (1 <= 2 ^ e) by (pose proof (Z.pow_pos_nonneg 2 e); lia).
      assert (10 ^ 15 < 2 ^ (53 - 1)) by (vm_compute; reflexivity).
      nia.
    + apply Z.leb_gt in E. apply Z.leb_gt in B.
      assert (P : 0 < 2 ^ (- e)) by (apply Z.pow_pos_nonneg; lia).
      assert (P' : 2 ^ (1 - e) = 2 * 2 ^ (- e)).
      { replace (1 - e) with (Z.succ (- e)) by lia. rewrite Z.pow_succ_r by lia. lia. }
      rewrite Z.mul_1_r.
      set (r := (2 * Zpos m + 2 ^ (- e)) / 2 ^ (1 - e)).
      assert (Rb : 0 <= r <= 10 ^ 15).
      { unfold r. rewrite P'. split.
        - apply Z.div_pos; lia.
        - assert ((2 * Zpos m + 2 ^ (- e)) / (2 * 2 ^ (- e)) < 10 ^ 15 + 1); [|lia].
          apply Z.div_lt_upper_bound; [lia|]. nia. }
      destruct (r =? 0) eqn:R0.
      * apply Z.eqb_eq in R0. rewrite R0. reflexivity.
      * rewrite toLocaleString_of_Z by exact Rb.
        apply group3_thousands. lia.
Qed.

(** Above [2^53] an amount is shown by the shortest digits that read back
    as the number, followed by zeros: these are not the digits of the
    nearest integer, which for [2^60] is the number itself. *)
Lemma large_amounts_show_shortest_digits :
  dollars (VNum (of_Z (2 ^ 60))) = str "1,152,921,504,606,847,000"
  /\ spec_dollars (of_Z (2 ^ 60)) = str "1,152,921,504,606,846,976"
  /\ dollars (VNum (decimal 1 23)) = str "100,000,000,000,000,000,000,000".
Proof. repeat split; vm_compute; reflexivity. Qed.

(** The percentage is that of the product of numbers.  For the
    probability 0.0015 the product is the number just below 0.15 and the
    line shows 0.1, where probability times 100 rounded half-up gives
    0.2; for 0.0065 the product lies above 0.65 and the line shows 0.7,
    where probability times 100 gives 0.6. *)
Lemma percent_rounds_the_product :
  is_probability (decimal 15 (-4))
  /\ percent (VNum (decimal 15 (-4))) = str "0.1"
  /\ spec_percent (decimal 15 (-4)) = str "0.1"
  /\ claimed_percent (decimal 15 (-4)) = str "0.2"
  /\ is_probability (decimal 65 (-4))
  /\ percent (VNum (decimal 65 (-4))) = str "0.7"
  /\ spec_percent (decimal 65 (-4)) = str "0.7"
  /\ claimed_percent (decimal 65 (-4)) = str "0.6".
Proof.
  unfold is_probability.
  repeat split; try (vm_compute; reflexivity); vm_compute; discriminate.
Qed.

(** ** JSON texts and trimming *)

Lemma option_map_app_nil :
  forall (A : Type) (o : option (list A)), option_map (app []) o = o.
Proof. intros A [l|]; reflexivity. Qed.

(** The characters [trim] strips, one by one. *)
Lemma js_space_cases :
  forall c : Z,
    is_js_space c = true ->
    In c [9; 10; 11; 12; 13; 32; 160; 5760; 8192; 8193; 8194; 8195; 8196; 8197;
          8198; 8199; 8200; 8201; 8202; 8232; 8233; 8239; 8287; 12288; 65279].
Proof.
  intros c H. unfold is_js_space in H.
  repeat rewrite orb_true_iff in H. rewrite andb_true_iff in H.
  repeat rewrite Z.eqb_eq in H. rewrite !Z.leb_le in H.
  cbn [In].
  assert (R : 8192 <= c <= 8202 ->
              c = 8192 \/ c = 8193 \/ c = 8194 \/ c = 8195 \/ c = 8196 \/ c = 8197
              \/ c = 8198 \/ c = 8199 \/ c = 8200 \/ c = 8201 \/ c = 8202) by lia.
  intuition (subst; tauto).
Qed.

(** A character [trim] strips is either JSON whitespace or a character
    no JSON token can start with, continue a word with, or escape. *)
Lemma js_space_in_json :
  forall c : Z,
    is_js_space c = true ->
    is_word_char c = false
    /\ step_between c = (if is_json_space c then Some ([], Between) else None)
    /\ (forall acc, lex_step (InString acc) c = None
                    \/ lex_step (InString acc) c = Some ([], InString (c :: acc)))
    /\ (forall acc, lex_step (InEscape acc) c = None)
    /\ (forall acc n code, lex_step (InUnicode acc n code) c = None).
Proof.
  intros c H. apply js_space_cases in H. cbn [In] in H.
  repeat (destruct H as [H|H];
          [subst c; repeat split; intros; cbn; auto|]).
  contradiction.
Qed.

Lemma lex_trimStart :
  forall (s : jsstring) (ts : list token),
    lex_from Between s = Some ts -> lex_from Between (trimStart s) = Some ts.
Proof.
  induction s as [|c s IH]; intros ts H; [exact H|].
  cbn [trimStart]. destruct (is_js_space c) eqn:Ec; [|exact H].
  apply IH. cbn [lex_from lex_step] in H.
  destruct (js_space_in_json c Ec) as (_ & Sb & _). rewrite Sb in H.
  destruct (is_json_space c); [|discriminate].
  rewrite option_map_app_nil in H. exact H.
Qed.

Lemma lex_drop_last_space :
  forall (s : jsstring) (c : Z) (st : lex_state) (ts : list token),
    is_js_space c = true ->
    lex_from st (s ++ [c]) = Some ts -> lex_from st s = Some ts.
Proof.
  intros s c st ts Ec. revert st ts.
  destruct (js_space_in_json c Ec) as (Ew & Sb & Ss & Se & Su).
  induction s as [|d s IH]; intros st ts H.
  - cbn [app lex_from] in H. cbn [lex_from].
    destruct st as [|acc|acc|acc|acc n code].
    + cbn [lex_step] in H. rewrite Sb in H.
      destruct (is_json_space c); [|discriminate]. exact H.
    + cbn [lex_step] in H. rewrite Ew, Sb in H. cbn [lex_end].
      destruct (word_token (rev acc)) as [t|]; [|discriminate].
      destruct (is_json_space c); [|discriminate]. exact H.
    + destruct (Ss acc) as [E|E]; rewrite E in H; discriminate.
    + rewrite Se in H. discriminate.
    + rewrite Su in H. discriminate.
  - cbn [app lex_from] in H. cbn [lex_from].
    destruct (lex_step st d) as [[toks st']|]; [|discriminate].
    destruct (lex_from st' (s ++ [c])) as [ts'|] eqn:E; [|discriminate].
    rewrite (IH st' ts' E). exact H.
Qed.

Lemma trimEnd_snoc :
  forall (s : jsstring) (c : Z),
    trimEnd (s ++ [c]) = if is_js_space c then trimEnd s else s ++ [c].
Proof.
  intros s c. unfold trimEnd. rewrite rev_app_distr. cbn [rev app trimStart].
  destruct (is_js_space c); [reflexivity|].
  cbn [rev]. rewrite rev_involutive. reflexivity.
Qed.

Lemma lex_trimEnd :
  forall (s : jsstring) (st : lex_state) (ts : list token),
    lex_from st s = Some ts -> lex_from st (trimEnd s) = Some ts.
Proof.
  induction s as [|c s IH] using rev_ind; intros st ts H; [exact H|].
  rewrite trimEnd_snoc. destruct (is_js_space c) eqn:Ec; [|exact H].
  apply IH. exact (lex_drop_last_space s c st ts Ec H).
Qed.

(** Trimming a valid JSON text does not change what it denotes. *)
Lemma JSON_parse_trim :
  forall (text : jsstring) (x : value),
    JSON_parse text = Ok x -> JSON_parse (trim text) = Ok x.
Proof.
  intros text x H. unfold JSON_parse in *.
  destruct (lex_from Between text) as [ts|] eqn:E; [|discriminate].
  unfold trim. rewrite (lex_trimEnd _ _ _ (lex_trimStart _ _ E)). exact H.
Qed.

(** ** The handlers in flight *)

Lemma take_task_skip :
  forall (id : nat) (sg : stage) (ts l : list task),
    Forall (fun t => (task_id t < id)%nat) ts ->
    take_task id sg (ts ++ l) =
    match take_task id sg l with
    | Some (h, rest) => Some (h, ts ++ rest)
    | None => None
    end.
Proof.
  intros id sg ts l F.
  induction F as [|t ts Ht F IH]; cbn.
  - destruct (take_task id sg l) as [[h rest]|]; reflexivity.
  - assert (E : Nat.eqb (task_id t) id = false) by (apply Nat.eqb_neq; lia).
    rewrite E, IH. cbn. destruct (take_task id sg l) as [[h rest]|]; reflexivity.
Qed.

Lemma take_task_last :
  forall (id : nat) (h : handler) (sg : stage) (ts : list task),
    Forall (fun t => (task_id t < id)%nat) ts ->
    take_task id sg (ts ++ [{| task_id := id; task_handler := h; task_stage := sg |}])
    = Some (h, ts).
Proof.
  intros id h sg ts F.
  induction F as [|t ts Ht F IH]; cbn.
  - rewrite Nat.eqb_refl. destruct sg; reflexivity.
  - assert (E : Nat.eqb (task_id t) id = false) by (apply Nat.eqb_neq; lia).
    rewrite E, IH. reflexivity.
Qed.

Lemma take_first_of_two :
  forall (a : nat) (sg : stage) (ts : list task) (t : task),
    Forall (fun t => (task_id t < a)%nat) ts ->
    take_task a sg (ts ++ [suspended a sg; t]) = Some (SimulateHandler, ts ++ [t]).
Proof.
  intros a sg ts t F. rewrite (take_task_skip a sg _ _ F). cbn.
  rewrite Nat.eqb_refl. destruct sg; reflexivity.
Qed.

Lemma take_second_of_two :
  forall (a b : nat) (sg sg' : stage) (ts : list task),
    Forall (fun t => (task_id t < b)%nat) ts ->
    a <> b ->
    take_task b sg (ts ++ [suspended a sg'; suspended b sg])
    = Some (SimulateHandler, ts ++ [suspended a sg']).
Proof.
  intros a b sg sg' ts F N. rewrite (take_task_skip b sg _ _ F). cbn.
  apply Nat.eqb_neq in N. rewrite N, Nat.eqb_refl. destruct sg; reflexivity.
Qed.

Lemma step_preserves_ids_fresh :
  forall (st st' : state) (ev : event),
    ids_fresh st -> step st ev = Some st' -> ids_fresh st'.
Proof.
  assert (T : forall id sg ts h rest (P : task -> Prop),
             Forall P ts -> take_task id sg ts = Some (h, rest) -> Forall P rest).
  { intros id sg ts; induction ts as [|t ts IH]; cbn; intros h rest P F E; [discriminate|].
    inversion F as [|? ? Pt F']; subst.
    destruct (Nat.eqb (task_id t) id && stage_eqb (task_stage t) sg).
    - inversion E; subst; assumption.
    - destruct (take_task id sg ts) as [[h' r']|] eqn:Et; [|discriminate].
      inversion E; subst. constructor; [assumption|]. eapply IH; eauto. }
  assert (R : forall data st, next_id (fst (renderResults data st)) = next_id st
                              /\ tasks (fst (renderResults data st)) = tasks st).
  { intros data st. unfold renderResults, bind, eval, exec, Plotly_newPlot.
    repeat match goal with
           | |- context [match ?r with Ok _ => _ | Throw _ => _ end] => destruct r
           end; cbn; split; reflexivity. }
  intros st st' ev F E. unfold ids_fresh in *.
  destruct ev as [[] | text | f n s | id r | id r]; cbn in E.
  - inversion E; subst; clear E. unfold parseBtn_click.
    destruct (docxFile (dom st)); cbn; [|assumption].
    apply Forall_app; split.
    + eapply Forall_impl; [|exact F]. cbn; intros; lia.
    + constructor; [cbn; lia|constructor].
  - inversion E; subst; clear E. unfold useJsonBtn_click.
    destruct (JSON_parse _); cbn; assumption.
  - inversion E; subst; assumption.
  - inversion E; subst; clear E. unfold simulateBtn_click.
    destruct (negb _); cbn; [assumption|].
    apply Forall_app; split.
    + eapply Forall_impl; [|exact F]. cbn; intros; lia.
    + constructor; [cbn; lia|constructor].
  - inversion E; subst; assumption.
  - inversion E; subst; assumption.
  - destruct (take_task id AwaitFetch (tasks st)) as [[h rest]|] eqn:Et; [|discriminate].
    pose proof (T _ _ _ _ _ _ F Et) as Fr.
    assert (Hid : (id < next_id st)%nat).
    { clear - F Et. revert h rest Et. induction (tasks st) as [|t ts IH]; cbn; intros; [discriminate|].
      inversion F; subst.
      destruct (Nat.eqb (task_id t) id && stage_eqb (task_stage t) AwaitFetch) eqn:Eb.
      - apply andb_true_iff in Eb. destruct Eb as [Eb _]. apply Nat.eqb_eq in Eb. lia.
      - destruct (take_task id AwaitFetch ts) as [[h' r']|]; [|discriminate]. eapply IH; eauto. }
    destruct h; inversion E; subst; clear E;
      destruct r as [r|e]; cbn; try assumption;
      destruct (ok r); cbn; try assumption;
      (apply Forall_app; split; [assumption|constructor; [cbn; lia|constructor]]).
  - destruct (take_task id AwaitJson (tasks st)) as [[h rest]|] eqn:Et; [|discriminate].
    pose proof (T _ _ _ _ _ _ F Et) as Fr.
    destruct h; inversion E; subst; clear E; destruct r as [data|e]; cbn; try assumption.
    + unfold try_catch, bind, eval, exec. destruct (get data _); cbn; assumption.
    + unfold try_catch.
      destruct (R data (set_tasks rest st)) as [Rn Rt].
      destruct (renderResults data (set_tasks rest st)) as [s1 [u|e]]; cbn in *;
        rewrite Rn, Rt; assumption.
Qed.

(** Every state the page reaches from its initial state keeps its ids
    fresh. *)
Lemma reachable_ids_fresh :
  forall (p : page) (evs : list event) (st : state),
    run (initial p) evs = Some st -> ids_fresh st.
Proof.
  intros p evs. assert (F : ids_fresh (initial p)) by constructor.
  revert F. generalize (initial p).
  induction evs as [|ev evs IH]; cbn; intros st0 F st E.
  - inversion E; subst; assumption.
  - destruct (step st0 ev) as [st1|] eqn:Es; [|discriminate].
    eapply IH; [|exact E]. eapply step_preserves_ids_fresh; eauto.
Qed.

Lemma run_step :
  forall (st st' : state) (ev : event) (evs : list event),
    step st ev = Some st' -> run st (ev :: evs) = run st' evs.
Proof. intros st st' ev evs E. cbn [run]. rewrite E. reflexivity. Qed.

Lemma step_fetch_settled_last :
  forall (st : state) (ts : list task) (id : nat) (h : handler) (r : settled response),
    tasks st = ts ++ [{| task_id := id; task_handler := h; task_stage := AwaitFetch |}] ->
    Forall (fun t => (task_id t < id)%nat) ts ->
    step st (FetchSettled id r) =
    Some (match h with
          | ParseHandler => parse_fetch_settled id r (set_tasks ts st)
          | SimulateHandler => simulate_fetch_settled id r (set_tasks ts st)
          end).
Proof.
  intros st ts id h r E F. cbn. rewrite E, (take_task_last id h AwaitFetch ts F).
  destruct h; reflexivity.
Qed.

Lemma step_json_settled_last :
  forall (st : state) (ts : list task) (id : nat) (h : handler) (r : settled value),
    tasks st = ts ++ [{| task_id := id; task_handler := h; task_stage := AwaitJson |}] ->
    Forall (fun t => (task_id t < id)%nat) ts ->
    step st (JsonSettled id r) =
    Some (match h with
          | ParseHandler => parse_json_settled r (set_tasks ts st)
          | SimulateHandler => simulate_json_settled r (set_tasks ts st)
          end).
Proof.
  intros st ts id h r E F. cbn. rewrite E, (take_task_last id h AwaitJson ts F).
  destruct h; reflexivity.
Qed.

(** Decides the test of [ok] in a handler resumed with a response whose
    status is known to be a success or not. *)
Ltac read_status H :=
  cbn [parse_fetch_settled simulate_fetch_settled];
  match goal with
  | |- context [ok {| status := ?c |}] =>
      change (ok {| status := c |}) with (is_success c)
  end;
  rewrite H; cbn [negb].

Lemma simulate_fetch_ok_step :
  forall (st : state) (id : nat) (rest : list task),
    take_task id AwaitFetch (tasks st) = Some (SimulateHandler, rest) ->
    step st (FetchSettled id ok200)
    = Some (await_json id SimulateHandler (set_tasks rest st)).
Proof. intros st id rest E. cbn [step]. rewrite E. reflexivity. Qed.

Lemma simulate_json_step :
  forall (st : state) (id : nat) (rest : list task) (data : value),
    take_task id AwaitJson (tasks st) = Some (SimulateHandler, rest) ->
    step st (JsonSettled id (Fulfilled data))
    = Some (try_catch (renderResults data) simulate_catch (set_tasks rest st)).
Proof. intros st id rest data E. cbn [step]. rewrite E. reflexivity. Qed.

Lemma simulate_click_suspends :
  forall st : state,
    ToBoolean (currentPortfolioJSON st) = true ->
    let st1 := simulateBtn_click st in
    tasks st1 = tasks st ++ [{| task_id := next_id st; task_handler := SimulateHandler;
                                task_stage := AwaitFetch |}]
    /\ next_id st1 = S (next_id st)
    /\ currentPortfolioJSON st1 = currentPortfolioJSON st
    /\ fanChart (dom st1) = fanChart (dom st)
    /\ histChart (dom st1) = histChart (dom st)
    /\ probGoals (dom st1) = probGoals (dom st)
    /\ className (simSummary (dom st1)) = className (simSummary (dom st)).
Proof.
  intros st T st1. unfold st1, simulateBtn_click. rewrite T. cbn.
  repeat split.
Qed.

(** ** Rendering *)

Lemma terminal_bars :
  forall p5 median p95 : value,
    map_from bar_trace 0 (terminalMarkers p5 median p95) = Ok (hist_bars p5 median p95).
Proof. intros. reflexivity. Qed.

(** Taking the cases of every expression of a block that may throw. *)
Ltac step_cases :=
  repeat match goal with
         | |- context [match ?r with Ok _ => _ | Throw _ => _ end] =>
             let E := fresh "E" in destruct r eqn:E
         | H : context [match ?r with Ok _ => _ | Throw _ => _ end] |- _ =>
             let E := fresh "E" in destruct r eqn:E
         end.


(** Whether rendering throws depends on the response alone. *)
Lemma renderResults_outcome :
  forall (data : value) (st1 st2 : state),
    snd (renderResults data st1) = snd (renderResults data st2).
Proof.
  intros data st1 st2.
  unfold renderResults, bind, eval, exec, Plotly_newPlot.
  step_cases; try rewrite terminal_bars in *; try discriminate; reflexivity.
Qed.

(** What rendering leaves alone, whether it completes or throws. *)
Lemma renderResults_frame :
  forall (data : value) (st : state),
    let st' := fst (renderResults data st) in
    className (simSummary (dom st')) = className (simSummary (dom st))
    /\ tasks st' = tasks st /\ next_id st' = next_id st
    /\ requests st' = requests st
    /\ currentPortfolioJSON st' = currentPortfolioJSON st.
Proof.
  intros data st. unfold renderResults, bind, eval, exec, Plotly_newPlot.
  step_cases; cbn; repeat split.
Qed.

(** A rendering that completes overwrites all that is rendered: the
    result depends on the response alone (and on the class of the summary
    element, which no handler changes). *)
Lemma renderResults_overwrites :
  forall (data : value) (st1 st2 : state),
    renders data ->
    className (simSummary (dom st1)) = className (simSummary (dom st2)) ->
    rendered (fst (renderResults data st1)) = rendered (fst (renderResults data st2)).
Proof.
  intros data st1 st2 Hr Hc. unfold renders in Hr.
  unfold renderResults, bind, eval, exec, Plotly_newPlot in *.
  step_cases; try rewrite terminal_bars in *; try discriminate;
    cbn in *; unfold rendered; cbn; rewrite Hc; reflexivity.
Qed.

Lemma simulate_json_frame :
  forall (data : value) (st : state),
    let st' := try_catch (renderResults data) simulate_catch st in
    className (simSummary (dom st')) = className (simSummary (dom st))
    /\ tasks st' = tasks st.
Proof.
  intros data st. unfold try_catch.
  destruct (renderResults_frame data st) as (Hc & Ht & _).
  destruct (renderResults data st) as [s [u|e]]; cbn in *; rewrite Hc, Ht; split; reflexivity.
Qed.

(** A response of the data model renders to the end. *)
Lemma renderResults_response :
  forall (r : SimulationResponse) (st : state),
    Z.of_nat (List.length (p50 r)) < 4294967296 ->
    renderResults (response_value r) st = (set_dom (rendered_page r (dom st)) st, Ok tt).
Proof.
  intros r st B. unfold renderResults, bind, eval, exec, Plotly_newPlot.
  change (get (response_value r) (str "prob_by_goal")) with (Ok (VObj (goal_entries r))).
  change (get (response_value r) (str "summary"))
    with (Ok (VObj [ (str "median_terminal", VNum (median_terminal (summary r)));
                     (str "p5_terminal", VNum (p5_terminal (summary r)));
                     (str "p95_terminal", VNum (p95_terminal (summary r))) ])).
  change (get (response_value r) (str "ptiles_over_time"))
    with (Ok (VObj [ (str "p10", VArr (map VNum (p10 r)));
                     (str "p50", VArr (map VNum (p50 r)));
                     (str "p90", VArr (map VNum (p90 r))) ])).
  cbv beta iota.
  change (Object_entries (VObj (goal_entries r))) with (Ok (goal_entries r)).
  cbv beta iota.
  match goal with
  | |- context [get (VObj ?l) (str "median_terminal")] =>
      change (get (VObj l) (str "median_terminal")) with (Ok (VNum (median_terminal (summary r))));
      change (get (VObj l) (str "p5_terminal")) with (Ok (VNum (p5_terminal (summary r))));
      change (get (VObj l) (str "p95_terminal")) with (Ok (VNum (p95_terminal (summary r))))
  end.
  cbv beta iota.
  match goal with
  | |- context [get (VObj ?l) (str "p10")] =>
      change (get (VObj l) (str "p10")) with (Ok (VArr (map VNum (p10 r))));
      change (get (VObj l) (str "p50")) with (Ok (VArr (map VNum (p50 r))));
      change (get (VObj l) (str "p90")) with (Ok (VArr (map VNum (p90 r))))
  end.
  cbv beta iota.
  change (get (VArr (map VNum (p50 r))) (str "length"))
    with (Ok (VNum (of_Z (Z.of_nat (List.length (map VNum (p50 r))))))).
  cbv beta iota.
  rewrite length_map, (Array_keys_length _ B), terminal_bars.
  cbv beta iota.
  unfold rendered_page, years_of. rewrite map_map.
  destruct st as [pf [f j n s ps ss pg fc hc] al co rq tk nx].
  reflexivity.
Qed.

Lemma goal_lines :
  forall l : list (jsstring * number),
    Forall (fun kp => is_probability (snd kp)) l ->
    map prob_line (map (fun kp => (fst kp, VNum (snd kp))) l) = map spec_line l
    /\ map pill (map (fun kp => (fst kp, VNum (snd kp))) l) = map spec_indicator l.
Proof.
  intros l F. induction F as [|[k p] l P F [IH1 IH2]]; [split; reflexivity|].
  cbn [map]. rewrite IH1, IH2.
  unfold prob_line, pill, spec_line, spec_indicator, percent, spec_percent.
  cbn [fst snd ToNumber]. cbn [snd] in P.
  rewrite (toFixed_one_decimal _ (probability_in_range p P)). split; reflexivity.
Qed.

Lemma serialize_object :
  forall (gap indent : jsstring) (l : list (jsstring * value)),
    exists text : jsstring, serialize gap indent (VObj l) = Some text.
Proof. intros. cbn. eexists. reflexivity. Qed.

(** ** The parse action *)

(** C1, as amended: a parse attempt that ends by a network error, by a
    status that is not a success, by a body that is not JSON or by a JSON
    body that is [null] sets the parse status to the failure message and
    leaves the current portfolio and its text view as they were before
    the click. *)
Theorem parse_failure_keeps_portfolio :
  forall (st : state) (f : file) (o : outcome),
    docxFile (dom st) = Some f ->
    ids_fresh st ->
    parse_fails o ->
    exists st' : state,
      run st (Click parseBtn :: outcome_events (next_id st) o) = Some st'
      /\ parseStatus (dom st') = parse_failed_status
      /\ currentPortfolioJSON st' = currentPortfolioJSON st
      /\ jsonInput (dom st') = jsonInput (dom st)
      /\ tasks st' = tasks st.
Proof.
  intros st f o Hf Hfresh Hfail.
  pose (st1 := parseBtn_click st).
  assert (E1 : tasks st1 = tasks st ++ [{| task_id := next_id st;
                task_handler := ParseHandler; task_stage := AwaitFetch |}]).
  { unfold st1, parseBtn_click. rewrite Hf. reflexivity. }
  assert (S1 : currentPortfolioJSON st1 = currentPortfolioJSON st
               /\ jsonInput (dom st1) = jsonInput (dom st)).
  { unfold st1, parseBtn_click. rewrite Hf. split; reflexivity. }
  destruct S1 as [Sp Sj].
  assert (R : forall evs, run st (Click parseBtn :: evs) = run st1 evs) by reflexivity.
  destruct o as [e | code | code e | code data]; cbn [outcome_events];
    rewrite R; cbn [run];
    rewrite (step_fetch_settled_last st1 (tasks st) (next_id st) ParseHandler _ E1 Hfresh).
  - eexists; split; [reflexivity|]. cbn. repeat split; assumption.
  - read_status Hfail.
    eexists; split; [reflexivity|]. cbn. repeat split; assumption.
  - read_status Hfail.
    erewrite step_json_settled_last; [|reflexivity|exact Hfresh].
    eexists; split; [reflexivity|]. cbn. repeat split; assumption.
  - destruct Hfail as [Hcode [e He]].
    read_status Hcode.
    erewrite step_json_settled_last; [|reflexivity|exact Hfresh].
    eexists; split; [reflexivity|].
    unfold parse_json_settled, try_catch, bind, eval. rewrite He.
    cbn. repeat split; assumption.
Qed.

Lemma parse_failure_keeps_portfolio_witness :
  exists st' : state,
    run loaded_state (Click parseBtn :: outcome_events 0 (BodyJson 200 VNull)) = Some st'
    /\ parseStatus (dom st') = parse_failed_status
    /\ currentPortfolioJSON st' = VObj []
    /\ jsonInput (dom st') = str "{}"
    /\ tasks st' = [].
Proof.
  apply (parse_failure_keeps_portfolio loaded_state sample_file (BodyJson 200 VNull)).
  - reflexivity.
  - constructor.
  - split; [reflexivity|]. exists TypeError. reflexivity.
Defined.

(** C1 fails as stated: a response of status 200 whose body is the JSON
    object without any field is a failure in the words of the claim, yet
    the handler reports success and replaces the current portfolio by
    [undefined]. *)
Lemma parse_body_without_portfolio_is_stored :
  parse_fails_as_claimed (BodyJson 200 (VObj []))
  /\ exists st' : state,
       run loaded_state (Click parseBtn :: outcome_events 0 (BodyJson 200 (VObj []))) = Some st'
       /\ parseStatus (dom st') = parse_succeeded_status
       /\ parseStatus (dom st') <> parse_failed_status
       /\ currentPortfolioJSON st' = VUndefined
       /\ currentPortfolioJSON st' <> currentPortfolioJSON loaded_state
       /\ jsonInput (dom st') = str "undefined".
Proof.
  split; [split; reflexivity|].
  eexists; split; [vm_compute; reflexivity|].
  cbn. repeat split; discriminate.
Qed.

(** ** The run parameters *)

(** C2, as amended: the simulate request carries the current portfolio,
    [n_paths] and [seed]; an empty path-count text gives [n_paths = 10000]
    and, independently, an empty seed text gives [seed = 42]; a text that
    is not empty contributes its numeric coercion, whatever that is. *)
Theorem defaults_apply_to_empty_inputs :
  forall st : state,
    ToBoolean (currentPortfolioJSON st) = true ->
    let payload :=
      VObj [ (str "portfolio", currentPortfolioJSON st);
             (str "n_paths", VNum (default_on_empty (nPaths (dom st)) 10000));
             (str "seed", VNum (default_on_empty (seed (dom st)) 42)) ] in
    simulate_payload st = payload
    /\ exists text : jsstring,
         JSON_stringify payload = Some text
         /\ requests (simulateBtn_click st) = requests st ++ [simulate_request text].
Proof.
  intros st T payload.
  assert (P : simulate_payload st = payload).
  { unfold simulate_payload, payload, Number_or, default_on_empty.
    destruct (nPaths (dom st)); destruct (seed (dom st)); reflexivity. }
  split; [exact P|].
  destruct (serialize_object [] [] [ (str "portfolio", currentPortfolioJSON st);
             (str "n_paths", VNum (default_on_empty (nPaths (dom st)) 10000));
             (str "seed", VNum (default_on_empty (seed (dom st)) 42)) ]) as [text E].
  exists text. split; [exact E|].
  unfold simulateBtn_click. rewrite T. cbn [negb].
  rewrite P. unfold JSON_stringify, payload. rewrite E. reflexivity.
Qed.

Lemma defaults_apply_to_empty_inputs_witness :
  simulate_payload (with_inputs [] (str "7"))
  = VObj [ (str "portfolio", VObj []); (str "n_paths", VNum (of_Z 10000));
           (str "seed", VNum (of_Z 7)) ]
  /\ exists text : jsstring,
       JSON_stringify
         (VObj [ (str "portfolio", VObj []); (str "n_paths", VNum (of_Z 10000));
                 (str "seed", VNum (of_Z 7)) ]) = Some text
       /\ requests (simulateBtn_click (with_inputs [] (str "7"))) = [simulate_request text].
Proof.
  apply (defaults_apply_to_empty_inputs (with_inputs [] (str "7"))).
  reflexivity.
Defined.

(** C2 fails as stated: the path-count text [abc] coerces to NaN, yet the
    request does not carry the default 10000 but NaN, which the body
    serialises as [null]. *)
Lemma unparseable_input_is_not_defaulted :
  is_nan (StringToNumber (str "abc")) = true
  /\ default_on_unparseable (str "abc") 10000 = of_Z 10000
  /\ get (simulate_payload (with_inputs (str "abc") [])) (str "n_paths") = Ok (VNum S754_nan)
  /\ get (simulate_payload (with_inputs (str "abc") [])) (str "n_paths")
     <> Ok (VNum (default_on_unparseable (str "abc") 10000))
  /\ requests (simulateBtn_click (with_inputs (str "abc") []))
     = [simulate_request
          (str "{" ++ [34] ++ str "portfolio" ++ [34] ++ str ":{},"
           ++ [34] ++ str "n_paths" ++ [34] ++ str ":null,"
           ++ [34] ++ str "seed" ++ [34] ++ str ":42}")].
Proof.
  repeat split; try (vm_compute; reflexivity).
  vm_compute. discriminate.
Qed.

(** ** The simulate action *)



(** A response of the data model has the shape of one. *)
Lemma response_value_has_shape :
  forall r : SimulationResponse, has_response_shape (response_value r) = true.
Proof.
  intros r.
  assert (N : forall l : list number, forallb is_number_value (map VNum l) = true).
  { induction l as [|x l IH]; [reflexivity|exact IH]. }
  assert (G : forall l : list (jsstring * number),
             forallb (fun kv : jsstring * value => is_number_value (snd kv))
               (map (fun kp => (fst kp, VNum (snd kp))) l) = true).
  { induction l as [|x l IH]; [reflexivity|exact IH]. }
  pose proof (G (prob_by_goal r)) as Hg.
  pose proof (N (p10 r)) as H10. pose proof (N (p50 r)) as H50.
  pose proof (N (p90 r)) as H90.
  unfold has_response_shape, response_value.
  set (gl := map (fun kp => (fst kp, VNum (snd kp))) (prob_by_goal r)) in *.
  set (l10 := map VNum (p10 r)) in *. set (l50 := map VNum (p50 r)) in *.
  set (l90 := map VNum (p90 r)) in *. clearbody gl l10 l50 l90.
  cbn. rewrite Hg, H10, H50, H90. reflexivity.
Qed.


(** ** Preconditions *)

(** C4: with no file chosen, the parse action writes its notice to the
    parse status and sends nothing; with no portfolio loaded, the simulate
    action shows its alert and sends nothing.  Either way the current
    portfolio, the requests, the handlers in flight and what is rendered
    stay as they were. *)
Theorem precondition_failures_send_nothing :
  forall st : state,
    (docxFile (dom st) = None ->
       let st' := parseBtn_click st in
       step st (Click parseBtn) = Some st'
       /\ parseStatus (dom st') =
            {| textContent := no_file_message; className := str "status error" |}
       /\ requests st' = requests st /\ tasks st' = tasks st
       /\ currentPortfolioJSON st' = currentPortfolioJSON st
       /\ jsonInput (dom st') = jsonInput (dom st)
       /\ rendered st' = rendered st /\ alerts st' = alerts st)
    /\ (currentPortfolioJSON st = VNull ->
       let st' := simulateBtn_click st in
       step st (Click simulateBtn) = Some st'
       /\ alerts st' = alerts st ++ [no_portfolio_message]
       /\ requests st' = requests st /\ tasks st' = tasks st
       /\ currentPortfolioJSON st' = currentPortfolioJSON st
       /\ dom st' = dom st).
Proof.
  intros st; split; intros H st'; (split; [reflexivity|]); subst st'.
  - unfold parseBtn_click; rewrite H; cbn.
    repeat split.
  - unfold simulateBtn_click; rewrite H; cbn.
    repeat split; assumption.
Qed.

Lemma precondition_failures_send_nothing_witness :
  docxFile (dom (initial empty_page)) = None
  /\ currentPortfolioJSON (initial empty_page) = VNull
  /\ requests (parseBtn_click (initial empty_page)) = []
  /\ requests (simulateBtn_click (initial empty_page)) = [].
Proof.
  destruct (precondition_failures_send_nothing (initial empty_page)) as [P S].
  split; [reflexivity|]. split; [reflexivity|].
  split.
  - destruct (P eq_refl) as (_ & _ & Hr & _). exact Hr.
  - destruct (S eq_refl) as (_ & _ & Hr & _). exact Hr.
Defined.

(** ** Loading the JSON text *)

(** C5, as amended: loading a valid JSON text makes the current portfolio
    the value the text denotes; a text that is not valid JSON once the
    white space around it is trimmed leaves the current portfolio
    unchanged and is answered by the rejection notice. *)
Theorem load_json_stores_the_denoted_value :
  forall st : state,
    (forall x : value,
       JSON_parse (jsonInput (dom st)) = Ok x ->
       step st (Click useJsonBtn) = Some (alert json_loaded (set_currentPortfolioJSON x st))
       /\ currentPortfolioJSON (useJsonBtn_click st) = x)
    /\ (forall e : exn,
          JSON_parse (trim (jsonInput (dom st))) = Throw e ->
          step st (Click useJsonBtn) = Some (alert json_rejected st)
          /\ currentPortfolioJSON (useJsonBtn_click st) = currentPortfolioJSON st).
Proof.
  intros st; split.
  - intros x H. apply JSON_parse_trim in H.
    cbn [step]. unfold useJsonBtn_click. rewrite H. split; reflexivity.
  - intros e H. cbn [step]. unfold useJsonBtn_click. rewrite H. split; reflexivity.
Qed.

Lemma load_json_stores_the_denoted_value_witness :
  JSON_parse sample_text = Ok (obj [("a", VArr [num 1; num 2])]%string)
  /\ currentPortfolioJSON (useJsonBtn_click (with_text sample_text))
     = obj [("a", VArr [num 1; num 2])]%string
  /\ JSON_parse (trim (str "{a:1}")) = Throw SyntaxError
  /\ currentPortfolioJSON (useJsonBtn_click (with_text (str "{a:1}"))) = VObj [].
Proof.
  destruct (load_json_stores_the_denoted_value (with_text sample_text)) as [L _].
  destruct (load_json_stores_the_denoted_value (with_text (str "{a:1}"))) as [_ R].
  split; [vm_compute; reflexivity|].
  split; [apply (L (obj [("a", VArr [num 1; num 2])]%string)); vm_compute; reflexivity|].
  split; [vm_compute; reflexivity|].
  apply (R SyntaxError). vm_compute. reflexivity.
Defined.

(** C5 fails as stated: a form feed followed by [1] is not valid JSON
    text, yet the load action trims the form feed away, stores the number
    1 over the portfolio that was current and shows the success notice. *)
Lemma text_with_form_feed_is_loaded :
  JSON_parse ([12] ++ str "1") = Throw SyntaxError
  /\ step (with_text ([12] ++ str "1")) (Click useJsonBtn)
     = Some (alert json_loaded (set_currentPortfolioJSON (num 1) (with_text ([12] ++ str "1"))))
  /\ currentPortfolioJSON (useJsonBtn_click (with_text ([12] ++ str "1")))
     <> currentPortfolioJSON (with_text ([12] ++ str "1"))
  /\ alerts (useJsonBtn_click (with_text ([12] ++ str "1")))
     <> alerts (with_text ([12] ++ str "1")) ++ [json_rejected].
Proof.
  split; [vm_compute; reflexivity|].
  split; [vm_compute; reflexivity|].
  split; vm_compute; discriminate.
Qed.

(** ** The summary text and the probability indicators *)

(** C6, as amended: for every response whose probabilities lie in [0,1]
    and whose amounts are not negative and lie below [10^15], the summary
    text is the heading [Goal Probabilities], then one line per goal in
    the order of the response, of the form goal, colon, space,
    percentage, percent sign; then a blank line; then the median line and
    the range line, each amount rounded to the nearest integer, a half
    going up, with thousands separators.  The percentage is the product
    of numbers of the probability and 100, that is the number nearest to
    probability times 100, rounded half-up to one decimal.  The
    indicators show each goal name in bold followed by a space and the
    same percentage. *)
Theorem summary_and_indicators :
  forall (r : SimulationResponse) (st : state),
    well_formed r ->
    exists st' : state,
      renderResults (response_value r) st = (st', Ok tt)
      /\ textContent (simSummary (dom st')) = written_summary r
      /\ probGoals (dom st') = join [] (map spec_indicator (prob_by_goal r)).
Proof.
  intros r st (P & A1 & A2 & A3 & B).
  eexists. split; [apply (renderResults_response r st B)|].
  destruct (goal_lines (prob_by_goal r) P) as [L I].
  cbn [set_dom dom rendered_page simSummary probGoals textContent].
  unfold goal_entries. rewrite L, I.
  unfold summary_text, written_summary, median_line, range_line.
  rewrite !dollars_spec by assumption.
  split; reflexivity.
Qed.

Lemma summary_and_indicators_witness :
  well_formed sample_response
  /\ written_summary sample_response = sample_summary
  /\ exists st' : state,
       renderResults (response_value sample_response) loaded_state = (st', Ok tt)
       /\ textContent (simSummary (dom st')) = sample_summary
       /\ probGoals (dom st') = sample_indicator.
Proof.
  assert (W : well_formed sample_response).
  { unfold well_formed, is_probability, is_amount, below.
    split; [repeat constructor; vm_compute; discriminate|].
    repeat split; vm_compute; reflexivity. }
  split; [exact W|].
  split; [vm_compute; reflexivity|].
  destruct (summary_and_indicators sample_response loaded_state W) as (st' & R & T & G).
  exists st'. split; [exact R|].
  split.
  - rewrite T. vm_compute. reflexivity.
  - rewrite G. vm_compute. reflexivity.
Defined.

(** C6 fails as stated: the summary of the example starts with the
    heading [Goal Probabilities], which the stated format leaves no room
    for, and the indicator separates goal and percentage by a space, not
    by a colon. *)
Lemma summary_starts_with_a_heading :
  well_formed sample_response
  /\ claimed_summary sample_response
     = join [10] [ str "retirement: 82.3%"; [];
                   str "Median terminal: $1,234,567";
                   str "5th" ++ [en_dash] ++ str "95th: $500,000 " ++ [en_dash]
                   ++ str " $3,000,000" ]
  /\ textContent (simSummary (dom (fst (renderResults (response_value sample_response)
                                          loaded_state))))
     = str "Goal Probabilities" ++ [10] ++ claimed_summary sample_response
  /\ textContent (simSummary (dom (fst (renderResults (response_value sample_response)
                                          loaded_state))))
     <> claimed_summary sample_response
  /\ probGoals (dom (fst (renderResults (response_value sample_response) loaded_state)))
     = sample_indicator.
Proof.
  split.
  { unfold well_formed, is_probability, is_amount, below.
    split; [repeat constructor; vm_compute; discriminate|].
    repeat split; vm_compute; reflexivity. }
  repeat split; try (vm_compute; reflexivity).
  vm_compute. discriminate.
Qed.

(** ** The percentile band chart *)

(** C7: for every response, the x-axis of the band chart has one label per
    entry of [p50], the label of month [i] being [i / 12] to one decimal
    place; the three series carry this same axis and are drawn in the
    order: [p90] with a line of width 0, [p10] with a line of width 0
    filled to the series before it, [p50] as a line of width 2 named
    Median. *)
Theorem fan_chart_series :
  forall (r : SimulationResponse) (st : state),
    Z.of_nat (List.length (p50 r)) < 4294967296 ->
    let years := years_of (List.length (p50 r)) in
    exists (st' : state) (band band2 median : value),
      renderResults (response_value r) st = (st', Ok tt)
      /\ option_map plot_data (fanChart (dom st')) = Some (VArr [band; band2; median])
      /\ List.length years = List.length (p50 r)
      /\ (forall i : nat,
            (i < List.length (p50 r))%nat ->
            nth i years [] = toFixed (num_div (of_Z (Z.of_nat i)) (of_Z 12)) 1)
      /\ (get band (str "x") = Ok (VArr (map VStr years))
          /\ get band (str "y") = Ok (VArr (map VNum (p90 r)))
          /\ get band (str "line") = Ok (obj [("width", num 0)]%string)
          /\ get band (str "fill") = Ok VUndefined)
      /\ (get band2 (str "x") = Ok (VArr (map VStr years))
          /\ get band2 (str "y") = Ok (VArr (map VNum (p10 r)))
          /\ get band2 (str "line") = Ok (obj [("width", num 0)]%string)
          /\ get band2 (str "fill") = Ok (VStr (str "tonexty")))
      /\ (get median (str "x") = Ok (VArr (map VStr years))
          /\ get median (str "y") = Ok (VArr (map VNum (p50 r)))
          /\ get median (str "line")
             = Ok (obj [("color", VStr (str "#2196F3")); ("width", num 2)]%string)
          /\ get median (str "name") = Ok (VStr (str "Median"))).
Proof.
  intros r st B years.
  eexists. eexists. eexists. eexists.
  split; [apply (renderResults_response r st B)|].
  split; [reflexivity|].
  split; [unfold years, years_of; rewrite length_map, length_seq; reflexivity|].
  split.
  - intros i Hi. unfold years, years_of.
    set (f := fun i : nat => toFixed (num_div (of_Z (Z.of_nat i)) (of_Z 12)) 1).
    rewrite (nth_indep _ [] (f 0%nat)) by (rewrite length_map, length_seq; exact Hi).
    rewrite map_nth, seq_nth by exact Hi. reflexivity.
  - repeat split.
Qed.

Lemma fan_chart_series_witness :
  List.length (p50 sample_response) = 25%nat
  /\ years_of (List.length (p50 sample_response)) = years_of_25
  /\ exists (st' : state) (band band2 median : value),
       renderResults (response_value sample_response) loaded_state = (st', Ok tt)
       /\ option_map plot_data (fanChart (dom st')) = Some (VArr [band; band2; median])
       /\ get band (str "x") = Ok (VArr (map VStr years_of_25))
       /\ get band2 (str "x") = Ok (VArr (map VStr years_of_25))
       /\ get median (str "x") = Ok (VArr (map VStr years_of_25)).
Proof.
  split; [reflexivity|].
  split; [vm_compute; reflexivity|].
  destruct (fan_chart_series sample_response loaded_state)
    as (st' & band & band2 & median & R & P & _ & _ & (X1 & _) & (X2 & _) & (X3 & _)).
  - vm_compute. reflexivity.
  - exists st', band, band2, median.
    replace years_of_25 with (years_of (List.length (p50 sample_response)))
      by (vm_compute; reflexivity).
    repeat split; assumption.
Defined.

(** ** Overlapping simulate requests *)

Lemma two_simulations_run :
  forall (st : state) (d1 d2 : value) (swap : bool),
    ToBoolean (currentPortfolioJSON st) = true ->
    ids_fresh st ->
    let a := next_id st in
    let b := S a in
    let first := if swap then (b, d2) else (a, d1) in
    let second := if swap then (a, d1) else (b, d2) in
    exists s4 s5 : state,
      run st (both_in_flight a b ++ [body_arrives first])
      = Some (try_catch (renderResults (snd first)) simulate_catch s4)
      /\ className (simSummary (dom s4)) = className (simSummary (dom st))
      /\ step (try_catch (renderResults (snd first)) simulate_catch s4) (body_arrives second)
         = Some (try_catch (renderResults (snd second)) simulate_catch s5)
      /\ className (simSummary (dom s5)) = className (simSummary (dom st)).
Proof.
  intros st d1 d2 swap T F a b first second.
  destruct (simulate_click_suspends st T) as (E1 & N1 & P1 & _ & _ & _ & C1).
  set (st1 := simulateBtn_click st) in *.
  assert (T1 : ToBoolean (currentPortfolioJSON st1) = true) by (rewrite P1; exact T).
  destruct (simulate_click_suspends st1 T1) as (E2 & N2 & P2 & _ & _ & _ & C2).
  set (st2 := simulateBtn_click st1) in *.
  rewrite E1, N1 in E2. rewrite <- app_assoc in E2. cbn [app] in E2.
  fold a b (suspended a AwaitFetch) (suspended b AwaitFetch) in E2.
  assert (Nab : a <> b) by (unfold b; lia).
  assert (Nba : b <> a) by (unfold b; lia).
  assert (Fb : Forall (fun t => (task_id t < b)%nat) (tasks st)).
  { eapply Forall_impl; [|exact F]. cbn. unfold b, a. intros; lia. }
  rewrite C1 in C2. clear E1 N1 P1 C1 T1 N2 P2.
  unfold both_in_flight, body_arrives. cbn [app].
  change (run st (Click simulateBtn :: Click simulateBtn :: ?evs)) with (run st2 evs).
  clearbody st2. clear st1.
  (* both fetches settle *)
  erewrite run_step;
    [|apply simulate_fetch_ok_step; rewrite E2; apply take_first_of_two; exact F].
  erewrite run_step;
    [|apply simulate_fetch_ok_step; cbn [await_json set_tasks tasks];
      rewrite <- app_assoc; cbn [app];
      apply (take_first_of_two b AwaitFetch); exact Fb].
  match goal with |- context [run ?s _] => set (s4 := s) end.
  assert (E4 : tasks s4 = tasks st ++ [suspended a AwaitJson; suspended b AwaitJson]).
  { unfold s4. cbn [await_json set_tasks tasks]. rewrite <- app_assoc. reflexivity. }
  assert (C4 : className (simSummary (dom s4)) = className (simSummary (dom st)))
    by exact C2.
  clearbody s4. clear E2 C2 st2.
  destruct swap; subst first second; cbn [fst snd].
  - (* the body of the second request arrives first *)
    erewrite run_step;
      [|apply simulate_json_step; rewrite E4;
        apply (take_second_of_two a b AwaitJson AwaitJson); assumption].
    destruct (simulate_json_frame d2 (set_tasks (tasks st ++ [suspended a AwaitJson]) s4))
      as (C5 & E5).
    cbn [set_tasks tasks dom] in C5, E5.
    eexists. eexists. split; [reflexivity|]. split; [exact C4|].
    split.
    + apply simulate_json_step. rewrite E5. apply take_task_last. exact F.
    + cbn [set_tasks dom]. rewrite C5. exact C4.
  - (* the body of the first request arrives first *)
    erewrite run_step;
      [|apply simulate_json_step; rewrite E4;
        apply (take_first_of_two a AwaitJson); assumption].
    destruct (simulate_json_frame d1 (set_tasks (tasks st ++ [suspended b AwaitJson]) s4))
      as (C5 & E5).
    cbn [set_tasks tasks dom] in C5, E5.
    eexists. eexists. split; [reflexivity|]. split; [exact C4|].
    split.
    + apply simulate_json_step. rewrite E5. apply take_task_last. exact Fb.
    + cbn [set_tasks dom]. rewrite C5. exact C4.
Qed.

(** C8, as amended: when simulate is clicked twice before either request
    resolves, both requests stay in flight and each response is rendered
    when its body arrives: after the first body the page shows that
    response, and after the second body it shows the one that arrived
    last, whichever request it answers. *)
Theorem last_arrival_wins :
  forall (st : state) (d1 d2 : value),
    ToBoolean (currentPortfolioJSON st) = true ->
    ids_fresh st ->
    renders d1 -> renders d2 ->
    let a := next_id st in
    let b := S a in
    (exists s5 s6 : state,
       run st (both_in_flight a b ++ [body_arrives (a, d1)]) = Some s5
       /\ rendered s5 = rendered (fst (renderResults d1 st))
       /\ step s5 (body_arrives (b, d2)) = Some s6
       /\ rendered s6 = rendered (fst (renderResults d2 st)))
    /\ (exists s5 s6 : state,
         run st (both_in_flight a b ++ [body_arrives (b, d2)]) = Some s5
         /\ rendered s5 = rendered (fst (renderResults d2 st))
         /\ step s5 (body_arrives (a, d1)) = Some s6
         /\ rendered s6 = rendered (fst (renderResults d1 st))).
Proof.
  intros st d1 d2 T F R1 R2 a b.
  assert (K : forall d s, renders d ->
            className (simSummary (dom s)) = className (simSummary (dom st)) ->
            rendered (try_catch (renderResults d) simulate_catch s)
            = rendered (fst (renderResults d st))).
  { intros d s R C. unfold try_catch.
    pose proof (renderResults_overwrites d s st R C) as O.
    pose proof (renderResults_outcome d s (initial empty_page)) as Q.
    unfold renders in R. rewrite R in Q.
    destruct (renderResults d s) as [s' [u|e]]; cbn in *; [exact O|discriminate]. }
  split.
  - destruct (two_simulations_run st d1 d2 false T F) as (s4 & s5 & E1 & C1 & E2 & C2).
    cbn [fst snd] in *. eexists. eexists.
    split; [exact E1|]. split; [apply K; assumption|].
    split; [exact E2|]. apply K; assumption.
  - destruct (two_simulations_run st d1 d2 true T F) as (s4 & s5 & E1 & C1 & E2 & C2).
    cbn [fst snd] in *. eexists. eexists.
    split; [exact E1|]. split; [apply K; assumption|].
    split; [exact E2|]. apply K; assumption.
Qed.

Lemma last_arrival_wins_witness :
  (exists s5 s6 : state,
     run loaded_state (both_in_flight 0 1 ++ [body_arrives (0%nat, response_value sample_response)])
     = Some s5
     /\ rendered s5 = rendered (fst (renderResults (response_value sample_response) loaded_state))
     /\ step s5 (body_arrives (1%nat, response_value other_response)) = Some s6
     /\ rendered s6 = rendered (fst (renderResults (response_value other_response) loaded_state)))
  /\ (exists s5 s6 : state,
       run loaded_state (both_in_flight 0 1 ++ [body_arrives (1%nat, response_value other_response)])
       = Some s5
       /\ rendered s5 = rendered (fst (renderResults (response_value other_response) loaded_state))
       /\ step s5 (body_arrives (0%nat, response_value sample_response)) = Some s6
       /\ rendered s6 = rendered (fst (renderResults (response_value sample_response) loaded_state))).
Proof.
  apply (last_arrival_wins loaded_state (response_value sample_response)
           (response_value other_response)).
  - reflexivity.
  - constructor.
  - vm_compute. reflexivity.
  - vm_compute. reflexivity.
Defined.

(** C8 fails as stated: with the body of the second request arriving
    before the body of the first, the page ends showing the response to the
    first request, not the one to the most recent request. *)
Lemma stale_response_is_rendered_last :
  ~ most_recent_wins loaded_state (response_value sample_response)
      (response_value other_response).
Proof.
  intros H.
  destruct (H (1%nat, response_value other_response) (0%nat, response_value sample_response))
    as (st' & E & R).
  - right. reflexivity.
  - apply (f_equal (fun r => textContent (fst (fst (fst r))))) in R.
    vm_compute in E. inversion E; subst; clear E.
    vm_compute in R. discriminate R.
Qed.

(** ** The simulate gate *)

(** C9: the simulate gate tests falsiness.  Whenever the stored portfolio
    is falsy, as [null], [0], the empty string, [false] and NaN are, the
    simulate action shows the load-a-portfolio alert and sends nothing;
    and the editor texts [0], [false], the empty string literal and
    [null] are loaded with the success notice into exactly such values. *)
Theorem simulate_gate_tests_falsiness :
  (forall st : state,
     ToBoolean (currentPortfolioJSON st) = false ->
     step st (Click simulateBtn) = Some (alert no_portfolio_message st)
     /\ requests (alert no_portfolio_message st) = requests st
     /\ tasks (alert no_portfolio_message st) = tasks st)
  /\ (forall v : value,
        In v [VNull; VNum (S754_zero false); VNum (S754_zero true); VStr [];
              VBool false; VNum S754_nan] ->
        ToBoolean v = false)
  /\ (forall (st : state) (text : jsstring),
        In text [str "0"; str "false"; [34; 34]; str "null"] ->
        jsonInput (dom st) = text ->
        exists v : value,
          step st (Click useJsonBtn)
          = Some (alert (str "Portfolio JSON loaded.") (set_currentPortfolioJSON v st))
          /\ ToBoolean v = false).
Proof.
  split; [|split].
  - intros st H. cbn [step]. unfold simulateBtn_click. rewrite H. cbn.
    repeat split.
  - intros v H. cbn in H.
    repeat (destruct H as [H|H]; [subst v; reflexivity|]). contradiction.
  - intros st text H E. cbn [step]. unfold useJsonBtn_click. rewrite E.
    cbn in H.
    repeat (destruct H as [H|H]; [subst text; eexists; split; [vm_compute JSON_parse; reflexivity|reflexivity]|]).
    contradiction.
Qed.

Lemma simulate_gate_tests_falsiness_witness :
  ToBoolean (currentPortfolioJSON (set_currentPortfolioJSON (VNum (S754_zero false)) loaded_state)) = false
  /\ step (set_currentPortfolioJSON (VNum (S754_zero false)) loaded_state) (Click simulateBtn)
     = Some (alert no_portfolio_message
               (set_currentPortfolioJSON (VNum (S754_zero false)) loaded_state))
  /\ ToBoolean (VStr []) = false
  /\ exists v : value,
       step (set_dom (set_jsonInput (str "false") (dom loaded_state)) loaded_state)
         (Click useJsonBtn)
       = Some (alert (str "Portfolio JSON loaded.")
                 (set_currentPortfolioJSON v
                    (set_dom (set_jsonInput (str "false") (dom loaded_state)) loaded_state)))
       /\ ToBoolean v = false.
Proof.
  destruct simulate_gate_tests_falsiness as (G & V & L).
  split; [reflexivity|].
  split; [apply (G (set_currentPortfolioJSON (VNum (S754_zero false)) loaded_state)); reflexivity|].
  split; [apply (V (VStr [])); cbn; tauto|].
  apply (L (set_dom (set_jsonInput (str "false") (dom loaded_state)) loaded_state) (str "false")).
  - cbn. tauto.
  - reflexivity.
Defined.

(** ** The clear action *)

(** C10: after one clear, whatever the state before, the current portfolio
    is [null] and the JSON text view is empty; a second clear in a row
    changes nothing more. *)
Theorem clear_resets_and_is_idempotent :
  forall st : state,
    currentPortfolioJSON (clearJsonBtn_click st) = VNull
    /\ jsonInput (dom (clearJsonBtn_click st)) = []
    /\ clearJsonBtn_click (clearJsonBtn_click st) = clearJsonBtn_click st
    /\ step st (Click clearJsonBtn) = Some (clearJsonBtn_click st).
Proof.
  intros [pf [f j n s ps ss pg fc hc] al co rq tk nx].
  repeat split.
Qed.

(** ** The numeric coercion of digit strings *)

Lemma digit_not_space :
  forall c : Z, is_digit c = true -> is_js_space c = false.
Proof.
  intros c H. unfold is_digit in H. apply andb_true_iff in H. destruct H as [A B].
  apply Z.leb_le in A, B. unfold is_js_space.
  repeat match goal with
         | |- context [?a =? ?b] =>
             let E := fresh in
             assert (E : (a =? b) = false) by (apply Z.eqb_neq; lia); rewrite E; clear E
         end.
  assert (E : (8192 <=? c) = false) by (apply Z.leb_gt; lia). rewrite E. reflexivity.
Qed.

Lemma trimStart_white :
  forall ws s : jsstring, white ws -> trimStart (ws ++ s) = trimStart s.
Proof.
  intros ws s W. induction W as [|c ws C W IH]; [reflexivity|].
  cbn [app trimStart]. rewrite C. exact IH.
Qed.

Lemma trimStart_digits :
  forall ds s : jsstring,
    ds <> [] -> Forall (fun c => is_digit c = true) ds -> trimStart (ds ++ s) = ds ++ s.
Proof.
  intros [|c ds] s N F; [congruence|]. inversion F; subst.
  cbn [app trimStart]. rewrite digit_not_space by assumption. reflexivity.
Qed.

Lemma trim_padded_digits :
  forall ws1 ds ws2 : jsstring,
    white ws1 -> white ws2 -> ds <> [] -> Forall (fun c => is_digit c = true) ds ->
    trim (ws1 ++ ds ++ ws2) = ds.
Proof.
  intros ws1 ds ws2 W1 W2 N F. unfold trim, trimEnd.
  rewrite trimStart_white, trimStart_digits by assumption.
  rewrite rev_app_distr, trimStart_white by (apply Forall_rev; exact W2).
  rewrite <- (app_nil_r (rev ds)), trimStart_digits, app_nil_r, rev_involutive.
  - reflexivity.
  - intro E. apply N. rewrite <- (rev_involutive ds), E. reflexivity.
  - apply Forall_rev. exact F.
Qed.

Lemma trim_white :
  forall ws : jsstring, white ws -> trim ws = [].
Proof.
  intros ws W. unfold trim, trimEnd.
  rewrite <- (app_nil_r ws), trimStart_white by assumption. reflexivity.
Qed.

Lemma radix_value_zero :
  forall (ds : jsstring) (acc : Z), ds <> [] -> radix_value 0 ds acc = None.
Proof.
  intros [|c ds] acc N; [congruence|]. cbn [radix_value]. unfold digit_in.
  destruct (is_digit c) eqn:D.
  - apply is_digit_bounds in D.
    assert (E : (c - 48 <? 0) = false) by (apply Z.ltb_ge; lia). rewrite E. reflexivity.
  - destruct ((97 <=? c) && (c <=? 102)) eqn:A.
    + apply andb_true_iff in A. destruct A as [A _]. apply Z.leb_le in A.
      assert (E : (c - 87 <? 0) = false) by (apply Z.ltb_ge; lia). rewrite E. reflexivity.
    + destruct ((65 <=? c) && (c <=? 70)) eqn:A'.
      * apply andb_true_iff in A'. destruct A' as [A' _]. apply Z.leb_le in A'.
        assert (E : (c - 55 <? 0) = false) by (apply Z.ltb_ge; lia). rewrite E. reflexivity.
      * reflexivity.
Qed.

Lemma non_decimal_digits :
  forall ds : jsstring, Forall (fun c => is_digit c = true) ds -> non_decimal ds = None.
Proof.
  intros ds F. unfold non_decimal.
  destruct ds as [|a ds]; [reflexivity|].
  destruct (Z.eq_dec a 48) as [->|A].
  - destruct ds as [|c [|b ds]]; try reflexivity.
    pose proof (is_digit_bounds _ (Forall_inv (Forall_inv_tail F))) as C.
    repeat match goal with
           | |- context [c =? ?b] =>
               let E := fresh in
               assert (E : (c =? b) = false) by (apply Z.eqb_neq; lia); rewrite E; clear E
           end.
    cbn [orb]. rewrite radix_value_zero by discriminate. reflexivity.
  - destruct a as [|p|p]; try reflexivity.
    repeat (destruct p as [p|p|]; try reflexivity). congruence.
Qed.

Lemma digits_not_Infinity :
  forall ds : jsstring,
    Forall (fun c => is_digit c = true) ds -> jsstring_eqb ds (str "Infinity") = false.
Proof.
  intros [|c ds] F; [reflexivity|].
  pose proof (is_digit_bounds _ (Forall_inv F)) as C.
  change (str "Infinity") with (73 :: str "nfinity"). cbn [jsstring_eqb].
  assert (E : (c =? 73) = false) by (apply Z.eqb_neq; lia). rewrite E. reflexivity.
Qed.

Lemma of_decimal_natural :
  forall n : Z, 0 <= n -> of_decimal false n 0 = of_Z n.
Proof.
  intros [|p|p] H; [reflexivity| |lia].
  rewrite of_decimal_integer by lia. rewrite Z.mul_1_r. reflexivity.
Qed.

Lemma not_a_sign :
  forall ds : jsstring,
    Forall (fun c => is_digit c = true) ds ->
    match ds with
    | 43 :: t => (false, t)
    | 45 :: t => (true, t)
    | _ => (false, ds)
    end = (false, ds).
Proof.
  intros [|c t] F; [reflexivity|].
  pose proof (is_digit_bounds _ (Forall_inv F)) as C.
  destruct c as [|p|p]; try reflexivity.
  repeat (destruct p as [p|p|]; try reflexivity); lia.
Qed.

Lemma str_decimal_digits :
  forall ds : jsstring,
    ds <> [] -> Forall (fun c => is_digit c = true) ds ->
    str_decimal ds = Some (of_Z (digits_value ds)).
Proof.
  intros ds N F. unfold str_decimal.
  rewrite not_a_sign, digits_not_Infinity by assumption.
  unfold unsigned_decimal. rewrite span_digits_all by assumption.
  rewrite app_nil_r. destruct ds as [|c t]; [congruence|].
  cbn [exponent_part List.length Z.of_nat Z.sub].
  rewrite of_decimal_natural by (apply digits_value_nonneg; assumption).
  reflexivity.
Qed.

(** Digits between white space coerce to the number they write. *)
Lemma StringToNumber_digits :
  forall (ws1 ws2 : jsstring) (n : Z),
    white ws1 -> white ws2 -> 0 <= n ->
    StringToNumber (ws1 ++ decimal_digits n ++ ws2) = of_Z n.
Proof.
  intros ws1 ws2 n W1 W2 H. unfold StringToNumber.
  pose proof (decimal_digits_are_digits n H) as F.
  pose proof (decimal_digits_nonempty n H) as N.
  pose proof (digits_value_decimal_digits n H) as V.
  rewrite trim_padded_digits by assumption.
  destruct (decimal_digits n) as [|c t]; [congruence|].
  rewrite non_decimal_digits, str_decimal_digits, V by assumption.
  reflexivity.
Qed.

(** White space alone coerces to zero. *)
Lemma StringToNumber_white :
  forall ws : jsstring, white ws -> StringToNumber ws = S754_zero false.
Proof.
  intros ws W. unfold StringToNumber, trim, trimEnd.
  rewrite <- (app_nil_r ws), trimStart_white by assumption. reflexivity.
Qed.

(** The digits of an integer are a JSON number, which is that integer. *)
Lemma json_number_digits :
  forall n : Z, 0 <= n -> json_number (decimal_digits n) = Some (of_Z n).
Proof.
  intros n H. unfold json_number.
  pose proof (decimal_digits_are_digits n H) as F.
  pose proof (digits_value_decimal_digits n H) as V.
  assert (S : match decimal_digits n with
              | 45 :: t => (true, t)
              | _ => (false, decimal_digits n)
              end = (false, decimal_digits n)).
  { destruct (decimal_digits n) as [|c t]; [reflexivity|].
    pose proof (is_digit_bounds _ (Forall_inv F)) as C.
    destruct c as [|p|p]; try reflexivity.
    repeat (destruct p as [p|p|]; try reflexivity); lia. }
  rewrite S, span_digits_all by assumption.
  cbn [exponent_part List.length Z.of_nat Z.sub]. rewrite app_nil_r, V.
  rewrite of_decimal_natural by assumption.
  destruct (Z.eq_dec n 0) as [->|N0]; [reflexivity|].
  destruct (decimal_digits_head n ltac:(lia)) as (c & t & E & C).
  rewrite E.
  destruct c as [|p|p]; try reflexivity.
  repeat (destruct p as [p|p|]; try reflexivity). congruence.
Qed.

Lemma prints_back_of_Z :
  forall n : Z, 0 <= n < 10 ^ 15 -> prints_back (of_Z n).
Proof.
  intros n B. split; [apply of_Z_finite; exact B|].
  rewrite Number_toString_of_Z by exact B. apply json_number_digits. lia.
Qed.

(** ** JSON texts: words *)

(** Induction on values, with the property for the elements of an array
    and for the values of an object. *)
Lemma value_ind' :
  forall P : value -> Prop,
    P VUndefined -> P VNull -> (forall b, P (VBool b)) -> (forall n, P (VNum n)) ->
    (forall s, P (VStr s)) ->
    (forall l, Forall P l -> P (VArr l)) ->
    (forall l, Forall (fun kv => P (snd kv)) l -> P (VObj l)) ->
    forall v, P v.
Proof.
  intros P HU HN HB HNum HS HA HO.
  fix IH 1. intros [ | | b | n | s | l | l].
  - exact HU.
  - exact HN.
  - apply HB.
  - apply HNum.
  - apply HS.
  - apply HA. induction l as [|e l IHl]; constructor; [apply IH|exact IHl].
  - apply HO. induction l as [|[k e] l IHl]; constructor; [apply IH|exact IHl].
Qed.

Lemma serialize_arr :
  forall (gap indent : jsstring) (l : list value),
    serialize gap indent (VArr l)
    = Some (wrap gap indent (str "[") (str "]")
              (map (fun e => match serialize gap (indent ++ gap) e with
                             | Some t => t
                             | None => str "null"
                             end) l)).
Proof. reflexivity. Qed.

Lemma serialize_obj :
  forall (gap indent : jsstring) (l : list (jsstring * value)),
    serialize gap indent (VObj l)
    = Some (wrap gap indent (str "{") (str "}")
              (flat_map (fun kv =>
                           match serialize gap (indent ++ gap) (snd kv) with
                           | Some t =>
                               [QuoteJSONString (fst kv) ++ str ":"
                                ++ (match gap with [] => [] | _ => str " " end) ++ t]
                           | None => []
                           end) l)).
Proof. reflexivity. Qed.

Lemma option_map_cons_app :
  forall (t : token) (ts : list token) (o : option (list token)),
    option_map (app (t :: ts)) o = option_map (cons t) (option_map (app ts) o).
Proof. intros t ts [x|]; reflexivity. Qed.

Lemma word_char_cases :
  forall c : Z,
    is_word_char c = true ->
    48 <= c <= 57 \/ 97 <= c <= 122 \/ 65 <= c <= 90 \/ c = 43 \/ c = 45 \/ c = 46.
Proof.
  intros c H. unfold is_word_char, is_digit in H.
  repeat (apply orb_true_iff in H; destruct H as [H|H]);
    try (apply andb_true_iff in H; destruct H as [A B]; apply Z.leb_le in A, B);
    try apply Z.eqb_eq in H; lia.
Qed.

Lemma step_between_word :
  forall c : Z, is_word_char c = true -> step_between c = Some ([], InWord [c]).
Proof.
  intros c H. pose proof (word_char_cases c H) as C. unfold step_between, is_json_space.
  repeat match goal with
         | |- context [c =? ?b] =>
             let E := fresh in
             assert (E : (c =? b) = false) by (apply Z.eqb_neq; lia); rewrite E; clear E
         end.
  cbn [orb]. rewrite H. reflexivity.
Qed.

Lemma lex_in_word :
  forall (w acc rest : jsstring),
    Forall (fun c => is_word_char c = true) w -> delimited rest ->
    lex_from (InWord acc) (w ++ rest)
    = match word_token (rev acc ++ w) with
      | Some t => option_map (cons t) (lex_from Between rest)
      | None => None
      end.
Proof.
  intros w. induction w as [|c w IH]; intros acc rest F D.
  - rewrite app_nil_r. cbn [app]. destruct rest as [|c r].
    + cbn. destruct (word_token (rev acc)); reflexivity.
    + cbn in D. cbn [lex_from lex_step]. rewrite D.
      destruct (word_token (rev acc)) as [t|]; [|reflexivity].
      destruct (step_between c) as [[ts st']|]; [|reflexivity].
      apply option_map_cons_app.
  - inversion F as [|? ? C F']; subst.
    cbn [app lex_from lex_step]. rewrite C, option_map_app_nil.
    rewrite IH by assumption. cbn [rev]. rewrite <- app_assoc. reflexivity.
Qed.

(** A word followed by the end of the text or by a character that is not
    of a word is one token. *)
Lemma lex_word :
  forall (w rest : jsstring),
    w <> [] -> Forall (fun c => is_word_char c = true) w -> delimited rest ->
    lex_from Between (w ++ rest)
    = match word_token w with
      | Some t => option_map (cons t) (lex_from Between rest)
      | None => None
      end.
Proof.
  intros [|c w] rest N F D; [congruence|]. inversion F as [|? ? C F']; subst.
  cbn [app lex_from lex_step]. rewrite (step_between_word c C), option_map_app_nil.
  rewrite lex_in_word by assumption. reflexivity.
Qed.

Lemma digit_word_char :
  forall c : Z, is_digit c = true -> is_word_char c = true.
Proof. intros c H. unfold is_word_char. rewrite H. reflexivity. Qed.

Lemma digits_fuel_word :
  forall (fuel : nat) (n : Z) (acc : jsstring), word acc -> word (digits_fuel fuel n acc).
Proof.
  induction fuel as [|f IH]; intros n acc A; cbn [digits_fuel]; [exact A|].
  assert (W : word ((48 + n mod 10) :: acc)).
  { constructor; [|exact A]. apply digit_word_char. unfold is_digit.
    pose proof (Z.mod_pos_bound n 10 ltac:(lia)).
    apply andb_true_iff; split; apply Z.leb_le; lia. }
  destruct (n <? 10); [exact W|]. apply IH. exact W.
Qed.

Lemma decimal_digits_word : forall n : Z, word (decimal_digits n).
Proof. intro n. apply digits_fuel_word. constructor. Qed.

Lemma zeros_word : forall k : nat, word (zeros k).
Proof. intro k. unfold zeros. induction k; cbn [repeat]; constructor; [reflexivity|assumption]. Qed.

Lemma firstn_word : forall (k : nat) (w : jsstring), word w -> word (firstn k w).
Proof.
  intros k w W. rewrite <- (firstn_skipn k w) in W. apply Forall_app in W. tauto.
Qed.

Lemma skipn_word : forall (k : nat) (w : jsstring), word w -> word (skipn k w).
Proof.
  intros k w W. rewrite <- (firstn_skipn k w) in W. apply Forall_app in W. tauto.
Qed.

(** The text of a finite number is a word. *)
Lemma Number_toString_word :
  forall x : number, is_finite x = true -> word (Number_toString x).
Proof.
  intros [s|s| |s m e] F; try discriminate.
  - repeat constructor.
  - cbn [Number_toString]. destruct (shortest_decimal m e) as [d q].
    pose proof (decimal_digits_word d) as D. set (ds := decimal_digits d) in *.
    assert (E : forall z, word (exponent_str z)).
    { intro z. unfold exponent_str. apply Forall_app; split;
        [destruct (0 <=? z); repeat constructor|apply decimal_digits_word]. }
    apply Forall_app; split; [destruct s; repeat constructor|].
    clearbody ds. unfold word in *.
    repeat match goal with
           | |- Forall _ (if ?b then _ else _) => destruct b
           | |- Forall _ (match ?l with [] => _ | _ :: _ => _ end) => destruct l
           | |- Forall _ (_ ++ _) => apply Forall_app; split
           | |- Forall _ (zeros _) => apply zeros_word
           | |- Forall _ (firstn _ _) => apply firstn_word
           | |- Forall _ (skipn _ _) => apply skipn_word
           | |- Forall _ (exponent_str _) => apply E
           | H : Forall _ (?c :: _) |- Forall _ [?c] =>
               constructor; [exact (Forall_inv H)|constructor]
           | H : Forall _ (_ :: ?r) |- Forall _ ?r => exact (Forall_inv_tail H)
           | |- Forall _ ds => exact D
           | |- Forall _ [] => constructor
           | |- Forall _ (str _) => repeat constructor
           end.
    all: exact D.
Qed.

Lemma jsstring_eqb_eq :
  forall a b : jsstring, jsstring_eqb a b = true -> a = b.
Proof.
  induction a as [|x a IH]; intros [|y b] H; cbn in H; try discriminate; [reflexivity|].
  apply andb_true_iff in H. destruct H as [E H]. apply Z.eqb_eq in E.
  rewrite (IH _ H), E. reflexivity.
Qed.

(** A number that prints back is one token of the text it prints as. *)
Lemma word_token_number :
  forall n : number, prints_back n -> word_token (Number_toString n) = Some (TNum n).
Proof.
  intros n [F P]. unfold word_token.
  destruct (jsstring_eqb (Number_toString n) (str "true")) eqn:E1.
  { apply jsstring_eqb_eq in E1. rewrite E1 in P. discriminate. }
  destruct (jsstring_eqb (Number_toString n) (str "false")) eqn:E2.
  { apply jsstring_eqb_eq in E2. rewrite E2 in P. discriminate. }
  destruct (jsstring_eqb (Number_toString n) (str "null")) eqn:E3.
  { apply jsstring_eqb_eq in E3. rewrite E3 in P. discriminate. }
  rewrite P. reflexivity.
Qed.

Lemma lex_number :
  forall (n : number) (rest : jsstring),
    prints_back n -> delimited rest ->
    lex_from Between (Number_toString n ++ rest)
    = option_map (cons (TNum n)) (lex_from Between rest).
Proof.
  intros n rest P D.
  rewrite lex_word; [rewrite (word_token_number n P); reflexivity| | |exact D].
  - intro E. destruct P as [_ P]. rewrite E in P. discriminate.
  - apply Number_toString_word. apply P.
Qed.

(** ** JSON texts: strings *)

Lemma digit_in_hex :
  forall v : Z, 0 <= v < 16 -> digit_in 16 (hex_digit v) = Some v.
Proof.
  intros v B.
  assert (C : v = 0 \/ v = 1 \/ v = 2 \/ v = 3 \/ v = 4 \/ v = 5 \/ v = 6 \/ v = 7
              \/ v = 8 \/ v = 9 \/ v = 10 \/ v = 11 \/ v = 12 \/ v = 13 \/ v = 14
              \/ v = 15) by lia.
  repeat (destruct C as [->|C]; [reflexivity|]). subst. reflexivity.
Qed.

Lemma lex_silent_step :
  forall (st st' : lex_state) (c : Z) (s : jsstring),
    lex_step st c = Some ([], st') -> lex_from st (c :: s) = lex_from st' s.
Proof. intros st st' c s H. cbn [lex_from]. rewrite H. apply option_map_app_nil. Qed.

Lemma lex_step_hex :
  forall (acc : jsstring) (count : nat) (code v : Z),
    0 <= v < 16 ->
    lex_step (InUnicode acc count code) (hex_digit v)
    = if Nat.eqb count 3 then Some ([], InString ((16 * code + v) :: acc))
      else Some ([], InUnicode acc (S count) (16 * code + v)).
Proof. intros acc count code v B. cbn [lex_step]. rewrite digit_in_hex by exact B. reflexivity. Qed.

Lemma lex_unicode_escape :
  forall (c : Z) (acc s : jsstring),
    code_unit c ->
    lex_from (InString acc) (unicode_escape c ++ s) = lex_from (InString (c :: acc)) s.
Proof.
  intros c acc s C. unfold code_unit in C. unfold unicode_escape.
  change (str "\u") with [92; 117]. cbn [app].
  rewrite (lex_silent_step (InString acc) (InEscape acc)) by reflexivity.
  rewrite (lex_silent_step (InEscape acc) (InUnicode acc 0 0)) by reflexivity.
  rewrite (lex_silent_step _ _ _ _ (lex_step_hex acc 0 0 _ ltac:(apply Z.mod_pos_bound; lia))).
  cbn [Nat.eqb].
  rewrite (lex_silent_step _ _ _ _ (lex_step_hex acc 1 _ _ ltac:(apply Z.mod_pos_bound; lia))).
  cbn [Nat.eqb].
  rewrite (lex_silent_step _ _ _ _ (lex_step_hex acc 2 _ _ ltac:(apply Z.mod_pos_bound; lia))).
  cbn [Nat.eqb].
  rewrite (lex_silent_step _ _ _ _ (lex_step_hex acc 3 _ _ ltac:(apply Z.mod_pos_bound; lia))).
  cbn [Nat.eqb].
  do 3 f_equal.
  replace (c / 256) with (c / 16 / 16) by (rewrite Z.div_div by lia; reflexivity).
  replace (c / 4096) with (c / 16 / 16 / 16) by (rewrite !Z.div_div by lia; reflexivity).
  pose proof (Z.div_mod c 16 ltac:(lia)) as E0.
  pose proof (Z.div_mod (c / 16) 16 ltac:(lia)) as E1.
  pose proof (Z.div_mod (c / 16 / 16) 16 ltac:(lia)) as E2.
  assert (B3 : 0 <= c / 16 / 16 / 16 < 16).
  { rewrite !Z.div_div by lia. split; [apply Z.div_pos; lia|].
    apply Z.div_lt_upper_bound; lia. }
  rewrite (Z.mod_small (c / 16 / 16 / 16)) by exact B3. lia.
Qed.

Lemma lex_plain_char :
  forall (c : Z) (acc s : jsstring),
    32 <= c -> c <> 34 -> c <> 92 ->
    lex_from (InString acc) (c :: s) = lex_from (InString (c :: acc)) s.
Proof.
  intros c acc s B N1 N2. apply lex_silent_step. cbn [lex_step].
  assert (E1 : (c =? 34) = false) by (apply Z.eqb_neq; lia).
  assert (E2 : (c =? 92) = false) by (apply Z.eqb_neq; lia).
  assert (E3 : (c <? 32) = false) by (apply Z.ltb_ge; lia).
  rewrite E1, E2, E3. reflexivity.
Qed.

Lemma lex_short_escape :
  forall (e c : Z) (acc s : jsstring),
    e <> 117 -> escape_char e = Some c ->
    lex_from (InString acc) (92 :: e :: s) = lex_from (InString (c :: acc)) s.
Proof.
  intros e c acc s N E.
  rewrite (lex_silent_step (InString acc) (InEscape acc)) by reflexivity.
  apply lex_silent_step. cbn [lex_step].
  assert (E1 : (e =? 117) = false) by (apply Z.eqb_neq; lia).
  rewrite E1, E. reflexivity.
Qed.

(** The case of a character written as a two-character escape. *)
Ltac short_escape e k :=
  subst; cbv iota;
  match goal with
  | |- context [(str ?x ++ ?q) ++ ?r] => change ((str x ++ q) ++ r) with (92 :: e :: q ++ r)
  | |- context [([92; ?y] ++ ?q) ++ ?r] => change (([92; y] ++ q) ++ r) with (92 :: e :: q ++ r)
  end;
  rewrite (lex_short_escape e k _ _ ltac:(discriminate) eq_refl);
  match goal with
  | R : forall t, rev (_ :: _) ++ t = _ |- _ => rewrite <- R
  end;
  match goal with
  | IH : forall s, _ -> _ -> forall acc rest, _ |- _ => apply IH; [lia|assumption]
  end.

(** The body of a quoted string, read in a string, gives the string
    back. *)
Lemma lex_quote_body :
  forall (n : nat) (s : jsstring),
    (List.length s <= n)%nat -> Forall code_unit s ->
    forall acc rest : jsstring,
      lex_from (InString acc) (quote_body s ++ 34 :: rest)
      = option_map (cons (TStr (rev acc ++ s))) (lex_from Between rest).
Proof.
  induction n as [|n IH]; intros s L F acc rest.
  - destruct s; [|cbn in L; lia]. rewrite app_nil_r. cbn.
    destruct (lex_from Between rest); reflexivity.
  - destruct s as [|c s].
    { rewrite app_nil_r. cbn. destruct (lex_from Between rest); reflexivity. }
    cbn [List.length] in L. inversion F as [|? ? C F']; subst.
    assert (R : forall t, rev (c :: acc) ++ t = rev acc ++ c :: t).
    { intro t. cbn [rev]. rewrite <- app_assoc. reflexivity. }
    cbn [quote_body].
    destruct (Z.eqb_spec c 8); [short_escape 98 8|cbv iota].
    destruct (Z.eqb_spec c 9); [short_escape 116 9|cbv iota].
    destruct (Z.eqb_spec c 10); [short_escape 110 10|cbv iota].
    destruct (Z.eqb_spec c 12); [short_escape 102 12|cbv iota].
    destruct (Z.eqb_spec c 13); [short_escape 114 13|cbv iota].
    destruct (Z.eqb_spec c 34); [short_escape 34 34|cbv iota].
    destruct (Z.eqb_spec c 92); [short_escape 92 92|cbv iota].
    destruct (Z.ltb_spec c 32); cbv iota.
    { rewrite <- app_assoc, lex_unicode_escape, <- R by assumption.
      apply IH; [lia|assumption]. }
    destruct (is_high_surrogate c) eqn:Hs; cbv iota.
    { unfold is_high_surrogate in Hs. apply andb_true_iff in Hs. destruct Hs as [H1 H2].
      apply Z.leb_le in H1, H2.
      destruct s as [|d s].
      - rewrite lex_unicode_escape by assumption.
        cbn. destruct (lex_from Between rest); reflexivity.
      - destruct (is_low_surrogate d) eqn:Ld; cbv iota.
        + unfold is_low_surrogate in Ld. apply andb_true_iff in Ld. destruct Ld as [L1 L2].
          apply Z.leb_le in L1, L2.
          cbn [app]. rewrite !lex_plain_char by lia.
          replace (rev acc ++ c :: d :: s) with (rev (d :: c :: acc) ++ s)
            by (cbn [rev]; rewrite <- !app_assoc; reflexivity).
          apply IH; [cbn [List.length] in L; lia|].
          exact (Forall_inv_tail F').
        + rewrite <- app_assoc, lex_unicode_escape, <- R by assumption.
          apply IH; [lia|assumption]. }
    destruct (is_low_surrogate c) eqn:Lc; cbv iota.
    { rewrite <- app_assoc, lex_unicode_escape, <- R by assumption.
      apply IH; [lia|assumption]. }
    cbn [app]. rewrite lex_plain_char, <- R by lia.
    apply IH; [lia|assumption].
Qed.

(** A quoted string is one token: the string. *)
Lemma lex_string :
  forall s rest : jsstring,
    Forall code_unit s ->
    lex_from Between (QuoteJSONString s ++ rest)
    = option_map (cons (TStr s)) (lex_from Between rest).
Proof.
  intros s rest F. unfold QuoteJSONString.
  rewrite <- !app_assoc. cbn [app].
  rewrite (lex_silent_step Between (InString [])) by reflexivity.
  apply (lex_quote_body (List.length s) s (le_n _) F [] rest).
Qed.

(** ** JSON texts: punctuation, white space and items *)

Lemma lex_json_white :
  forall ws s : jsstring, json_white ws -> lex_from Between (ws ++ s) = lex_from Between s.
Proof.
  intros ws s W. induction W as [|c ws C W IH]; [reflexivity|].
  cbn [app]. rewrite (lex_silent_step Between Between); [exact IH|].
  cbn [lex_step]. unfold step_between. rewrite C. reflexivity.
Qed.

Lemma lex_punctuation :
  forall (c : Z) (t : token) (s : jsstring),
    punctuation c t ->
    lex_from Between (c :: s) = option_map (cons t) (lex_from Between s).
Proof.
  intros c t s P. unfold punctuation in P. cbn [In] in P.
  repeat (destruct P as [P|P]; [inversion P; subst; cbn; destruct (lex_from Between s); reflexivity|]).
  contradiction.
Qed.

Lemma lex_punctuation_app :
  forall (c : Z) (t : token) (s : jsstring),
    punctuation c t ->
    lex_from Between ([c] ++ s) = option_map (cons t) (lex_from Between s).
Proof. intros. apply lex_punctuation. assumption. Qed.

Lemma punctuation_delimits :
  forall (c : Z) (t : token) (s : jsstring), punctuation c t -> delimited (c :: s).
Proof.
  intros c t s P. unfold punctuation in P. cbn [In] in P.
  repeat (destruct P as [P|P]; [inversion P; subst; reflexivity|]). contradiction.
Qed.

Lemma json_white_delimits :
  forall (c : Z) (s : jsstring), is_json_space c = true -> delimited (c :: s).
Proof.
  intros c s H. cbn [delimited]. unfold is_json_space in H.
  repeat (apply orb_true_iff in H; destruct H as [H|H]);
    apply Z.eqb_eq in H; subst; reflexivity.
Qed.

(** Items with a comma, and white space or not, between one and the
    next. *)
Lemma lex_join :
  forall (items : list jsstring) (toks : list (list token)) (ws rest : jsstring),
    Forall2 reads_as items toks -> json_white ws -> delimited rest ->
    lex_from Between (join (44 :: ws) items ++ rest)
    = option_map (app (between_commas toks)) (lex_from Between rest).
Proof.
  intros items toks ws rest F W D. induction F as [|item tk items toks R F IH].
  - cbn. symmetry. apply option_map_app_nil.
  - destruct F as [|item' tk' items toks R' F].
    + cbn [join between_commas]. apply R. exact D.
    + change (join (44 :: ws) (item :: item' :: items))
        with (item ++ (44 :: ws) ++ join (44 :: ws) (item' :: items)).
      change (between_commas (tk :: tk' :: toks))
        with (tk ++ TComma :: between_commas (tk' :: toks)).
      rewrite <- !app_assoc. rewrite R by reflexivity.
      cbn [app]. rewrite (lex_punctuation 44 TComma) by (cbn; tauto).
      rewrite lex_json_white by exact W. rewrite IH.
      destruct (lex_from Between rest); cbn; [rewrite <- app_assoc|]; reflexivity.
Qed.

(** The text of an array or of an object, from what its items read as. *)
Lemma lex_wrap :
  forall (gap indent : jsstring) (co cc : Z) (to tc : token)
         (items : list jsstring) (toks : list (list token)) (rest : jsstring),
    json_white gap -> json_white indent ->
    punctuation co to -> punctuation cc tc ->
    Forall2 reads_as items toks ->
    lex_from Between (wrap gap indent [co] [cc] items ++ rest)
    = option_map (app (to :: between_commas toks ++ [tc])) (lex_from Between rest).
Proof.
  intros gap indent co cc to tc items toks rest G I Po Pc F.
  assert (NL : json_white [10]) by (repeat constructor).
  unfold wrap. destruct items as [|item items].
  - inversion F; subst. rewrite <- !app_assoc.
    rewrite (lex_punctuation_app co to), (lex_punctuation_app cc tc) by assumption.
    destruct (lex_from Between rest); reflexivity.
  - destruct gap as [|g gap].
    + change (str ",") with (44 :: @nil Z). rewrite <- !app_assoc.
      rewrite (lex_punctuation_app co to) by exact Po.
      rewrite (lex_join _ toks [] ([cc] ++ rest) F ltac:(constructor)
                 (punctuation_delimits cc tc rest Pc)).
      rewrite (lex_punctuation_app cc tc) by exact Pc.
      destruct (lex_from Between rest); cbn; [rewrite <- app_assoc|]; reflexivity.
    + set (inner := indent ++ g :: gap).
      assert (In1 : json_white inner) by (apply Forall_app; split; assumption).
      assert (In2 : json_white ([10] ++ inner)) by (apply Forall_app; split; assumption).
      change ([44; 10] ++ inner) with (44 :: ([10] ++ inner)).
      rewrite <- !app_assoc.
      rewrite (lex_punctuation_app co to) by exact Po.
      rewrite (lex_json_white [10]) by exact NL.
      rewrite (lex_json_white inner) by exact In1.
      rewrite (lex_join _ toks _ ([10] ++ indent ++ [cc] ++ rest) F In2
                 (json_white_delimits 10 _ eq_refl)).
      rewrite (lex_json_white [10]) by exact NL.
      rewrite (lex_json_white indent) by exact I.
      rewrite (lex_punctuation_app cc tc) by exact Pc.
      destruct (lex_from Between rest); cbn; [rewrite <- app_assoc|]; reflexivity.
Qed.

(** ** JSON texts: values *)

Lemma json_value_arr :
  forall l : list value, json_value (VArr l) <-> Forall json_value l.
Proof.
  intro l. cbn [json_value]. induction l as [|e l IH]; cbn [fold_right].
  - split; [constructor|trivial].
  - split.
    + intros [H1 H2]. constructor; [exact H1|apply IH; exact H2].
    + intro H. inversion H; subst. split; [assumption|apply IH; assumption].
Qed.

Lemma json_value_obj :
  forall l : list (jsstring * value),
    json_value (VObj l)
    <-> Forall (fun kv => Forall code_unit (fst kv) /\ json_value (snd kv)) l
        /\ in_property_order l.
Proof.
  intro l. cbn [json_value].
  assert (E : fold_right
                (fun kv rest => (Forall code_unit (fst kv) /\ json_value (snd kv)) /\ rest)
                True l
              <-> Forall (fun kv => Forall code_unit (fst kv) /\ json_value (snd kv)) l).
  { induction l as [|e l IH]; cbn [fold_right].
    - split; [constructor|trivial].
    - split.
      + intros [H1 H2]. constructor; [exact H1|apply IH; exact H2].
      + intro H. inversion H; subst. split; [assumption|apply IH; assumption]. }
  rewrite E. reflexivity.
Qed.

Lemma serialize_defined :
  forall (v : value) (gap indent : jsstring),
    json_value v -> exists text : jsstring, serialize gap indent v = Some text.
Proof.
  intros [ | | b | n | s | l | l] gap indent J; try contradiction;
    eexists; reflexivity.
Qed.

Lemma array_items_read :
  forall (gap inner : jsstring) (l : list value),
    Forall (fun e => json_value e
                     /\ forall text, serialize gap inner e = Some text ->
                                     reads_as text (tokens e)) l ->
    Forall2 reads_as
      (map (fun e => match serialize gap inner e with
                     | Some t => t
                     | None => str "null"
                     end) l)
      (map tokens l).
Proof.
  intros gap inner l F. induction F as [|e l [J R] F IH]; [constructor|].
  cbn [map]. constructor; [|exact IH].
  destruct (serialize_defined e gap inner J) as [t E]. rewrite E. apply R. exact E.
Qed.

Lemma object_items_read :
  forall (gap inner : jsstring) (l : list (jsstring * value)),
    json_white gap ->
    Forall (fun kv => Forall code_unit (fst kv) /\ json_value (snd kv)
                      /\ forall text, serialize gap inner (snd kv) = Some text ->
                                      reads_as text (tokens (snd kv))) l ->
    Forall2 reads_as
      (flat_map (fun kv =>
                   match serialize gap inner (snd kv) with
                   | Some t =>
                       [QuoteJSONString (fst kv) ++ str ":"
                        ++ (match gap with [] => [] | _ => str " " end) ++ t]
                   | None => []
                   end) l)
      (map (fun kv => TStr (fst kv) :: TColon :: tokens (snd kv)) l).
Proof.
  intros gap inner l G F. induction F as [|[k e] l (Jk & Je & R) F IH]; [constructor|].
  cbn [map flat_map fst snd] in *.
  destruct (serialize_defined e gap inner Je) as [t E].
  rewrite E. cbn [app]. constructor; [|exact IH].
  intros rest D. rewrite <- !app_assoc.
  rewrite lex_string by exact Jk.
  change (str ":") with (58 :: @nil Z).
  rewrite (lex_punctuation_app 58 TColon) by (cbn; tauto).
  rewrite lex_json_white by (destruct gap; repeat constructor).
  rewrite (R t E rest D).
  destruct (lex_from Between rest); reflexivity.
Qed.

(** The text of a JSON value is read as the tokens of the value. *)
Lemma lex_serialize :
  forall v : value,
    json_value v ->
    forall gap indent text : jsstring,
      json_white gap -> json_white indent ->
      serialize gap indent v = Some text -> reads_as text (tokens v).
Proof.
  induction v as [ | | b | n | s | l IH | l IH] using value_ind';
    intros J gap indent text G I S.
  - contradiction.
  - inversion S; subst. intros rest D.
    rewrite lex_word; [reflexivity|discriminate|repeat constructor|exact D].
  - inversion S; subst. intros rest D.
    destruct b; (rewrite lex_word; [reflexivity|discriminate|repeat constructor|exact D]).
  - cbn [serialize] in S. cbn [json_value] in J. pose proof J as [Fin P].
    rewrite Fin in S. inversion S; subst.
    intros rest D. rewrite lex_number by assumption. reflexivity.
  - inversion S; subst. intros rest D. cbn [json_value] in J.
    rewrite lex_string by exact J. reflexivity.
  - rewrite serialize_arr in S. inversion S; subst. clear S.
    apply json_value_arr in J. intros rest D.
    change (tokens (VArr l)) with (TLBracket :: between_commas (map tokens l) ++ [TRBracket]).
    assert (W : json_white (indent ++ gap)) by (apply Forall_app; split; assumption).
    apply (lex_wrap gap indent 91 93 TLBracket TRBracket _ (map tokens l));
      try assumption; try (cbn; tauto).
    apply array_items_read.
    rewrite Forall_forall in *. intros e He. split; [apply J; exact He|].
    intros text E. apply (IH e He (J e He) gap (indent ++ gap)); assumption.
  - rewrite serialize_obj in S. inversion S; subst. clear S.
    apply json_value_obj in J. destruct J as [J _]. intros rest D.
    change (tokens (VObj l))
      with (TLBrace
              :: between_commas (map (fun kv => TStr (fst kv) :: TColon :: tokens (snd kv)) l)
              ++ [TRBrace]).
    assert (W : json_white (indent ++ gap)) by (apply Forall_app; split; assumption).
    apply (lex_wrap gap indent 123 125 TLBrace TRBrace _
             (map (fun kv => TStr (fst kv) :: TColon :: tokens (snd kv)) l));
      try assumption; try (cbn; tauto).
    apply object_items_read; [exact G|].
    rewrite Forall_forall in *. intros kv Hkv. destruct (J kv Hkv) as [Jk Je].
    repeat split; try assumption.
    intros text E. apply (IH kv Hkv Je gap (indent ++ gap)); assumption.
Qed.

(** ** JSON texts: the grammar and the round trip *)

Lemma tokens_head :
  forall v : value,
    json_value v ->
    exists (t : token) (ts : list token),
      tokens v = t :: ts /\ t <> TRBracket /\ t <> TRBrace.
Proof.
  intros [ | | b | n | s | l | l] J; try contradiction;
    eexists; eexists; (split; [reflexivity|split; try discriminate]);
    destruct b; discriminate.
Qed.

Lemma parse_elements_tokens :
  forall l : list value,
    Forall parses l -> l <> [] ->
    forall (fuel : nat) (acc : list value) (r : list token),
      (elements_fuel l <= fuel)%nat ->
      parse_elements fuel (between_commas (map tokens l) ++ TRBracket :: r) acc
      = Some (VArr (rev acc ++ l), r).
Proof.
  intros l F. induction F as [|e l P F IH]; intros N fuel acc r B; [congruence|].
  cbn [elements_fuel fold_right] in B. fold (elements_fuel l) in B.
  destruct fuel as [|f]; [lia|]. cbn [parse_elements].
  destruct l as [|e' l'].
  - cbn [map between_commas]. rewrite P by lia. reflexivity.
  - change (between_commas (map tokens (e :: e' :: l')))
      with (tokens e ++ TComma :: between_commas (map tokens (e' :: l'))).
    rewrite <- app_assoc. cbn [app]. rewrite P by lia.
    rewrite IH by (congruence || lia).
    cbn [rev]. rewrite <- app_assoc. reflexivity.
Qed.

Lemma parse_members_tokens :
  forall l : list (jsstring * value),
    Forall (fun kv => parses (snd kv)) l -> l <> [] ->
    forall (fuel : nat) (acc : list (jsstring * value)) (r : list token),
      (members_fuel l <= fuel)%nat ->
      parse_members fuel (between_commas (map member_tokens l) ++ TRBrace :: r) acc
      = Some (VObj (fold_left (fun a kv => define a (fst kv) (snd kv)) l acc), r).
Proof.
  intros l F. induction F as [|[k e] l P F IH]; intros N fuel acc r B; [congruence|].
  cbn [members_fuel fold_right snd] in B. fold (members_fuel l) in B.
  cbn [snd] in P.
  destruct fuel as [|f]; [lia|]. cbn [parse_members].
  destruct l as [|kv' l'].
  - cbn [map between_commas member_tokens fst snd app]. rewrite P by lia. reflexivity.
  - change (between_commas (map member_tokens ((k, e) :: kv' :: l')))
      with ((TStr k :: TColon :: tokens e)
            ++ TComma :: between_commas (map member_tokens (kv' :: l'))).
    rewrite <- ?app_assoc. cbn [app]. rewrite <- ?app_assoc. cbn [app]. rewrite P by lia.
    rewrite IH by (congruence || lia). reflexivity.
Qed.

Lemma parse_value_array :
  forall (f : nat) (t : token) (ts : list token),
    t <> TRBracket ->
    parse_value (S f) (TLBracket :: t :: ts) = parse_elements f (t :: ts) [].
Proof. intros f t ts N. destruct t; try congruence; reflexivity. Qed.

Lemma between_commas_head :
  forall (A : Type) (f : A -> list token) (a : A) (l : list A) (t : token) (ts r : list token),
    f a = t :: ts ->
    exists rest : list token, between_commas (map f (a :: l)) ++ r = t :: rest.
Proof.
  intros A f a l t ts r E. destruct l as [|b l]; cbn [map between_commas]; rewrite E.
  - eexists. reflexivity.
  - eexists. rewrite <- app_assoc. reflexivity.
Qed.

(** The tokens of a JSON value parse to the value. *)
Lemma parse_tokens :
  forall v : value, json_value v -> parses v.
Proof.
  induction v as [ | | b | n | s | l IH | l IH] using value_ind'; intros J fuel r B;
    try contradiction;
    try (destruct fuel as [|f]; [cbn in B; lia|]; try destruct b; reflexivity).
  - apply json_value_arr in J.
    cbn [fuel_of] in B. fold (elements_fuel l) in B.
    destruct fuel as [|f]; [lia|].
    destruct l as [|e l]; [reflexivity|].
    assert (P : Forall parses (e :: l)).
    { rewrite Forall_forall in *. intros x Hx. apply IH; [exact Hx|apply J; exact Hx]. }
    pose proof (parse_elements_tokens (e :: l) P ltac:(discriminate) f [] r ltac:(lia)) as E.
    destruct (tokens_head e (Forall_inv J)) as (t & ts & Et & N1 & N2).
    change (tokens (VArr (e :: l)))
      with (TLBracket :: between_commas (map tokens (e :: l)) ++ [TRBracket]).
    cbn [app]. rewrite <- app_assoc. cbn [app].
    destruct (between_commas_head _ tokens e l t ts (TRBracket :: r) Et) as [rest Er].
    rewrite Er in *. rewrite parse_value_array by exact N1. exact E.
  - apply json_value_obj in J. destruct J as [J O].
    cbn [fuel_of] in B. fold (members_fuel l) in B.
    destruct fuel as [|f]; [lia|].
    destruct l as [|[k e] l]; [reflexivity|].
    assert (P : Forall (fun kv => parses (snd kv)) ((k, e) :: l)).
    { rewrite Forall_forall in *. intros x Hx. apply IH; [exact Hx|apply J; exact Hx]. }
    pose proof (parse_members_tokens ((k, e) :: l) P ltac:(discriminate) f [] r ltac:(lia)) as E.
    unfold in_property_order in O. rewrite O in E.
    change (tokens (VObj ((k, e) :: l)))
      with (TLBrace :: between_commas (map member_tokens ((k, e) :: l)) ++ [TRBrace]).
    cbn [app]. rewrite <- app_assoc. cbn [app].
    destruct (between_commas_head _ member_tokens (k, e) l (TStr k) (TColon :: tokens e)
                (TRBrace :: r) eq_refl) as [rest Er].
    rewrite Er in *. exact E.
Qed.

Lemma fuel_of_tokens :
  forall v : value, (fuel_of v <= 2 * List.length (tokens v))%nat.
Proof.
  induction v as [ | | b | n | s | l IH | l IH] using value_ind'; try (cbn; lia).
  - cbn [fuel_of tokens List.length]. rewrite length_app. cbn [List.length].
    assert (G : (fold_right (fun e a => S (fuel_of e + a)) 0 l
                 <= 2 * List.length (between_commas (map tokens l)) + 2)%nat).
    { induction IH as [|e l He IH IHl]; [cbn; lia|].
      destruct l as [|e' l'].
      - cbn [fold_right map between_commas]. lia.
      - cbn [fold_right map between_commas] in *. rewrite length_app.
        cbn [List.length]. lia. }
    lia.
  - cbn [fuel_of tokens List.length]. rewrite length_app. cbn [List.length].
    assert (G : (fold_right (fun kv a => S (fuel_of (snd kv) + a)) 0 l
                 <= 2 * List.length
                          (between_commas
                             (map (fun kv => TStr (fst kv) :: TColon :: tokens (snd kv)) l))
                    + 2)%nat).
    { induction IH as [|e l He IH IHl]; [cbn; lia|].
      destruct l as [|e' l'].
      - cbn [fold_right map between_commas List.length]. lia.
      - cbn [fold_right map between_commas] in *. rewrite length_app.
        cbn [List.length]. lia. }
    lia.
Qed.

(** Round trip: the text [JSON.stringify] writes for a JSON value, at any
    indentation of white space, is parsed by [JSON.parse] to that value. *)
Lemma JSON_parse_serialize :
  forall (v : value) (gap indent : jsstring),
    json_value v -> json_white gap -> json_white indent ->
    exists text : jsstring,
      serialize gap indent v = Some text /\ JSON_parse text = Ok v.
Proof.
  intros v gap indent J G Hi.
  destruct (serialize_defined v gap indent J) as [text S].
  exists text. split; [exact S|].
  pose proof (lex_serialize v J gap indent text G Hi S [] I) as L.
  rewrite app_nil_r in L. cbn [lex_from lex_end option_map] in L. rewrite app_nil_r in L.
  unfold JSON_parse. rewrite L.
  pose proof (parse_tokens v J (2 * List.length (tokens v) + 2)%nat []) as P.
  rewrite app_nil_r in P. rewrite P; [reflexivity|].
  pose proof (fuel_of_tokens v). lia.
Qed.

(** Decides that a literal is made of code units. *)
Ltac code_units :=
  match goal with
  | |- Forall code_unit ?s =>
      let s' := eval vm_compute in s in change (Forall code_unit s')
  end;
  repeat (apply Forall_cons; [unfold code_unit; lia|]); apply Forall_nil.

(** Decides that a closed value is a JSON value. *)
Ltac json_value_holds :=
  match goal with
  | |- json_value ?v => let v' := eval vm_compute in v in change (json_value v')
  end;
  cbn [json_value fold_right fst snd]; unfold prints_back, in_property_order;
  repeat split; try code_units; vm_compute; reflexivity.

Lemma two_spaces_white : json_white (str "  ").
Proof. repeat constructor. Qed.

(** ** The parse action to its end *)

Lemma parse_click_suspends :
  forall (st : state) (f : file),
    docxFile (dom st) = Some f ->
    let st1 := parseBtn_click st in
    tasks st1 = tasks st ++ [{| task_id := next_id st; task_handler := ParseHandler;
                                task_stage := AwaitFetch |}]
    /\ next_id st1 = S (next_id st)
    /\ currentPortfolioJSON st1 = currentPortfolioJSON st
    /\ jsonInput (dom st1) = jsonInput (dom st)
    /\ parseStatus (dom st1) = parsing_status
    /\ requests st1 = requests st ++ [parse_request f]
    /\ rendered st1 = rendered st
    /\ console st1 = console st /\ alerts st1 = alerts st.
Proof.
  intros st f Hf st1. unfold st1, parseBtn_click. rewrite Hf. cbn. repeat split.
Qed.

(** X1: a parse attempt answered by a success status and a JSON body
    stores the [portfolio] field of the body, whatever it is, as the
    current portfolio, shows its text at an indentation of two spaces in
    the JSON editor ([undefined] when the body has no such field), sets
    the parse status to the success message in the plain style and has
    sent exactly one request: a POST of the document under the field
    [file] to [/parse-docx].  Nothing is logged or alerted, nothing
    rendered changes, and no handler is left in flight. *)
Theorem parse_success_stores_and_mirrors :
  forall (st : state) (f : file) (code : Z) (data v : value),
    docxFile (dom st) = Some f ->
    ids_fresh st ->
    is_success code = true ->
    get data (str "portfolio") = Ok v ->
    exists st' : state,
      run st (Click parseBtn :: outcome_events (next_id st) (BodyJson code data)) = Some st'
      /\ currentPortfolioJSON st' = v
      /\ jsonInput (dom st') = DOMString (JSON_stringify_2 v)
      /\ parseStatus (dom st') = parse_succeeded_status
      /\ requests st' = requests st ++ [parse_request f]
      /\ tasks st' = tasks st
      /\ console st' = console st /\ alerts st' = alerts st
      /\ rendered st' = rendered st.
Proof.
  intros st f code data v Hf Hfresh Hcode Hget.
  destruct (parse_click_suspends st f Hf) as (E1 & _ & Sp & Sj & _ & Sr & Sd & Sc & Sa).
  set (st1 := parseBtn_click st) in *.
  assert (R : forall evs, run st (Click parseBtn :: evs) = run st1 evs) by reflexivity.
  cbn [outcome_events]. rewrite R. cbn [run].
  rewrite (step_fetch_settled_last st1 (tasks st) (next_id st) ParseHandler _ E1 Hfresh).
  read_status Hcode.
  erewrite step_json_settled_last; [|reflexivity|exact Hfresh].
  eexists; split; [reflexivity|].
  unfold parse_json_settled, try_catch, bind, eval, exec. rewrite Hget.
  cbn. unfold rendered in *. cbn. repeat split; assumption.
Qed.

Lemma parse_success_stores_and_mirrors_witness :
  exists st' : state,
    run loaded_state
      (Click parseBtn :: outcome_events 0 (BodyJson 200 parse_response_body)) = Some st'
    /\ currentPortfolioJSON st' = sample_portfolio
    /\ jsonInput (dom st') = DOMString (JSON_stringify_2 sample_portfolio)
    /\ parseStatus (dom st') = parse_succeeded_status
    /\ requests st' = [parse_request sample_file]
    /\ tasks st' = []
    /\ console st' = [] /\ alerts st' = [str "Portfolio JSON loaded."]
    /\ rendered st' = rendered loaded_state.
Proof.
  apply (parse_success_stores_and_mirrors loaded_state sample_file 200
           parse_response_body sample_portfolio).
  - reflexivity.
  - constructor.
  - reflexivity.
  - reflexivity.
Defined.

(** X2: a failed parse attempt logs exactly the error its [try] block
    threw, once, to the console: the rejection of [fetch] or of
    [r.json()], the TypeError of reading [portfolio] off [null], or, for a
    status that is not a success, an Error whose message is
    [Parse failed: ] followed by the decimal digits of the status.  It
    alerts nothing, has sent its one request and leaves what is rendered
    as it was. *)
Theorem parse_failure_is_logged :
  forall (st : state) (f : file) (o : outcome),
    docxFile (dom st) = Some f ->
    ids_fresh st ->
    parse_fails o ->
    three_digit_status o ->
    exists (st' : state) (e : exn),
      run st (Click parseBtn :: outcome_events (next_id st) o) = Some st'
      /\ parse_throws o e
      /\ console st' = console st ++ [e]
      /\ alerts st' = alerts st
      /\ requests st' = requests st ++ [parse_request f]
      /\ rendered st' = rendered st.
Proof.
  intros st f o Hf Hfresh Hfail Hcode.
  destruct (parse_click_suspends st f Hf) as (E1 & _ & Sp & Sj & _ & Sr & Sd & Sc & Sa).
  set (st1 := parseBtn_click st) in *.
  assert (R : forall evs, run st (Click parseBtn :: evs) = run st1 evs) by reflexivity.
  destruct o as [e | code | code e | code data]; cbn [outcome_events];
    rewrite R; cbn [run];
    rewrite (step_fetch_settled_last st1 (tasks st) (next_id st) ParseHandler _ E1 Hfresh).
  - exists (parse_fetch_settled (next_id st) (Rejected e) (set_tasks (tasks st) st1)), e.
    split; [reflexivity|]. unfold rendered in *. cbn. rewrite Sc. repeat split; assumption.
  - read_status Hfail. cbn [status].
    rewrite Number_toString_of_Z
      by (unfold three_digit_status in Hcode; cbn in Hcode;
          change (10 ^ 15) with 1000000000000000; lia).
    eexists; eexists; split; [reflexivity|].
    unfold rendered in *. cbn. rewrite Sc. repeat split; assumption.
  - read_status Hfail.
    erewrite step_json_settled_last; [|reflexivity|exact Hfresh].
    eexists; exists e; split; [reflexivity|].
    unfold rendered in *. cbn. rewrite Sc. repeat split; assumption.
  - destruct Hfail as [Hok [e He]]. read_status Hok.
    erewrite step_json_settled_last; [|reflexivity|exact Hfresh].
    eexists; exists e; split; [reflexivity|].
    unfold parse_json_settled, try_catch, bind, eval. rewrite He.
    unfold rendered in *. cbn. rewrite Sc. repeat split; assumption.
Qed.

Lemma parse_failure_is_logged_witness :
  exists (st' : state) (e : exn),
    run loaded_state (Click parseBtn :: outcome_events 0 (HttpError 404)) = Some st'
    /\ e = Error (str "Parse failed: 404")
    /\ console st' = [e]
    /\ alerts st' = [str "Portfolio JSON loaded."]
    /\ requests st' = [parse_request sample_file]
    /\ rendered st' = rendered loaded_state.
Proof.
  apply (parse_failure_is_logged loaded_state sample_file (HttpError 404)).
  - reflexivity.
  - constructor.
  - reflexivity.
  - unfold three_digit_status. cbn. lia.
Defined.

Lemma take_first_task :
  forall (a : nat) (h : handler) (sg : stage) (ts : list task) (t : task),
    Forall (fun t => (task_id t < a)%nat) ts ->
    take_task a sg (ts ++ [{| task_id := a; task_handler := h; task_stage := sg |}; t])
    = Some (h, ts ++ [t]).
Proof.
  intros a h sg ts t F. rewrite (take_task_skip a sg _ _ F). cbn.
  rewrite Nat.eqb_refl. destruct sg; reflexivity.
Qed.

Lemma take_second_task :
  forall (a b : nat) (h : handler) (sg : stage) (ts : list task) (t : task),
    Forall (fun t => (task_id t < b)%nat) ts ->
    task_id t <> b ->
    take_task b sg (ts ++ [t; {| task_id := b; task_handler := h; task_stage := sg |}])
    = Some (h, ts ++ [t]).
Proof.
  intros a b h sg ts t F N. rewrite (take_task_skip b sg _ _ F). cbn.
  apply Nat.eqb_neq in N. rewrite N, Nat.eqb_refl. destruct sg; reflexivity.
Qed.

Lemma parse_json_settled_stores :
  forall (data v : value) (st : state),
    get data (str "portfolio") = Ok v ->
    parse_json_settled (Fulfilled data) st = parsed v st.
Proof.
  intros data v st H. unfold parse_json_settled, try_catch, bind, eval, exec.
  rewrite H. reflexivity.
Qed.

Lemma parse_fetch_ok_step :
  forall (st : state) (id : nat) (rest : list task),
    take_task id AwaitFetch (tasks st) = Some (ParseHandler, rest) ->
    step st (FetchSettled id ok200)
    = Some (await_json id ParseHandler (set_tasks rest st)).
Proof. intros st id rest E. cbn [step]. rewrite E. reflexivity. Qed.

Lemma parse_json_step :
  forall (st : state) (id : nat) (rest : list task) (data v : value),
    take_task id AwaitJson (tasks st) = Some (ParseHandler, rest) ->
    get data (str "portfolio") = Ok v ->
    step st (JsonSettled id (Fulfilled data)) = Some (parsed v (set_tasks rest st)).
Proof.
  intros st id rest data v E G. cbn [step]. rewrite E.
  rewrite (parse_json_settled_stores data v _ G). reflexivity.
Qed.

(** X3: the parse handler carries no sequence token either.  With two
    parse requests in flight, each body is stored when it arrives, so the
    current portfolio and the editor text end as those of the body that
    arrived last: of the second request when the bodies arrive in the
    order of the requests, of the first request when they arrive in the
    opposite order. *)
Theorem last_parsed_body_wins :
  forall (st : state) (f : file) (d1 d2 v1 v2 : value),
    docxFile (dom st) = Some f ->
    ids_fresh st ->
    get d1 (str "portfolio") = Ok v1 ->
    get d2 (str "portfolio") = Ok v2 ->
    let a := next_id st in
    let b := S a in
    (exists st' : state,
       run st (both_parses_in_flight a b
                 ++ [JsonSettled a (Fulfilled d1); JsonSettled b (Fulfilled d2)]) = Some st'
       /\ currentPortfolioJSON st' = v2
       /\ jsonInput (dom st') = DOMString (JSON_stringify_2 v2)
       /\ tasks st' = tasks st)
    /\ (exists st' : state,
          run st (both_parses_in_flight a b
                    ++ [JsonSettled b (Fulfilled d2); JsonSettled a (Fulfilled d1)]) = Some st'
          /\ currentPortfolioJSON st' = v1
          /\ jsonInput (dom st') = DOMString (JSON_stringify_2 v1)
          /\ tasks st' = tasks st).
Proof.
  intros st f d1 d2 v1 v2 Hf F G1 G2 a b.
  destruct (parse_click_suspends st f Hf) as (E1 & N1 & _).
  set (st1 := parseBtn_click st) in *.
  assert (Hf1 : docxFile (dom st1) = Some f).
  { unfold st1, parseBtn_click. rewrite Hf. exact Hf. }
  destruct (parse_click_suspends st1 f Hf1) as (E2 & _).
  set (st2 := parseBtn_click st1) in *.
  rewrite E1, N1 in E2. rewrite <- app_assoc in E2. cbn [app] in E2. fold a b in E2.
  assert (Nab : a <> b) by (unfold b; lia).
  assert (Fb : Forall (fun t => (task_id t < b)%nat) (tasks st)).
  { eapply Forall_impl; [|exact F]. cbn. unfold b, a. intros; lia. }
  assert (R : exists s4 : state,
            tasks s4 = tasks st ++ [ {| task_id := a; task_handler := ParseHandler;
                                        task_stage := AwaitJson |};
                                     {| task_id := b; task_handler := ParseHandler;
                                        task_stage := AwaitJson |} ]
            /\ forall evs, run st (both_parses_in_flight a b ++ evs) = run s4 evs).
  { eexists. split; [|intro evs; unfold both_parses_in_flight; cbn [app];
                      change (run st (Click parseBtn :: Click parseBtn :: ?l)) with (run st2 l);
                      erewrite run_step;
                      [|apply parse_fetch_ok_step; rewrite E2; apply take_first_task; exact F];
                      erewrite run_step;
                      [reflexivity
                      |apply parse_fetch_ok_step; cbn [await_json set_tasks tasks];
                       rewrite <- app_assoc; cbn [app];
                       apply (take_first_task b); exact Fb]].
    cbn [await_json set_tasks tasks]. rewrite <- app_assoc. reflexivity. }
  destruct R as (s4 & E4 & R).
  split; rewrite R; clear R.
  - erewrite run_step;
      [|eapply parse_json_step;
        [rewrite E4; apply (take_first_task a); exact F|exact G1]].
    erewrite run_step;
      [|eapply parse_json_step;
        [cbn [parsed setStatus set_dom set_currentPortfolioJSON set_tasks tasks];
         apply take_task_last; exact Fb|exact G2]].
    eexists. split; [reflexivity|]. cbn. repeat split.
  - erewrite run_step;
      [|eapply parse_json_step;
        [rewrite E4; apply (take_second_task a b); [exact Fb|exact Nab]|exact G2]].
    erewrite run_step;
      [|eapply parse_json_step;
        [cbn [parsed setStatus set_dom set_currentPortfolioJSON set_tasks tasks];
         apply take_task_last; exact F|exact G1]].
    eexists. split; [reflexivity|]. cbn. repeat split.
Qed.

Lemma last_parsed_body_wins_witness :
  (exists st' : state,
     run loaded_state
       (both_parses_in_flight 0 1
          ++ [JsonSettled 0 (Fulfilled parse_response_body);
              JsonSettled 1 (Fulfilled (VObj [(str "portfolio", VObj [])]))]) = Some st'
     /\ currentPortfolioJSON st' = VObj []
     /\ jsonInput (dom st') = DOMString (JSON_stringify_2 (VObj []))
     /\ tasks st' = [])
  /\ (exists st' : state,
        run loaded_state
          (both_parses_in_flight 0 1
             ++ [JsonSettled 1 (Fulfilled (VObj [(str "portfolio", VObj [])]));
                 JsonSettled 0 (Fulfilled parse_response_body)]) = Some st'
        /\ currentPortfolioJSON st' = sample_portfolio
        /\ jsonInput (dom st') = DOMString (JSON_stringify_2 sample_portfolio)
        /\ tasks st' = []).
Proof.
  apply (last_parsed_body_wins loaded_state sample_file parse_response_body
           (VObj [(str "portfolio", VObj [])]) sample_portfolio (VObj [])).
  - reflexivity.
  - constructor.
  - reflexivity.
  - reflexivity.
Defined.

(** X4: round trip through the editor.  After a successful parse of a
    portfolio that is a JSON value, the text in the editor is
    [JSON.stringify(portfolio, null, 2)], [JSON.parse] of that text is
    the portfolio, and a click on the load button right away stores the
    same portfolio again and shows the success notice. *)
Theorem parsed_portfolio_reloads :
  forall (st : state) (f : file) (code : Z) (data v : value),
    docxFile (dom st) = Some f ->
    ids_fresh st ->
    is_success code = true ->
    get data (str "portfolio") = Ok v ->
    json_value v ->
    exists (st' : state) (text : jsstring),
      run st (Click parseBtn :: outcome_events (next_id st) (BodyJson code data)
                ++ [Click useJsonBtn]) = Some st'
      /\ JSON_stringify_2 v = Some text
      /\ jsonInput (dom st') = text
      /\ JSON_parse text = Ok v
      /\ currentPortfolioJSON st' = v
      /\ alerts st' = alerts st ++ [json_loaded].
Proof.
  intros st f code data v Hf Hfresh Hcode Hget J.
  destruct (JSON_parse_serialize v (str "  ") [] J two_spaces_white ltac:(constructor))
    as (text & S & P).
  destruct (parse_click_suspends st f Hf) as (E1 & _ & Sp & Sj & _ & Sr & Sd & Sc & Sa).
  set (st1 := parseBtn_click st) in *.
  assert (R : forall evs, run st (Click parseBtn :: evs) = run st1 evs) by reflexivity.
  cbn [outcome_events app]. rewrite R. cbn [run].
  rewrite (step_fetch_settled_last st1 (tasks st) (next_id st) ParseHandler _ E1 Hfresh).
  read_status Hcode.
  erewrite step_json_settled_last; [|reflexivity|exact Hfresh].
  unfold parse_json_settled, try_catch, bind, eval, exec. rewrite Hget.
  cbn [step]. unfold useJsonBtn_click.
  cbn [dom set_dom setStatus set_element set_parseStatus jsonInput set_jsonInput
       currentPortfolioJSON set_currentPortfolioJSON].
  unfold JSON_stringify_2 in *. rewrite S. cbn [DOMString].
  rewrite (JSON_parse_trim _ _ P).
  eexists; exists text; split; [reflexivity|].
  cbn. rewrite Sa. repeat split; assumption.
Qed.

Lemma parsed_portfolio_reloads_witness :
  json_value sample_portfolio
  /\ exists (st' : state) (text : jsstring),
       run loaded_state
         (Click parseBtn :: outcome_events 0 (BodyJson 200 parse_response_body)
            ++ [Click useJsonBtn]) = Some st'
       /\ JSON_stringify_2 sample_portfolio = Some text
       /\ jsonInput (dom st') = text
       /\ JSON_parse text = Ok sample_portfolio
       /\ currentPortfolioJSON st' = sample_portfolio
       /\ alerts st' = [str "Portfolio JSON loaded."; json_loaded].
Proof.
  assert (J : json_value sample_portfolio) by json_value_holds.
  split; [exact J|].
  apply (parsed_portfolio_reloads loaded_state sample_file 200
           parse_response_body sample_portfolio).
  - reflexivity.
  - constructor.
  - reflexivity.
  - reflexivity.
  - exact J.
Defined.

(** ** The JSON editor *)

(** X5: an editor text of white space only, the empty text included, is
    rejected: the load action shows the rejection notice and changes
    nothing else.  In particular the load button clicked right after the
    clear button is answered by the rejection notice, and the portfolio
    stays [null]. *)
Theorem blank_text_is_rejected :
  (forall st : state,
     white (jsonInput (dom st)) ->
     step st (Click useJsonBtn) = Some (alert json_rejected st))
  /\ (forall st : state,
        run st [Click clearJsonBtn; Click useJsonBtn]
        = Some (alert json_rejected (clearJsonBtn_click st))
        /\ currentPortfolioJSON (alert json_rejected (clearJsonBtn_click st)) = VNull).
Proof.
  split.
  - intros st W. cbn [step]. unfold useJsonBtn_click. rewrite (trim_white _ W). reflexivity.
  - intro st. split; reflexivity.
Qed.

Lemma blank_text_is_rejected_witness :
  step (with_text ([32; 10; 160])) (Click useJsonBtn)
  = Some (alert json_rejected (with_text ([32; 10; 160]))).
Proof.
  apply (proj1 blank_text_is_rejected (with_text ([32; 10; 160]))).
  repeat constructor.
Defined.

(** ** The request of the simulate action *)

Lemma truthy_serializes :
  forall (v : value) (gap indent : jsstring),
    ToBoolean v = true -> exists text : jsstring, serialize gap indent v = Some text.
Proof.
  intros [ | | b | n | s | l | l] gap indent T; try discriminate; eexists; reflexivity.
Qed.

Lemma Number_or_writes :
  forall (text : jsstring) (n fallback : Z), writes text n -> Number_or text fallback = of_Z n.
Proof.
  intros text n fallback (B & ws1 & ws2 & W1 & W2 & ->).
  unfold Number_or.
  assert (T : ToBoolean (VStr (ws1 ++ decimal_digits n ++ ws2)) = true).
  { pose proof (decimal_digits_nonempty n ltac:(lia)) as N.
    destruct ws1; [destruct (decimal_digits n); [congruence|reflexivity]|reflexivity]. }
  rewrite T. cbn [ToNumber]. apply StringToNumber_digits; [assumption|assumption|lia].
Qed.

Lemma serialize_payload :
  forall (p : value) (ptext : jsstring) (n s : number),
    serialize [] [] p = Some ptext ->
    JSON_stringify (VObj [ (str "portfolio", p); (str "n_paths", VNum n);
                           (str "seed", VNum s) ])
    = Some (simulate_body ptext
              (if is_finite n then Number_toString n else str "null")
              (if is_finite s then Number_toString s else str "null")).
Proof.
  intros p ptext n s Hp. unfold JSON_stringify. rewrite serialize_obj.
  cbn [flat_map fst snd app]. rewrite Hp. cbn [serialize app].
  unfold simulate_body, wrap. f_equal.
  cbn [join]. change (QuoteJSONString (str "portfolio")) with ([34] ++ str "portfolio" ++ [34]).
  change (QuoteJSONString (str "n_paths")) with ([34] ++ str "n_paths" ++ [34]).
  change (QuoteJSONString (str "seed")) with ([34] ++ str "seed" ++ [34]).
  rewrite <- !app_assoc. reflexivity.
Qed.

Lemma simulate_payload_entries :
  forall st : state,
    simulate_payload st
    = VObj [ (str "portfolio", currentPortfolioJSON st);
             (str "n_paths", VNum (Number_or (nPaths (dom st)) 10000));
             (str "seed", VNum (Number_or (seed (dom st)) 42)) ].
Proof. reflexivity. Qed.

(** X6: natural numbers typed into the two inputs are sent as typed.
    When the path-count text is the decimal digits of [n] and the seed
    text those of [s], both below [10^15] and each with white space
    around it or not, the payload holds the numbers [n] and [s] and the
    body of the request is the text
    [{"portfolio":P,"n_paths":N,"seed":S}] with [P] the text of the
    portfolio and [N], [S] the decimal digits of [n] and [s]. *)
Theorem typed_integers_are_sent :
  forall (st : state) (n s : Z),
    ToBoolean (currentPortfolioJSON st) = true ->
    writes (nPaths (dom st)) n ->
    writes (seed (dom st)) s ->
    exists ptext : jsstring,
      JSON_stringify (currentPortfolioJSON st) = Some ptext
      /\ simulate_payload st
         = VObj [ (str "portfolio", currentPortfolioJSON st);
                  (str "n_paths", VNum (of_Z n)); (str "seed", VNum (of_Z s)) ]
      /\ requests (simulateBtn_click st)
         = requests st
           ++ [simulate_request (simulate_body ptext (decimal_digits n) (decimal_digits s))].
Proof.
  intros st n s T Wn Ws.
  destruct (truthy_serializes _ [] [] T) as [ptext Hp].
  exists ptext. split; [exact Hp|].
  assert (P : simulate_payload st
              = VObj [ (str "portfolio", currentPortfolioJSON st);
                       (str "n_paths", VNum (of_Z n)); (str "seed", VNum (of_Z s)) ]).
  { unfold simulate_payload.
    rewrite (Number_or_writes _ n 10000 Wn), (Number_or_writes _ s 42 Ws). reflexivity. }
  split; [exact P|].
  unfold simulateBtn_click. rewrite T. cbn [negb]. rewrite P.
  rewrite (serialize_payload _ ptext _ _ Hp).
  rewrite !of_Z_finite, !Number_toString_of_Z by (apply Wn || apply Ws).
  reflexivity.
Qed.

Lemma typed_integers_are_sent_witness :
  exists ptext : jsstring,
    JSON_stringify (currentPortfolioJSON (with_inputs (str " 5000 ") (str "7"))) = Some ptext
    /\ simulate_payload (with_inputs (str " 5000 ") (str "7"))
       = VObj [ (str "portfolio", VObj []);
                (str "n_paths", VNum (of_Z 5000)); (str "seed", VNum (of_Z 7)) ]
    /\ requests (simulateBtn_click (with_inputs (str " 5000 ") (str "7")))
       = [simulate_request (simulate_body ptext (str "5000") (str "7"))].
Proof.
  apply (typed_integers_are_sent (with_inputs (str " 5000 ") (str "7")) 5000 7).
  - reflexivity.
  - split; [vm_compute; split; [discriminate|reflexivity]|].
    exists (str " "), (str " "). repeat split; try (repeat constructor).
  - split; [vm_compute; split; [discriminate|reflexivity]|].
    exists [], []. repeat split; try (repeat constructor).
Defined.

(** X7: a path-count text of white space only is not empty, so the
    default does not apply: the text coerces to zero and the request
    carries [n_paths] as [0]. *)
Theorem blank_input_is_zero :
  forall (st : state) (c : Z) (ws : jsstring),
    ToBoolean (currentPortfolioJSON st) = true ->
    white (c :: ws) ->
    nPaths (dom st) = c :: ws ->
    get (simulate_payload st) (str "n_paths") = Ok (VNum (S754_zero false))
    /\ exists (ptext stext : jsstring),
         requests (simulateBtn_click st)
         = requests st ++ [simulate_request (simulate_body ptext (str "0") stext)].
Proof.
  intros st c ws T W E.
  assert (N : Number_or (nPaths (dom st)) 10000 = S754_zero false).
  { unfold Number_or. rewrite E. cbn [ToBoolean ToNumber]. apply StringToNumber_white. exact W. }
  assert (P : simulate_payload st
              = VObj [ (str "portfolio", currentPortfolioJSON st);
                       (str "n_paths", VNum (S754_zero false));
                       (str "seed", VNum (Number_or (seed (dom st)) 42)) ]).
  { unfold simulate_payload. rewrite N. reflexivity. }
  split; [rewrite P; reflexivity|].
  destruct (truthy_serializes _ [] [] T) as [ptext Hp].
  exists ptext. eexists.
  unfold simulateBtn_click. rewrite T. cbn [negb]. rewrite P.
  rewrite (serialize_payload _ ptext _ _ Hp). reflexivity.
Qed.

Lemma blank_input_is_zero_witness :
  get (simulate_payload (with_inputs (str "  ") [])) (str "n_paths")
  = Ok (VNum (S754_zero false))
  /\ exists (ptext stext : jsstring),
       requests (simulateBtn_click (with_inputs (str "  ") []))
       = [simulate_request (simulate_body ptext (str "0") stext)].
Proof.
  apply (blank_input_is_zero (with_inputs (str "  ") []) 32 (str " ")).
  - reflexivity.
  - repeat constructor.
  - reflexivity.
Defined.

(** X8: the body of the simulate request denotes the payload.  When the
    current portfolio is a JSON value and the two run parameters are
    numbers that print back, [JSON.parse] of the body that is sent is the
    object of the three entries [portfolio], [n_paths] and [seed], in
    this order, with the current portfolio and the two numbers. *)
Theorem simulate_body_denotes_payload :
  forall st : state,
    ToBoolean (currentPortfolioJSON st) = true ->
    json_value (currentPortfolioJSON st) ->
    prints_back (Number_or (nPaths (dom st)) 10000) ->
    prints_back (Number_or (seed (dom st)) 42) ->
    exists body : jsstring,
      requests (simulateBtn_click st) = requests st ++ [simulate_request body]
      /\ JSON_parse body
         = Ok (VObj [ (str "portfolio", currentPortfolioJSON st);
                      (str "n_paths", VNum (Number_or (nPaths (dom st)) 10000));
                      (str "seed", VNum (Number_or (seed (dom st)) 42)) ]).
Proof.
  intros st T J Pn Ps.
  set (payload := VObj [ (str "portfolio", currentPortfolioJSON st);
                         (str "n_paths", VNum (Number_or (nPaths (dom st)) 10000));
                         (str "seed", VNum (Number_or (seed (dom st)) 42)) ]).
  assert (Jp : json_value payload).
  { apply json_value_obj. split; [|reflexivity].
    repeat (apply Forall_cons; [split; [cbn [fst]; code_units|cbn [snd json_value]; assumption]|]).
    apply Forall_nil. }
  destruct (JSON_parse_serialize payload [] [] Jp ltac:(constructor) ltac:(constructor))
    as (body & S & P).
  exists body. split; [|exact P].
  unfold simulateBtn_click. rewrite T. cbn [negb].
  rewrite simulate_payload_entries. fold payload. unfold JSON_stringify. rewrite S.
  reflexivity.
Qed.

Lemma simulate_body_denotes_payload_witness :
  exists body : jsstring,
    requests (simulateBtn_click sample_loaded) = [simulate_request body]
    /\ JSON_parse body
       = Ok (VObj [ (str "portfolio", sample_portfolio);
                    (str "n_paths", VNum (of_Z 5000)); (str "seed", VNum (of_Z 42)) ]).
Proof.
  apply (simulate_body_denotes_payload sample_loaded).
  - reflexivity.
  - change (currentPortfolioJSON sample_loaded) with sample_portfolio. json_value_holds.
  - split; vm_compute; reflexivity.
  - split; vm_compute; reflexivity.
Defined.

(** ** The simulate action to its end *)

Lemma simulate_click_frame :
  forall st : state,
    ToBoolean (currentPortfolioJSON st) = true ->
    let st1 := simulateBtn_click st in
    console st1 = console st /\ alerts st1 = alerts st
    /\ jsonInput (dom st1) = jsonInput (dom st)
    /\ parseStatus (dom st1) = parseStatus (dom st)
    /\ docxFile (dom st1) = docxFile (dom st)
    /\ nPaths (dom st1) = nPaths (dom st) /\ seed (dom st1) = seed (dom st)
    /\ textContent (simSummary (dom st1)) = str "Simulating" ++ [ellipsis]
    /\ exists r : request, requests st1 = requests st ++ [r].
Proof.
  intros st T st1. unfold st1, simulateBtn_click. rewrite T. cbn.
  repeat split. eexists. reflexivity.
Qed.

(** X9: the success path of the simulate action.  A click with a
    portfolio loaded, answered by a success status and by a response of
    the data model, ends with the page showing exactly the rendering of
    that response: the summary, the indicators and both charts are
    replaced, the inputs, the editor and the parse status are as before.
    The current portfolio is unchanged, nothing is logged or alerted and
    no handler is left in flight. *)
Theorem simulate_success_renders :
  forall (st : state) (code : Z) (r : SimulationResponse),
    ToBoolean (currentPortfolioJSON st) = true ->
    ids_fresh st ->
    is_success code = true ->
    Z.of_nat (List.length (p50 r)) < 4294967296 ->
    exists st' : state,
      run st (Click simulateBtn
                :: outcome_events (next_id st) (BodyJson code (response_value r))) = Some st'
      /\ dom st' = rendered_page r (dom st)
      /\ currentPortfolioJSON st' = currentPortfolioJSON st
      /\ tasks st' = tasks st
      /\ console st' = console st /\ alerts st' = alerts st.
Proof.
  intros st code r T Hfresh Hcode B.
  destruct (simulate_click_suspends st T) as (E1 & _ & Sp & Sf & Sh & Sg & Scl).
  destruct (simulate_click_frame st T) as (Sc & Sa & Sj & Sps & Sd & Sn & Ss & _).
  set (st1 := simulateBtn_click st) in *.
  assert (R : forall evs, run st (Click simulateBtn :: evs) = run st1 evs) by reflexivity.
  cbn [outcome_events]. rewrite R. cbn [run].
  rewrite (step_fetch_settled_last st1 (tasks st) (next_id st) SimulateHandler _ E1 Hfresh).
  read_status Hcode.
  erewrite step_json_settled_last; [|reflexivity|exact Hfresh].
  unfold simulate_json_settled, try_catch. rewrite (renderResults_response r _ B).
  eexists; split; [reflexivity|]. cbn.
  repeat split; try assumption.
  unfold rendered_page. cbn. rewrite Sd, Sj, Sn, Ss, Sps, Scl. reflexivity.
Qed.

Lemma simulate_success_renders_witness :
  exists st' : state,
    run loaded_state
      (Click simulateBtn :: outcome_events 0 (BodyJson 200 (response_value sample_response)))
    = Some st'
    /\ dom st' = rendered_page sample_response (dom loaded_state)
    /\ currentPortfolioJSON st' = VObj []
    /\ tasks st' = []
    /\ console st' = [] /\ alerts st' = [str "Portfolio JSON loaded."].
Proof.
  apply (simulate_success_renders loaded_state 200 sample_response).
  - reflexivity.
  - constructor.
  - reflexivity.
  - reflexivity.
Defined.



(** X11: clearing the portfolio does not cancel a simulation in flight.
    When the clear button is clicked between the click on simulate and the
    arrival of the response, the response is rendered all the same: the
    page shows it although the current portfolio is [null] and the editor
    is empty; the request that was sent is the one of the click. *)
Theorem simulation_outlives_clear :
  forall (st : state) (code : Z) (r : SimulationResponse),
    ToBoolean (currentPortfolioJSON st) = true ->
    ids_fresh st ->
    is_success code = true ->
    Z.of_nat (List.length (p50 r)) < 4294967296 ->
    exists st' : state,
      run st (Click simulateBtn :: Click clearJsonBtn
                :: outcome_events (next_id st) (BodyJson code (response_value r))) = Some st'
      /\ currentPortfolioJSON st' = VNull
      /\ jsonInput (dom st') = []
      /\ rendered st' = rendered (set_dom (rendered_page r (dom st)) st)
      /\ requests st' = requests (simulateBtn_click st)
      /\ tasks st' = tasks st.
Proof.
  intros st code r T Hfresh Hcode B.
  destruct (simulate_click_suspends st T) as (E1 & _ & Sp & Sf & Sh & Sg & Scl).
  set (st1 := simulateBtn_click st) in *.
  assert (R : forall evs,
            run st (Click simulateBtn :: Click clearJsonBtn :: evs)
            = run (clearJsonBtn_click st1) evs) by reflexivity.
  cbn [outcome_events]. rewrite R. cbn [run].
  rewrite (step_fetch_settled_last (clearJsonBtn_click st1) (tasks st) (next_id st)
             SimulateHandler _ E1 Hfresh).
  read_status Hcode.
  erewrite step_json_settled_last; [|reflexivity|exact Hfresh].
  unfold simulate_json_settled, try_catch. rewrite (renderResults_response r _ B).
  eexists; split; [reflexivity|]. cbn.
  repeat split. unfold rendered, rendered_page. cbn. rewrite Scl. reflexivity.
Qed.

Lemma simulation_outlives_clear_witness :
  exists st' : state,
    run loaded_state
      (Click simulateBtn :: Click clearJsonBtn
         :: outcome_events 0 (BodyJson 200 (response_value sample_response))) = Some st'
    /\ currentPortfolioJSON st' = VNull
    /\ jsonInput (dom st') = []
    /\ rendered st' = rendered showing_sample
    /\ requests st' = requests (simulateBtn_click loaded_state)
    /\ tasks st' = [].
Proof.
  apply (simulation_outlives_clear loaded_state 200 sample_response).
  - reflexivity.
  - constructor.
  - reflexivity.
  - reflexivity.
Defined.

(** ** The terminal-wealth chart and failures of the renderer *)


(** X12: whenever rendering completes, the terminal-wealth chart holds
    three bar traces in the order P5, Median, P95, at the positions 0, 1
    and 2, each with the one value read off the summary ([p5_terminal],
    [median_terminal], [p95_terminal], not rounded), under the layout
    titled [Terminal Wealth Markers]. *)
Theorem terminal_markers_chart :
  forall (data : value) (st st' : state),
    renderResults data st = (st', Ok tt) ->
    exists s p5 median p95 : value,
      get data (str "summary") = Ok s
      /\ get s (str "p5_terminal") = Ok p5
      /\ get s (str "median_terminal") = Ok median
      /\ get s (str "p95_terminal") = Ok p95
      /\ histChart (dom st')
         = Some {| plot_data := VArr (hist_bars p5 median p95);
                   plot_layout := hist_layout; plot_config := plot_options |}
      /\ hist_bars p5 median p95
         = [ obj [ ("x", VArr [num 0]); ("y", VArr [p5]); ("type", VStr (str "bar"));
                   ("name", VStr (str "P5"));
                   ("marker", obj [("color", VStr (str "#aaa"))]) ];
             obj [ ("x", VArr [num 1]); ("y", VArr [median]); ("type", VStr (str "bar"));
                   ("name", VStr (str "Median"));
                   ("marker", obj [("color", VStr (str "#2196F3"))]) ];
             obj [ ("x", VArr [num 2]); ("y", VArr [p95]); ("type", VStr (str "bar"));
                   ("name", VStr (str "P95"));
                   ("marker", obj [("color", VStr (str "#aaa"))]) ] ]%string.
Proof.
  intros data st st' H.
  unfold renderResults, bind, eval, exec, Plotly_newPlot in H.
  step_cases; try rewrite terminal_bars in *; try discriminate.
  match goal with
  | E : Ok (hist_bars _ _ _) = Ok _ |- _ => inversion E; subst; clear E
  end.
  cbn in H. inversion H; subst. cbn [histChart dom set_dom set_histChart].
  do 4 eexists. repeat split; try eassumption; reflexivity.
Qed.

Lemma terminal_markers_chart_witness :
  exists s p5 median p95 : value,
    get (response_value sample_response) (str "summary") = Ok s
    /\ get s (str "p5_terminal") = Ok p5
    /\ get s (str "median_terminal") = Ok median
    /\ get s (str "p95_terminal") = Ok p95
    /\ histChart (dom (fst (renderResults (response_value sample_response) loaded_state)))
       = Some {| plot_data := VArr (hist_bars p5 median p95);
                 plot_layout := hist_layout; plot_config := plot_options |}
    /\ hist_bars p5 median p95
       = [ obj [ ("x", VArr [num 0]); ("y", VArr [p5]); ("type", VStr (str "bar"));
                 ("name", VStr (str "P5"));
                 ("marker", obj [("color", VStr (str "#aaa"))]) ];
           obj [ ("x", VArr [num 1]); ("y", VArr [median]); ("type", VStr (str "bar"));
                 ("name", VStr (str "Median"));
                 ("marker", obj [("color", VStr (str "#2196F3"))]) ];
           obj [ ("x", VArr [num 2]); ("y", VArr [p95]); ("type", VStr (str "bar"));
                 ("name", VStr (str "P95"));
                 ("marker", obj [("color", VStr (str "#aaa"))]) ] ]%string.
Proof.
  apply (terminal_markers_chart (response_value sample_response) loaded_state).
  vm_compute. reflexivity.
Defined.




(** ** Who writes what *)

Lemma renderResults_page_frame :
  forall (data : value) (st : state),
    let st' := fst (renderResults data st) in
    jsonInput (dom st') = jsonInput (dom st)
    /\ parseStatus (dom st') = parseStatus (dom st)
    /\ docxFile (dom st') = docxFile (dom st)
    /\ nPaths (dom st') = nPaths (dom st) /\ seed (dom st') = seed (dom st)
    /\ console st' = console st /\ alerts st' = alerts st.
Proof.
  intros data st. unfold renderResults, bind, eval, exec, Plotly_newPlot.
  step_cases; cbn; repeat split.
Qed.

Lemma simulate_json_settled_frame :
  forall (r : settled value) (st : state),
    let st' := simulate_json_settled r st in
    currentPortfolioJSON st' = currentPortfolioJSON st
    /\ jsonInput (dom st') = jsonInput (dom st)
    /\ parseStatus (dom st') = parseStatus (dom st)
    /\ requests st' = requests st
    /\ alerts st' = alerts st
    /\ className (simSummary (dom st')) = className (simSummary (dom st)).
Proof.
  intros [data|e] st; [|cbn; repeat split].
  unfold simulate_json_settled, try_catch.
  destruct (renderResults_frame data st) as (Hc & _ & _ & Hr & Hp).
  destruct (renderResults_page_frame data st) as (Hj & Hs & _ & _ & _ & _ & Ha).
  destruct (renderResults data st) as [s1 [u|e]]; cbn in *;
    rewrite ?Hp, ?Hj, ?Hs, ?Hr, ?Ha, ?Hc; repeat split.
Qed.

Lemma simulate_fetch_settled_frame :
  forall (id : nat) (r : settled response) (st : state),
    let st' := simulate_fetch_settled id r st in
    currentPortfolioJSON st' = currentPortfolioJSON st
    /\ jsonInput (dom st') = jsonInput (dom st)
    /\ parseStatus (dom st') = parseStatus (dom st)
    /\ requests st' = requests st
    /\ alerts st' = alerts st
    /\ className (simSummary (dom st')) = className (simSummary (dom st)).
Proof.
  intros id [r|e] st; cbn; [destruct (ok r); cbn|]; repeat split.
Qed.

Lemma parse_fetch_settled_frame :
  forall (id : nat) (r : settled response) (st : state),
    let st' := parse_fetch_settled id r st in
    currentPortfolioJSON st' = currentPortfolioJSON st
    /\ jsonInput (dom st') = jsonInput (dom st)
    /\ rendered st' = rendered st
    /\ requests st' = requests st
    /\ alerts st' = alerts st.
Proof.
  intros id [r|e] st; cbn; [destruct (ok r); cbn|]; repeat split.
Qed.

Lemma parse_json_settled_frame :
  forall (r : settled value) (st : state),
    let st' := parse_json_settled r st in
    rendered st' = rendered st /\ requests st' = requests st /\ alerts st' = alerts st.
Proof.
  intros [data|e] st; [|cbn; repeat split].
  unfold parse_json_settled, try_catch, bind, eval, exec.
  destruct (get data (str "portfolio")); cbn; repeat split.
Qed.

(** X15: who writes the current portfolio.  In one turn of the event
    loop it changes only by a click on the load button, by a click on the
    clear button or by the body of a parse response; the simulate
    handler, at any stage and whatever it is answered, never writes it. *)
Theorem portfolio_writers :
  forall (st st' : state) (ev : event),
    step st ev = Some st' ->
    currentPortfolioJSON st' <> currentPortfolioJSON st ->
    ev = Click useJsonBtn \/ ev = Click clearJsonBtn
    \/ exists (id : nat) (data : value) (rest : list task),
         ev = JsonSettled id (Fulfilled data)
         /\ take_task id AwaitJson (tasks st) = Some (ParseHandler, rest).
Proof.
  intros st st' ev E N.
  destruct ev as [[ | | | ] | text | f n s | id r | id r]; cbn [step] in E.
  - exfalso. apply N. inversion E; subst. unfold parseBtn_click.
    destruct (docxFile (dom st)); reflexivity.
  - left. reflexivity.
  - right. left. reflexivity.
  - exfalso. apply N. inversion E; subst. unfold simulateBtn_click.
    destruct (negb (ToBoolean (currentPortfolioJSON st))); reflexivity.
  - exfalso. apply N. inversion E; subst. reflexivity.
  - exfalso. apply N. inversion E; subst. reflexivity.
  - exfalso. apply N.
    destruct (take_task id AwaitFetch (tasks st)) as [[[|] rest]|]; inversion E; subst.
    + apply (parse_fetch_settled_frame id r (set_tasks rest st)).
    + apply (simulate_fetch_settled_frame id r (set_tasks rest st)).
  - destruct (take_task id AwaitJson (tasks st)) as [[[|] rest]|] eqn:T; inversion E; subst.
    + destruct r as [data|e].
      * right. right. exists id, data, rest. split; [reflexivity|exact T].
      * exfalso. apply N. reflexivity.
    + exfalso. apply N. apply (simulate_json_settled_frame r (set_tasks rest st)).
Qed.

Lemma portfolio_writers_witness :
  Click clearJsonBtn = Click useJsonBtn \/ Click clearJsonBtn = Click clearJsonBtn
  \/ exists (id : nat) (data : value) (rest : list task),
       Click clearJsonBtn = JsonSettled id (Fulfilled data)
       /\ take_task id AwaitJson (tasks loaded_state) = Some (ParseHandler, rest).
Proof.
  apply (portfolio_writers loaded_state (clearJsonBtn_click loaded_state) (Click clearJsonBtn)).
  - reflexivity.
  - discriminate.
Defined.

(** X16: who sends requests.  One turn of the event loop sends nothing or
    exactly one request, and never removes one: the parse request for the
    chosen document on a click on parse with a document chosen, a
    simulate request on a click on simulate with a truthy portfolio.
    Nothing is sent when a promise settles: there is no retry. *)
Theorem request_senders :
  forall (st st' : state) (ev : event),
    step st ev = Some st' ->
    requests st' = requests st
    \/ (exists f : file,
          ev = Click parseBtn /\ docxFile (dom st) = Some f
          /\ requests st' = requests st ++ [parse_request f])
    \/ (exists body : jsstring,
          ev = Click simulateBtn /\ ToBoolean (currentPortfolioJSON st) = true
          /\ requests st' = requests st ++ [simulate_request body]).
Proof.
  intros st st' ev E.
  destruct ev as [[ | | | ] | text | f n s | id r | id r]; cbn [step] in E.
  - inversion E; subst. unfold parseBtn_click.
    destruct (docxFile (dom st)) as [f|] eqn:F; [|left; reflexivity].
    right. left. exists f. repeat split.
  - left. inversion E; subst. unfold useJsonBtn_click.
    destruct (JSON_parse _); reflexivity.
  - left. inversion E; subst. reflexivity.
  - inversion E; subst. unfold simulateBtn_click.
    destruct (ToBoolean (currentPortfolioJSON st)) eqn:T; cbn [negb]; [|left; reflexivity].
    right. right.
    destruct (truthy_serializes _ [] [] T) as [ptext Hp].
    rewrite simulate_payload_entries, (serialize_payload _ ptext _ _ Hp).
    eexists. repeat split.
  - left. inversion E; subst. reflexivity.
  - left. inversion E; subst. reflexivity.
  - left.
    destruct (take_task id AwaitFetch (tasks st)) as [[[|] rest]|]; inversion E; subst.
    + apply (parse_fetch_settled_frame id r (set_tasks rest st)).
    + apply (simulate_fetch_settled_frame id r (set_tasks rest st)).
  - left.
    destruct (take_task id AwaitJson (tasks st)) as [[[|] rest]|]; inversion E; subst.
    + apply (parse_json_settled_frame r (set_tasks rest st)).
    + apply (simulate_json_settled_frame r (set_tasks rest st)).
Qed.

Lemma request_senders_witness :
  requests (parseBtn_click loaded_state) = requests loaded_state
  \/ (exists f : file,
        Click parseBtn = Click parseBtn /\ docxFile (dom loaded_state) = Some f
        /\ requests (parseBtn_click loaded_state) = requests loaded_state ++ [parse_request f])
  \/ (exists body : jsstring,
        Click parseBtn = Click simulateBtn
        /\ ToBoolean (currentPortfolioJSON loaded_state) = true
        /\ requests (parseBtn_click loaded_state)
           = requests loaded_state ++ [simulate_request body]).
Proof.
  apply (request_senders loaded_state (parseBtn_click loaded_state) (Click parseBtn)).
  reflexivity.
Defined.

(** X17: who writes what the page shows of a simulation.  The summary,
    the indicators and the charts change only by a click on simulate with
    a truthy portfolio or when a promise of a simulate handler settles;
    the parse, load and clear actions never touch them. *)
Theorem rendering_writers :
  forall (st st' : state) (ev : event),
    step st ev = Some st' ->
    rendered st' <> rendered st ->
    (ev = Click simulateBtn /\ ToBoolean (currentPortfolioJSON st) = true)
    \/ (exists (id : nat) (r : settled response) (rest : list task),
          ev = FetchSettled id r
          /\ take_task id AwaitFetch (tasks st) = Some (SimulateHandler, rest))
    \/ (exists (id : nat) (r : settled value) (rest : list task),
          ev = JsonSettled id r
          /\ take_task id AwaitJson (tasks st) = Some (SimulateHandler, rest)).
Proof.
  intros st st' ev E N.
  destruct ev as [[ | | | ] | text | f n s | id r | id r]; cbn [step] in E.
  - exfalso. apply N. inversion E; subst. unfold parseBtn_click.
    destruct (docxFile (dom st)); reflexivity.
  - exfalso. apply N. inversion E; subst. unfold useJsonBtn_click.
    destruct (JSON_parse _); reflexivity.
  - exfalso. apply N. inversion E; subst. reflexivity.
  - destruct (ToBoolean (currentPortfolioJSON st)) eqn:T; [left; split; reflexivity|].
    exfalso. apply N. inversion E; subst. unfold simulateBtn_click. rewrite T. reflexivity.
  - exfalso. apply N. inversion E; subst. reflexivity.
  - exfalso. apply N. inversion E; subst. reflexivity.
  - destruct (take_task id AwaitFetch (tasks st)) as [[[|] rest]|] eqn:T; inversion E; subst.
    + exfalso. apply N. apply (parse_fetch_settled_frame id r (set_tasks rest st)).
    + right. left. exists id, r, rest. split; [reflexivity|exact T].
  - destruct (take_task id AwaitJson (tasks st)) as [[[|] rest]|] eqn:T; inversion E; subst.
    + exfalso. apply N. apply (parse_json_settled_frame r (set_tasks rest st)).
    + right. right. exists id, r, rest. split; [reflexivity|exact T].
Qed.

Lemma rendering_writers_witness :
  (Click simulateBtn = Click simulateBtn
   /\ ToBoolean (currentPortfolioJSON loaded_state) = true)
  \/ (exists (id : nat) (r : settled response) (rest : list task),
        Click simulateBtn = FetchSettled id r
        /\ take_task id AwaitFetch (tasks loaded_state) = Some (SimulateHandler, rest))
  \/ (exists (id : nat) (r : settled value) (rest : list task),
        Click simulateBtn = JsonSettled id r
        /\ take_task id AwaitJson (tasks loaded_state) = Some (SimulateHandler, rest)).
Proof.
  apply (rendering_writers loaded_state (simulateBtn_click loaded_state) (Click simulateBtn)).
  - reflexivity.
  - vm_compute. discriminate.
Defined.

(** ** The status texts along a run *)

Lemma step_parse_status :
  forall (st st' : state) (ev : event),
    step st ev = Some st' ->
    parseStatus (dom st') = parseStatus (dom st)
    \/ In (parseStatus (dom st')) parse_statuses.
Proof.
  intros st st' ev E.
  destruct ev as [[ | | | ] | text | f n s | id r | id r]; cbn [step] in E.
  - right. inversion E; subst. unfold parseBtn_click.
    destruct (docxFile (dom st)); cbn; tauto.
  - left. inversion E; subst. unfold useJsonBtn_click.
    destruct (JSON_parse _); reflexivity.
  - left. inversion E; subst. reflexivity.
  - left. inversion E; subst. unfold simulateBtn_click.
    destruct (negb (ToBoolean (currentPortfolioJSON st))); reflexivity.
  - left. inversion E; subst. reflexivity.
  - left. inversion E; subst. reflexivity.
  - destruct (take_task id AwaitFetch (tasks st)) as [[[|] rest]|]; inversion E; subst.
    + destruct r as [r|e]; cbn; [destruct (ok r); cbn|]; tauto.
    + left. apply (simulate_fetch_settled_frame id r (set_tasks rest st)).
  - destruct (take_task id AwaitJson (tasks st)) as [[[|] rest]|]; inversion E; subst.
    + destruct r as [data|e]; [|cbn; tauto].
      unfold parse_json_settled, try_catch, bind, eval, exec.
      destruct (get data (str "portfolio")); cbn; tauto.
    + left. apply (simulate_json_settled_frame r (set_tasks rest st)).
Qed.

(** X18: along every run the parse status is as it was at the start or
    one of four: the no-file notice and the failure message in the error
    style, the progress message and the success message in the plain
    style. *)
Theorem parse_status_is_one_of_four :
  forall (st0 st : state) (evs : list event),
    run st0 evs = Some st ->
    parseStatus (dom st) = parseStatus (dom st0)
    \/ In (parseStatus (dom st)) parse_statuses.
Proof.
  intros st0 st evs. revert st0. induction evs as [|ev evs IH]; intros st0 R.
  - left. inversion R; subst. reflexivity.
  - cbn [run] in R. destruct (step st0 ev) as [st1|] eqn:E; [|discriminate].
    destruct (IH _ R) as [H|H]; [|right; exact H].
    rewrite H. apply (step_parse_status _ _ _ E).
Qed.

Lemma parse_status_is_one_of_four_witness :
  parseStatus (dom (parse_fetch_settled 0 (Fulfilled {| status := 503 |})
                      (set_tasks [] (parseBtn_click loaded_state))))
  = parseStatus (dom loaded_state)
  \/ In (parseStatus (dom (parse_fetch_settled 0 (Fulfilled {| status := 503 |})
                             (set_tasks [] (parseBtn_click loaded_state)))))
       parse_statuses.
Proof.
  apply (parse_status_is_one_of_four loaded_state _
           [Click parseBtn; FetchSettled 0 (Fulfilled {| status := 503 |})]).
  reflexivity.
Defined.

Lemma step_summary_class :
  forall (st st' : state) (ev : event),
    step st ev = Some st' ->
    className (simSummary (dom st')) = className (simSummary (dom st)).
Proof.
  intros st st' ev E.
  destruct ev as [[ | | | ] | text | f n s | id r | id r]; cbn [step] in E.
  - inversion E; subst. unfold parseBtn_click. destruct (docxFile (dom st)); reflexivity.
  - inversion E; subst. unfold useJsonBtn_click. destruct (JSON_parse _); reflexivity.
  - inversion E; subst. reflexivity.
  - inversion E; subst. unfold simulateBtn_click.
    destruct (negb (ToBoolean (currentPortfolioJSON st))); reflexivity.
  - inversion E; subst. reflexivity.
  - inversion E; subst. reflexivity.
  - destruct (take_task id AwaitFetch (tasks st)) as [[[|] rest]|]; inversion E; subst.
    + destruct r as [r|e]; cbn; [destruct (ok r); cbn|]; reflexivity.
    + apply (simulate_fetch_settled_frame id r (set_tasks rest st)).
  - destruct (take_task id AwaitJson (tasks st)) as [[[|] rest]|]; inversion E; subst.
    + destruct r as [data|e]; [|reflexivity].
      unfold parse_json_settled, try_catch, bind, eval, exec.
      destruct (get data (str "portfolio")); reflexivity.
    + apply (simulate_json_settled_frame r (set_tasks rest st)).
Qed.

(** X19: along every run the style class of the summary element is the
    one it had at the start: the controller never marks a failed
    simulation with the error style. *)
Theorem summary_class_never_changes :
  forall (st0 st : state) (evs : list event),
    run st0 evs = Some st ->
    className (simSummary (dom st)) = className (simSummary (dom st0)).
Proof.
  intros st0 st evs. revert st0. induction evs as [|ev evs IH]; intros st0 R.
  - inversion R; subst. reflexivity.
  - cbn [run] in R. destruct (step st0 ev) as [st1|] eqn:E; [|discriminate].
    rewrite (IH _ R). apply (step_summary_class _ _ _ E).
Qed.

Lemma summary_class_never_changes_witness :
  className (simSummary (dom (simulate_fetch_settled 0 (Fulfilled {| status := 503 |})
                               (set_tasks [] (simulateBtn_click loaded_state)))))
  = className (simSummary (dom loaded_state)).
Proof.
  apply (summary_class_never_changes loaded_state _
           [Click simulateBtn; FetchSettled 0 (Fulfilled {| status := 503 |})]).
  reflexivity.
Defined.
